(** * grafer: embed resizer, GitHub save and version manager

    A shallow embedding of the browser-side scripts of the grafer site
    ([src/version-manager.js], [src/github-save.js], [src/embed.js] and its
    second deployed copy) together with the properties established about
    them.

    Conventions of the embedding

    - A JavaScript string is the list of its UTF-16 code units, each a [Z]
      in [0, 65535].
    - A thrown exception is the left injection of a sum; the state reached
      at the throw is kept, as in JavaScript.
    - Platform functions the scripts call ([TextEncoder], [TextDecoder],
      [btoa], [atob], [String.prototype.toLowerCase], [Array.prototype.sort])
      are modelled after their standards (WHATWG Encoding, WHATWG Infra
      forgiving-base64, ECMA-262).  [JSON.parse], [JSON.stringify],
      [Date.parse], the clock and the network are parameters.
    - Numbers are integers ([Z]); every number the scripts compute with is
      a status code, a loop counter or a pixel count. *)

From Stdlib Require Import ZArith List Lia String Ascii Permutation Sorted.
From Stdlib Require Floats.
From stdpp Require Import base decidable option list gmap strings pretty sorting.

Local Open Scope Z_scope.
Set Warnings "-register-all".

(** ** JavaScript strings *)

Abbreviation jsstring := (list Z) (only parsing).

(** Exceptions the scripts throw or let through. [Error msg] is
    [new Error(msg)]; the others are raised by the platform: [SyntaxError]
    by [JSON.parse] and [resp.json()], [InvalidCharacterError] by [atob]
    and [btoa], [TypeError] by a [fetch] that gets no response. *)
Inductive Exn : Type :=
| Error (message : jsstring)
| SyntaxError
| InvalidCharacterError
| TypeError.

(** Result of a computation that may throw. *)
Abbreviation Result A := (Exn + A)%type (only parsing).

Module Encoding.

(** *** UTF-16 code units and scalar values *)

Definition is_code_unit (u : Z) : bool := (0 <=? u) && (u <=? 0xFFFF).
Definition is_high_surrogate (u : Z) : bool := (0xD800 <=? u) && (u <=? 0xDBFF).
Definition is_low_surrogate (u : Z) : bool := (0xDC00 <=? u) && (u <=? 0xDFFF).

(** A scalar value is a code point that is not a surrogate. *)
Definition is_scalar (c : Z) : bool :=
  (0 <=? c) && (c <=? 0x10FFFF) && negb ((0xD800 <=? c) && (c <=? 0xDFFF)).

(** [String.prototype.isWellFormed]: every code unit is in range and
    every surrogate is part of a high/low pair. *)
Fixpoint isWellFormed (s : jsstring) : bool :=
  match s with
  | [] => true
  | u :: t =>
      if is_high_surrogate u then
        match t with
        | v :: t' => is_low_surrogate v && isWellFormed t'
        | [] => false
        end
      else is_code_unit u && negb (is_low_surrogate u) && isWellFormed t
  end.

(** Conversion of a JavaScript string to a sequence of scalar values
    (Web IDL [USVString]): a surrogate pair becomes one code point, an
    unpaired surrogate becomes U+FFFD. *)
Fixpoint to_scalar_values (s : jsstring) : list Z :=
  match s with
  | [] => []
  | u :: t =>
      if is_high_surrogate u then
        match t with
        | v :: t' =>
            if is_low_surrogate v
            then (0x10000 + (u - 0xD800) * 0x400 + (v - 0xDC00)) :: to_scalar_values t'
            else 0xFFFD :: to_scalar_values t
        | [] => [0xFFFD]
        end
      else if is_low_surrogate u then 0xFFFD :: to_scalar_values t
      else u :: to_scalar_values t
  end.

(** The inverse direction: a code point as one or two code units. *)
Definition utf16_units (c : Z) : jsstring :=
  if c <? 0x10000 then [c]
  else [0xD800 + (c - 0x10000) / 0x400; 0xDC00 + (c - 0x10000) mod 0x400].

(** *** UTF-8 (WHATWG Encoding, sections 9.1.1 and 9.1.2) *)

Definition utf8_encode_cp (c : Z) : list Z :=
  if c <? 0x80 then [c]
  else if c <? 0x800 then [0xC0 + c / 64; 0x80 + c mod 64]
  else if c <? 0x10000 then
    [0xE0 + c / 4096; 0x80 + (c / 64) mod 64; 0x80 + c mod 64]
  else
    [0xF0 + c / 262144; 0x80 + (c / 4096) mod 64;
     0x80 + (c / 64) mod 64; 0x80 + c mod 64].

(** [new TextEncoder().encode(str)]. *)
Definition TextEncoder_encode (str : jsstring) : list Z :=
  flat_map utf8_encode_cp (to_scalar_values str).

(** State of the UTF-8 decoder inside a multi-byte sequence: the code
    point accumulated so far, the number of continuation bytes still
    expected, and the bounds the next byte has to lie in. *)
Record Pending : Type := mkPending {
  p_code_point : Z;
  p_remaining : Z;
  p_lower : Z;
  p_upper : Z
}.

(** A byte read while no sequence is open. Returns the code points
    emitted and the new decoder state. *)
Definition utf8_lead (b : Z) : list Z * option Pending :=
  if (0 <=? b) && (b <=? 0x7F) then ([b], None)
  else if (0xC2 <=? b) && (b <=? 0xDF) then
    ([], Some (mkPending (b mod 32) 1 0x80 0xBF))
  else if (0xE0 <=? b) && (b <=? 0xEF) then
    ([], Some (mkPending (b mod 16) 2
                 (if b =? 0xE0 then 0xA0 else 0x80)
                 (if b =? 0xED then 0x9F else 0xBF)))
  else if (0xF0 <=? b) && (b <=? 0xF4) then
    ([], Some (mkPending (b mod 8) 3
                 (if b =? 0xF0 then 0x90 else 0x80)
                 (if b =? 0xF4 then 0x8F else 0xBF)))
  else ([0xFFFD], None).

(** The decoder with error mode "replacement": every malformed sequence
    yields U+FFFD, and the byte that ended it is read again as a lead. *)
Fixpoint utf8_decode_from (st : option Pending) (bs : list Z) : list Z :=
  match bs with
  | [] => match st with Some _ => [0xFFFD] | None => [] end
  | b :: t =>
      match st with
      | None =>
          let '(out, st') := utf8_lead b in out ++ utf8_decode_from st' t
      | Some p =>
          if (p_lower p <=? b) && (b <=? p_upper p) then
            let cp := p_code_point p * 64 + b mod 64 in
            if p_remaining p =? 1 then cp :: utf8_decode_from None t
            else utf8_decode_from
                   (Some (mkPending cp (p_remaining p - 1) 0x80 0xBF)) t
          else
            let '(out, st') := utf8_lead b in
            0xFFFD :: out ++ utf8_decode_from st' t
      end
  end.

(** With the [ignoreBOM] option unset a leading U+FEFF is not part of
    the output. *)
Definition strip_bom (cps : list Z) : list Z :=
  match cps with
  | c :: t => if c =? 0xFEFF then t else cps
  | [] => []
  end.

(** [new TextDecoder().decode(bytes)]: UTF-8, not fatal, [ignoreBOM]
    false. *)
Definition TextDecoder_decode (bytes : list Z) : jsstring :=
  flat_map utf16_units (strip_bom (utf8_decode_from None bytes)).

(** *** Binary strings *)

(** [String.fromCharCode(n)]: the argument is taken modulo 2^16. *)
Definition String_fromCharCode (n : Z) : jsstring := [n mod 65536].

(** Storing into a [Uint8Array] element takes the value modulo 2^8. *)
Definition ToUint8 (n : Z) : Z := n mod 256.

(** *** Base64 ([btoa], and [atob] as forgiving-base64 decode) *)

Definition byte_codes (s : string) : list Z :=
  map (fun a => Z.of_nat (nat_of_ascii a)) (list_ascii_of_string s).

Definition base64_alphabet : jsstring :=
  Eval vm_compute in
    byte_codes "ABCDEFGHIJKLMNOPQRSTUVWXYZabcdefghijklmnopqrstuvwxyz0123456789+/".

Definition base64_char (i : Z) : Z := nth (Z.to_nat i) base64_alphabet 0.

Definition base64_index (c : Z) : option Z :=
  if (65 <=? c) && (c <=? 90) then Some (c - 65)
  else if (97 <=? c) && (c <=? 122) then Some (c - 97 + 26)
  else if (48 <=? c) && (c <=? 57) then Some (c - 48 + 52)
  else if c =? 43 then Some 62
  else if c =? 47 then Some 63
  else None.

(** The 6-bit groups of a byte sequence. *)
Fixpoint sextets (bs : list Z) : list Z :=
  match bs with
  | a :: b :: c :: t =>
      a / 4 :: (a mod 4) * 16 + b / 16 :: (b mod 16) * 4 + c / 64 :: c mod 64
        :: sextets t
  | [a; b] => [a / 4; (a mod 4) * 16 + b / 16; (b mod 16) * 4]
  | [a] => [a / 4; (a mod 4) * 16]
  | [] => []
  end.

Definition base64_padding (n : nat) : jsstring :=
  match (n mod 3)%nat with
  | 1%nat => [61; 61]
  | 2%nat => [61]
  | _ => []
  end.

(** [btoa(binary)]: throws when a code unit is above 0xFF. *)
Definition btoa (binary : jsstring) : Result jsstring :=
  if forallb (fun u => (0 <=? u) && (u <=? 255)) binary
  then inr (map base64_char (sextets binary) ++ base64_padding (length binary))
  else inl InvalidCharacterError.

Definition is_ascii_whitespace (c : Z) : bool :=
  (c =? 9) || (c =? 10) || (c =? 12) || (c =? 13) || (c =? 32).

(** Step 2 of forgiving-base64 decode: when the length is a multiple of
    four, one or two trailing [=] are removed. *)
Definition strip_padding (data : jsstring) : jsstring :=
  if (length data mod 4 =? 0)%nat then
    match rev data with
    | 61 :: 61 :: r => rev r
    | 61 :: r => rev r
    | _ => data
    end
  else data.

Fixpoint mapM_index (data : jsstring) : option (list Z) :=
  match data with
  | [] => Some []
  | c :: t =>
      match base64_index c, mapM_index t with
      | Some v, Some vs => Some (v :: vs)
      | _, _ => None
      end
  end.

(** Bytes of a sequence of 6-bit groups; the bits left over at the end
    (4 after two groups, 2 after three) are discarded. *)
Fixpoint octets (vs : list Z) : list Z :=
  match vs with
  | a :: b :: c :: d :: t =>
      a * 4 + b / 16 :: (b mod 16) * 16 + c / 4 :: (c mod 4) * 64 + d
        :: octets t
  | [a; b; c] => [a * 4 + b / 16; (b mod 16) * 16 + c / 4]
  | [a; b] => [a * 4 + b / 16]
  | _ => []
  end.

(** [atob(data)]. *)
Definition atob (data : jsstring) : Result jsstring :=
  let data := filter (fun c => is_ascii_whitespace c = false) data in
  let data := strip_padding data in
  if (length data mod 4 =? 1)%nat then inl InvalidCharacterError
  else
    match mapM_index data with
    | Some vs => inr (octets vs)
    | None => inl InvalidCharacterError
    end.

(** *** The two functions of the scripts *)

(** [utf8ToBase64] (version-manager.js 20-28, github-save.js 15-23):
    the loop appends one code unit per byte to [binary]. *)
Definition utf8ToBase64 (str : jsstring) : Result jsstring :=
  let bytes := TextEncoder_encode str in
  let binary :=
    fold_left (fun binary b => binary ++ String_fromCharCode b) bytes [] in
  btoa binary.

(** [base64.replace(/\n/g, '')]. *)
Definition remove_newlines (s : jsstring) : jsstring :=
  filter (fun c => c ≠ 10) s.

(** [base64ToUtf8] (version-manager.js 31-38). *)
Definition base64ToUtf8 (base64 : jsstring) : Result jsstring :=
  match atob (remove_newlines base64) with
  | inl e => inl e
  | inr binary =>
      let bytes := map ToUint8 binary in
      inr (TextDecoder_decode bytes)
  end.

(** The values a [Uint8Array] holds. *)
Definition is_byte (b : Z) : Prop := 0 <= b <= 255.

(** A string literal of this file, read as the JavaScript string with
    the same text (the file is UTF-8). *)
Definition js (s : string) : jsstring := TextDecoder_decode (byte_codes s).

End Encoding.

Import Encoding.

(** [`${n}`] for an integer [n]: its decimal digits. *)
Definition Number_toString (n : Z) : jsstring := byte_codes (pretty n).

(** ** Numbers

    A JavaScript number is an IEEE 754 double, here a primitive float;
    [+] on two numbers is the addition of doubles. *)

Module Number.

(** The number value of an integer, rounded to the nearest double. *)
Definition of_Z (n : Z) : PrimFloat.float :=
  FloatOps.SF2Prim
    (SpecFloat.binary_normalize FloatOps.prec FloatOps.emax n 0 false).

(** Number::toString (ECMA-262, 6.1.6.1.20) in radix 10. For a positive
    finite number [m * 2^e] it needs the integers [s] and [q] such that
    the decimal [s * 10^q] rounds to the number, [s] has as few digits as
    can be, and [s * 10^q] is as near to the number as can be. *)
Section Shortest.
Variables (m e : Z).

(** In units of [2^(e-2)] the number is [4 * m], and the reals that
    round to it lie between [lower] and [upper]; the bounds themselves
    round to it when [m] is even. Below a power of two the doubles are
    twice as dense. *)
Definition lower : Z :=
  if (m =? 2 ^ 52) && (-1074 <? e) then 4 * m - 1 else 4 * m - 2.
Definition upper : Z := 4 * m + 2.

(** [a * 2^(e-2)] and [10^q], brought to a common integer scale. *)
Definition scaled (a q : Z) : Z := a * 2 ^ Z.max (e - 2) 0 * 10 ^ Z.max (- q) 0.
Definition unit_ (q : Z) : Z := 10 ^ Z.max q 0 * 2 ^ Z.max (2 - e) 0.

(** The [s] nearest to the number among those whose [s * 10^q] rounds
    to it, the even one of two equally near; [None] when there is
    none. *)
Definition candidate (q : Z) : option Z :=
  let B := unit_ q in
  let L := scaled lower q in
  let H := scaled upper q in
  let X := scaled (4 * m) q in
  let s_lo := if Z.even m then (L + B - 1) / B else L / B + 1 in
  let s_hi := if Z.even m then H / B else (H - 1) / B in
  if s_lo <=? s_hi then
    let c1 := Z.max s_lo (Z.min s_hi (X / B)) in
    let c2 := Z.max s_lo (Z.min s_hi (X / B + 1)) in
    let d1 := Z.abs (c1 * B - X) in
    let d2 := Z.abs (c2 * B - X) in
    Some (if d1 <? d2 then c1
          else if d2 <? d1 then c2
          else if Z.even c1 then c1 else c2)
  else None.

(** The greatest [q] that has a candidate gives the fewest digits. *)
Fixpoint search (fuel : nat) (q : Z) : Z * Z :=
  match candidate q with
  | Some s => (s, q)
  | None =>
      match fuel with
      | O => (0, q)
      | S fuel' => search fuel' (q - 1)
      end
  end.

(** The search starts above the number of decimal digits of the number;
    seventeen digits always suffice. *)
Definition shortest : Z * Z :=
  search 40 ((Z.log2 m + 1 + e) * 30103 / 100000 + 3).

End Shortest.

Definition zeros (n : Z) : jsstring := repeat 48 (Z.to_nat n).

(** The text of the positive number [s * 10^q]: plain digits, digits
    with a decimal point, or the exponent form when the decimal point is
    more than 21 places from the first digit to the right, or more than
    6 to the left. *)
Definition format (s q : Z) : jsstring :=
  let digits := byte_codes (pretty s) in
  let k := Z.of_nat (length digits) in
  let n := k + q in
  if (k <=? n) && (n <=? 21) then digits ++ zeros (n - k)
  else if (0 <? n) && (n <=? 21) then
    take (Z.to_nat n) digits ++ 46 :: drop (Z.to_nat n) digits
  else if (-6 <? n) && (n <=? 0) then 48 :: 46 :: zeros (- n) ++ digits
  else
    let exponent := n - 1 in
    let sign := if exponent <? 0 then 45 else 43 in
    (if k =? 1 then digits else take 1 digits ++ 46 :: drop 1 digits)
      ++ 101 :: sign :: byte_codes (pretty (Z.abs exponent)).

Definition toString (x : PrimFloat.float) : jsstring :=
  match FloatOps.Prim2SF x with
  | SpecFloat.S754_zero _ => [48]
  | SpecFloat.S754_infinity false => byte_codes "Infinity"
  | SpecFloat.S754_infinity true => byte_codes "-Infinity"
  | SpecFloat.S754_nan => byte_codes "NaN"
  | SpecFloat.S754_finite sign m e =>
      let '(s, q) := shortest (Zpos m) e in
      (if sign then [45] else []) ++ format s q
  end.

End Number.

(** JavaScript truthiness of a string value that may be [null] or
    [undefined]: only a non-empty string is truthy. *)
Definition truthy (v : option jsstring) : bool :=
  match v with
  | Some (_ :: _) => true
  | _ => false
  end.

(** [a || b] on such values. *)
Definition or_else (a b : option jsstring) : option jsstring :=
  if truthy a then a else b.

(** [a || b] when [b] is a string. *)
Definition or_string (a : option jsstring) (b : jsstring) : jsstring :=
  match a with
  | Some (c :: s) => c :: s
  | _ => b
  end.

(** [s.startsWith(needle)] and [s.includes(needle)]. *)
Fixpoint String_startsWith (needle s : jsstring) : bool :=
  match needle, s with
  | [], _ => true
  | a :: needle', b :: s' => (a =? b) && String_startsWith needle' s'
  | _ :: _, [] => false
  end.

Fixpoint String_includes (needle s : jsstring) : bool :=
  String_startsWith needle s ||
  match s with
  | [] => false
  | _ :: s' => String_includes needle s'
  end.

(** The message of a thrown [Error] names the status code. *)
Definition carries_status {A} (r : Result A) (status : Z) : bool :=
  match r with
  | inl (Error msg) => String_includes (Number_toString status) msg
  | _ => false
  end.

(** ** Slug generator (version-manager.js 40-56) *)

Module Slug.

(** [String.prototype.toLowerCase], one code unit at a time. The table is
    exact on Basic Latin and Latin-1 Supplement and on the three
    characters outside them whose lower-case form contains one of
    [a-z], U+00E6, U+00F8 or U+00E5 (U+0130, the Kelvin sign and the
    Angstrom sign). Every other character is left as it is: its
    lower-case form, like the character itself, lies outside
    [a-z0-9] and the three transliterated letters. *)
Definition toLowerCase_unit (u : Z) : jsstring :=
  if (0x41 <=? u) && (u <=? 0x5A) then [u + 32]
  else if (0xC0 <=? u) && (u <=? 0xDE) && negb (u =? 0xD7) then [u + 32]
  else if u =? 0x130 then [0x69; 0x307]
  else if u =? 0x212A then [0x6B]
  else if u =? 0x212B then [0xE5]
  else [u].

Definition toLowerCase (s : jsstring) : jsstring :=
  flat_map toLowerCase_unit s.

(** [s.replace(/c/g, repl)] for a single character [c]. *)
Definition replace_unit (c : Z) (repl : jsstring) (s : jsstring) : jsstring :=
  flat_map (fun u => if u =? c then repl else [u]) s.

(** [s.replace(/[P]+/g, repl)]: every maximal run of code units in the
    class [P] is replaced by [repl]. [in_run] tells that the previous
    code unit belonged to the run being replaced. *)
Fixpoint replace_runs_from (P : Z -> bool) (repl : jsstring)
    (in_run : bool) (s : jsstring) : jsstring :=
  match s with
  | [] => []
  | u :: t =>
      if P u
      then (if in_run then [] else repl) ++ replace_runs_from P repl true t
      else u :: replace_runs_from P repl false t
  end.

Definition replace_runs (P : Z -> bool) (repl s : jsstring) : jsstring :=
  replace_runs_from P repl false s.

(** The class [a-z0-9]. *)
Definition is_slug_char (u : Z) : bool :=
  ((97 <=? u) && (u <=? 122)) || ((48 <=? u) && (u <=? 57)).

Definition hyphen : Z := 45.

(** [s.replace(/^-|-$/g, '')]: a hyphen at the very start is removed,
    and so is a hyphen at the very end of what remains to be
    scanned. *)
Definition strip_edge_hyphens (s : jsstring) : jsstring :=
  let s1 := match s with
            | 45 :: t => t
            | _ => s
            end in
  match rev s1 with
  | 45 :: r => rev r
  | _ => s1
  end.

Definition slugify (name : jsstring) : jsstring :=
  let s := toLowerCase name in
  let s := replace_unit 0xE6 [97; 101] s in
  let s := replace_unit 0xF8 [111] s in
  let s := replace_unit 0xE5 [97] s in
  let s := replace_runs (fun u => negb (is_slug_char u)) [hyphen] s in
  let s := replace_runs (fun u => u =? hyphen) [hyphen] s in
  strip_edge_hyphens s.

(** [existingIds.includes(x)]. *)
Definition includes (existingIds : list jsstring) (x : jsstring) : bool :=
  bool_decide (x ∈ existingIds).

(** [`${slug}-${i}`]. *)
Definition suffixed (slug : jsstring) (i : Z) : jsstring :=
  slug ++ hyphen :: Number_toString i.

(** The [while] loop of [uniqueSlug], run for at most [fuel]
    iterations of its test; [None] when the fuel runs out. *)
Fixpoint uniqueSlug_loop (fuel : nat) (slug : jsstring)
    (existingIds : list jsstring) (i : Z) : option Z :=
  match fuel with
  | O => None
  | S fuel' =>
      if includes existingIds (suffixed slug i)
      then uniqueSlug_loop fuel' slug existingIds (i + 1)
      else Some i
  end.

Definition uniqueSlug_fuel (fuel : nat) (slug : jsstring)
    (existingIds : list jsstring) : option jsstring :=
  if negb (includes existingIds slug) then Some slug
  else
    match uniqueSlug_loop fuel slug existingIds 2 with
    | Some i => Some (suffixed slug i)
    | None => None
    end.

(** [uniqueSlug] with a fuel that always suffices (see
    [uniqueSlug_loop_enough]). *)
Definition uniqueSlug (slug : jsstring) (existingIds : list jsstring)
    : jsstring :=
  default slug (uniqueSlug_fuel (S (length existingIds)) slug existingIds).

(** What the specification says of [slugify], as a function of its own:
    the maximal runs of [a-z0-9] of the lower-cased and transliterated
    name, joined by single hyphens. *)
Fixpoint split_on (P : Z -> bool) (s : jsstring) : list jsstring :=
  match s with
  | [] => [[]]
  | u :: t =>
      if P u then [] :: split_on P t
      else
        match split_on P t with
        | w :: ws => (u :: w) :: ws
        | [] => [[u]]
        end
  end.

Definition nonempty (w : jsstring) : bool :=
  match w with
  | [] => false
  | _ => true
  end.

Definition join_hyphen (ws : list jsstring) : jsstring :=
  match ws with
  | [] => []
  | w :: ws' => w ++ flat_map (fun w' => hyphen :: w') ws'
  end.

Definition transliterate (s : jsstring) : jsstring :=
  flat_map (fun u => if u =? 0xE6 then [97; 101]
                     else if u =? 0xF8 then [111]
                     else if u =? 0xE5 then [97]
                     else [u]) s.

Definition slugify_spec (name : jsstring) : jsstring :=
  join_hyphen
    (List.filter nonempty
       (split_on (fun u => negb (is_slug_char u))
          (transliterate (toLowerCase name)))).

(** The same joining done by a transducer that holds a hyphen back
    until the next character of [a-z0-9] arrives: [pending] tells that a
    run of other characters has been passed since the last one. *)
Fixpoint joined_from (pending : bool) (s : jsstring) : jsstring :=
  match s with
  | [] => []
  | u :: t =>
      if is_slug_char u
      then (if pending then [hyphen] else []) ++ u :: joined_from false t
      else joined_from true t
  end.

(** ... started before the first word, where no hyphen is due. *)
Fixpoint joined_start (s : jsstring) : jsstring :=
  match s with
  | [] => []
  | u :: t => if is_slug_char u then u :: joined_from false t else joined_start t
  end.

(** Whether a string ends inside a run of characters outside [a-z0-9]. *)
Fixpoint ends_in_run (in_run : bool) (s : jsstring) : bool :=
  match s with
  | [] => in_run
  | u :: t => ends_in_run (negb (is_slug_char u)) t
  end.

(** The shape of a slug: only [a-z0-9] and hyphens, every hyphen
    between two characters of [a-z0-9]. *)
Fixpoint hyphens_inside (after_slug_char : bool) (s : jsstring) : bool :=
  match s with
  | [] => after_slug_char
  | u :: t =>
      if is_slug_char u then hyphens_inside true t
      else (u =? hyphen) && after_slug_char && hyphens_inside false t
  end.

Definition slug_shaped (s : jsstring) : bool :=
  match s with
  | [] => true
  | _ => hyphens_inside false s
  end.

(** The two halves of [strip_edge_hyphens]. *)
Definition strip_first (s : jsstring) : jsstring :=
  match s with
  | 45 :: t => t
  | _ => s
  end.

Definition strip_last (s : jsstring) : jsstring :=
  match rev s with
  | 45 :: r => rev r
  | _ => s
  end.

Abbreviation nonslug := (fun u => negb (is_slug_char u)).

End Slug.

Import Slug.

(** ** The remote content API and the browser around the scripts *)

(** JSON values, for the chart settings a version record carries. *)
Inductive Json : Type :=
| JNull
| JBool (b : bool)
| JNumber (n : Z)
| JString (s : jsstring)
| JArray (items : list Json)
| JObject (members : list (jsstring * Json)).

Definition TEXT_NULL : jsstring := Eval vm_compute in js "null".
Definition TEXT_TRUE : jsstring := Eval vm_compute in js "true".
Definition TEXT_FALSE : jsstring := Eval vm_compute in js "false".
Definition TEXT_OBJECT : jsstring := Eval vm_compute in js "[object Object]".
Definition TEXT_UNDEFINED : jsstring := Eval vm_compute in js "undefined".

(** Truthiness of a JSON value. *)
Definition Json_truthy (j : Json) : bool :=
  match j with
  | JNull => false
  | JBool b => b
  | JNumber n => negb (n =? 0)
  | JString s => truthy (Some s)
  | JArray _ | JObject _ => true
  end.

(** Whether properties can be set on the value. *)
Definition Json_is_object (j : Json) : bool :=
  match j with
  | JArray _ | JObject _ => true
  | _ => false
  end.

(** [j[key]] for a string key that is no array index and names nothing
    a string, a number or an array inherits: the member of an object, the
    last one of that name; [None] for [undefined]. *)
Definition Json_get (key : jsstring) (j : Json) : option Json :=
  match j with
  | JObject members =>
      fold_left (fun found '(k, v) => if bool_decide (k = key) then Some v else found)
        members None
  | _ => None
  end.

(** [`${j}`]: the string of a JSON value. An array is its elements
    joined by commas, [null] counting as the empty string. *)
Fixpoint Json_toString (j : Json) : jsstring :=
  match j with
  | JNull => TEXT_NULL
  | JBool true => TEXT_TRUE
  | JBool false => TEXT_FALSE
  | JNumber n => Number_toString n
  | JString s => s
  | JArray items =>
      (fix join (l : list Json) : jsstring :=
         let element x := match x with JNull => [] | _ => Json_toString x end in
         match l with
         | [] => []
         | [x] => element x
         | x :: l' => element x ++ 44 :: join l'
         end) items
  | JObject _ => TEXT_OBJECT
  end.

(** [`${v}`] for a value that may be [undefined]. *)
Definition template (v : option Json) : jsstring :=
  match v with
  | Some j => Json_toString j
  | None => TEXT_UNDEFINED
  end.

(** Body of a successful [GET .../contents/{path}]. *)
Record ContentsData : Type := mkContentsData {
  data_sha : jsstring;
  data_content : jsstring
}.

(** A response to the [GET]: [get_json] is what [resp.json()] resolves
    to, [None] when the body is not JSON. *)
Record GetResponse : Type := mkGetResponse {
  get_status : Z;
  get_json : option ContentsData
}.

(** The object serialised into the body of the [PUT]. [body_sha] is
    [None] when the property is not set. *)
Record PutBody : Type := mkPutBody {
  body_message : jsstring;
  body_content : jsstring;
  body_branch : jsstring;
  body_sha : option jsstring
}.

(** What the scripts read of the JSON value of a [PUT] response that is
    not [null]: the [message] of an error body, a string when there is
    one, and the [commit.html_url] of a success body. A value that is no
    object has neither. *)
Record PutJson : Type := mkPutJson {
  json_message : option jsstring;
  json_commit_html_url : option jsstring
}.

(** A response to the [PUT]: [put_json] is what [resp.json()] resolves
    to, [None] when the body is not JSON and the promise rejects,
    [Some None] when the body is the JSON [null]. *)
Record PutResponse : Type := mkPutResponse {
  put_status : Z;
  put_json : option (option PutJson)
}.

(** [resp.ok]. *)
Definition status_ok (status : Z) : bool := (200 <=? status) && (status <=? 299).


(** A version record (version-manager.js 102, 180-186). [createdAt] and
    [updatedAt] are absent ([None]) or ISO date strings. The fields are
    read as [Version.name v], [Version.id v], ... *)
Module Version.

Record VersionRecord : Type := mkVersionRecord {
  name : jsstring;
  id : jsstring;
  createdAt : option jsstring;
  updatedAt : option jsstring;
  config : Json
}.

End Version.

Abbreviation VersionRecord := Version.VersionRecord.

(** The parsed store file [{ versions: {...} }]; [versions] is [None]
    when the property is missing or falsy. *)
Record StoreFile : Type := mkStoreFile {
  versions : option (gmap jsstring VersionRecord)
}.

(** Everything observable the scripts do, in the order they do it. *)
Inductive Event : Type :=
| EvGet (url authorization : jsstring)
| EvPut (url authorization : jsstring) (body : PutBody)
| EvSetItem (key value : jsstring)
| EvRenderList (sorted : list VersionRecord).

(** The world the scripts run in. The two [fetch_*] fields answer a
    request ([inl] when [fetch] rejects); the rest are the platform
    functions left abstract. *)
Record Platform : Type := mkPlatform {
  fetch_get : jsstring -> jsstring -> Result GetResponse;
  fetch_put : jsstring -> jsstring -> PutBody -> Result PutResponse;
  (** [new Date().toISOString()] *)
  Date_now_toISOString : jsstring;
  (** [new Date(s).getTime()], [None] for an invalid date (NaN) *)
  Date_parse : jsstring -> option Z;
  (** [JSON.parse(text)] of a store file, [None] for a [SyntaxError] *)
  JSON_parse : jsstring -> option StoreFile;
  (** [JSON.stringify({ versions }, null, 2)] *)
  JSON_stringify_file : gmap jsstring VersionRecord -> jsstring;
  (** [JSON.stringify(versions)] *)
  JSON_stringify : gmap jsstring VersionRecord -> jsstring
}.

(** ** State and exceptions

    A computation of the scripts takes a state, returns a value or
    throws, and leaves a state. *)

Module Monad.

Definition M (S A : Type) : Type := S -> Result A * S.

Definition ret {S A} (a : A) : M S A := fun s => (inr a, s).
Definition throw {S A} (e : Exn) : M S A := fun s => (inl e, s).
Definition bind {S A B} (m : M S A) (k : A -> M S B) : M S B :=
  fun s =>
    match m s with
    | (inr a, s') => k a s'
    | (inl e, s') => (inl e, s')
    end.
Definition lift {S A} (r : Result A) : M S A := fun s => (r, s).
Definition gets {S A} (f : S -> A) : M S A := fun s => (inr (f s), s).
Definition modify {S} (f : S -> S) : M S unit := fun s => (inr tt, f s).

(** Run a computation on a part of the state. *)
Definition zoom {S T A} (get : S -> T) (set : T -> S -> S) (m : M T A)
    : M S A :=
  fun s => let '(r, t) := m (get s) in (r, set t s).

Declare Scope monad_scope.
Delimit Scope monad_scope with monad.
Notation "'let*' x ':=' m 'in' k" := (bind m (fun x => k))
  (at level 10, x name, m at level 200, k at level 200) : monad_scope.

End Monad.

Import Monad.
Local Open Scope monad_scope.

(** ** Requests to the content API

    The free functions of the scripts touch nothing but the network, so
    they run on the event log alone. *)

Module Net.

Definition api_base : jsstring :=
  Eval vm_compute in js "https://api.github.com/repos/".
Definition contents_segment : jsstring := Eval vm_compute in js "/contents/".
Definition ref_main : jsstring := Eval vm_compute in js "?ref=main".
Definition token_prefix : jsstring := Eval vm_compute in js "token ".
Definition main_branch : jsstring := Eval vm_compute in js "main".

(** [`https://api.github.com/repos/${owner}/${repo}/contents/${path}`] *)
Definition contents_url (owner repo path : jsstring) : jsstring :=
  api_base ++ owner ++ 47 :: repo ++ contents_segment ++ path.

Definition emit (e : Event) : M (list Event) unit :=
  fun log => (inr tt, log ++ [e]).

Section WithPlatform.
Context (W : Platform).

(** [await fetch(url + '?ref=main', { headers })]. *)
Definition http_get (owner repo path token : jsstring)
    : M (list Event) GetResponse :=
  let url := contents_url owner repo path ++ ref_main in
  let auth := token_prefix ++ token in
  let* _ := emit (EvGet url auth) in
  lift (fetch_get W url auth).

(** [await fetch(url, { method: 'PUT', headers, body })]. *)
Definition http_put (owner repo path token : jsstring) (body : PutBody)
    : M (list Event) PutResponse :=
  let url := contents_url owner repo path in
  let auth := token_prefix ++ token in
  let* _ := emit (EvPut url auth body) in
  lift (fetch_put W url auth body).

End WithPlatform.

(** [await resp.json()] of a [GET] response. *)
Definition get_resp_json {S} (resp : GetResponse) : M S ContentsData :=
  match get_json resp with
  | Some data => ret data
  | None => throw SyntaxError
  end.

(** [await resp.json()] of a [PUT] response: [None] is [null]. *)
Definition put_resp_json {S} (resp : PutResponse) : M S (option PutJson) :=
  match put_json resp with
  | Some j => ret j
  | None => throw SyntaxError
  end.

(** [await resp.json().catch(() => ({}))]. *)
Definition put_resp_json_or_empty (resp : PutResponse) : option PutJson :=
  default (Some (mkPutJson None None)) (put_json resp).

(** [err.message]: a [TypeError] when [err] is [null]. *)
Definition err_message {S} (err : option PutJson) : M S (option jsstring) :=
  match err with
  | Some j => ret (json_message j)
  | None => throw TypeError
  end.

End Net.

Import Net.

(** ** github-save.js *)

Module GithubSave.

Definition MSG_FETCH_FAILED : jsstring :=
  Eval vm_compute in js "Kunne ikke hente fil: ".
Definition MSG_BAD_TOKEN : jsstring :=
  Eval vm_compute in
    js "Ugyldig eller utløpt token. Oppdater token i innstillinger.".
Definition MSG_CONFLICT : jsstring :=
  Eval vm_compute in js "Konflikt - filen ble endret av andre. Prøv igjen.".
Definition MSG_STALE : jsstring :=
  Eval vm_compute in
    js "Filen ble endret siden sist. Last inn siden på nytt og prøv igjen.".
Definition MSG_API_ERROR : jsstring :=
  Eval vm_compute in js "GitHub API feil: ".
Definition MSG_SAVED : jsstring := Eval vm_compute in js "Lagret til GitHub!".

Record SaveResult : Type := mkSaveResult {
  success : bool;
  commitUrl : jsstring;
  message : jsstring
}.

Section WithPlatform.
Context (W : Platform).

(** [getFileSha] (51-59). *)
Definition getFileSha (owner repo path token : jsstring)
    : M (list Event) (option jsstring) :=
  let* resp := http_get W owner repo path token in
  if get_status resp =? 404 then ret None
  else if negb (status_ok (get_status resp)) then
    throw (Error (MSG_FETCH_FAILED ++ Number_toString (get_status resp)))
  else
    let* data := get_resp_json resp in
    ret (Some (data_sha data)).

(** [saveToGitHub] (61-95). *)
Definition saveToGitHub (owner repo path content message token : jsstring)
    : M (list Event) SaveResult :=
  let* sha := getFileSha owner repo path token in
  let* base64Content := lift (utf8ToBase64 content) in
  let body :=
    {| body_message := message;
       body_content := base64Content;
       body_branch := main_branch;
       body_sha := if truthy sha then sha else None |} in
  let* resp := http_put W owner repo path token body in
  if negb (status_ok (put_status resp)) then
    let err := put_resp_json_or_empty resp in
    if put_status resp =? 401 then throw (Error MSG_BAD_TOKEN)
    else if put_status resp =? 409 then throw (Error MSG_CONFLICT)
    else if put_status resp =? 422 then throw (Error MSG_STALE)
    else
      let* message := err_message err in
      throw (Error (or_string message
                      (MSG_API_ERROR ++ Number_toString (put_status resp))))
  else
    let* result := put_resp_json resp in
    match result with
    | Some result =>
        ret {| success := true;
               commitUrl := default [] (json_commit_html_url result);
               message := MSG_SAVED |}
    | None => throw TypeError
    end.

End WithPlatform.

End GithubSave.

(** ** version-manager.js *)

Module VersionManager.

Definition GITHUB_TOKEN_KEY : jsstring := Eval vm_compute in js "github_pat".
Definition OWNER : jsstring := Eval vm_compute in js "tskjelde-bit".
Definition REPO : jsstring := Eval vm_compute in js "grafer".

Definition MSG_FETCH_FAILED : jsstring :=
  Eval vm_compute in js "Kunne ikke hente fil: ".
Definition MSG_BAD_TOKEN : jsstring :=
  Eval vm_compute in
    js "Ugyldig eller utløpt token. Oppdater token i innstillinger.".
Definition MSG_CONFLICT : jsstring :=
  Eval vm_compute in js "Konflikt – filen ble endret av andre. Prøv igjen.".
Definition MSG_STALE : jsstring :=
  Eval vm_compute in
    js "Filen ble endret siden sist. Last inn siden på nytt og prøv igjen.".
Definition MSG_API_ERROR : jsstring :=
  Eval vm_compute in js "GitHub API feil: ".
Definition MSG_NO_TOKEN_SETUP : jsstring :=
  Eval vm_compute in
    js "Ingen GitHub-token satt. Gå til admin-siden og sett opp token.".
Definition MSG_NO_TOKEN : jsstring :=
  Eval vm_compute in js "Ingen GitHub-token satt.".
Definition MSG_NOT_FOUND : jsstring :=
  Eval vm_compute in js "Versjon ikke funnet: ".
Definition MSG_NEW : jsstring := Eval vm_compute in js "Ny versjon: ".
Definition MSG_UPDATE : jsstring := Eval vm_compute in js "Oppdater versjon: ".
Definition MSG_DELETE : jsstring := Eval vm_compute in js "Slett versjon: ".
Definition CACHE_PREFIX : jsstring := Eval vm_compute in js "versions-cache-".

(** What [getFileFromGitHub] returns for an existing file. *)
Record FileData : Type := mkFileData {
  file_sha : jsstring;
  file_content : jsstring
}.

(** The argument of [VersionManager.init]; [getCurrentConfig] is the
    value the callback returns. *)
Record Config : Type := mkConfig {
  chartType : jsstring;
  versionsPath : jsstring;
  publicUrl : jsstring;
  getCurrentConfig : Json
}.

(** The module-level variables, the browser's [localStorage], the log
    of what was done, and what an update has put on [Object.prototype]:
    its [config] and its [updatedAt], [None] while it has neither. An
    object used as a map is the finite map of its own properties; what
    it inherits is found by [Object_get] and is no key of it. *)
Record State : Type := mkState {
  _config : Config;
  _versions : gmap jsstring VersionRecord;
  _sha : option jsstring;
  localStorage : gmap jsstring jsstring;
  events : list Event;
  Object_prototype : option (Json * jsstring)
}.

Definition set_versions (v : gmap jsstring VersionRecord) (s : State) : State :=
  mkState (_config s) v (_sha s) (localStorage s) (events s) (Object_prototype s).
Definition set_sha (v : option jsstring) (s : State) : State :=
  mkState (_config s) (_versions s) v (localStorage s) (events s)
    (Object_prototype s).
Definition set_localStorage (v : gmap jsstring jsstring) (s : State) : State :=
  mkState (_config s) (_versions s) (_sha s) v (events s) (Object_prototype s).
Definition set_events (v : list Event) (s : State) : State :=
  mkState (_config s) (_versions s) (_sha s) (localStorage s) v
    (Object_prototype s).
Definition set_Object_prototype (v : option (Json * jsstring)) (s : State)
    : State :=
  mkState (_config s) (_versions s) (_sha s) (localStorage s) (events s) v.

(** *** Property lookup

    [_versions[id]] looks at the mapping first and then at
    [Object.prototype], from which every mapping inherits. *)

(** What a lookup finds: a record of the mapping itself, a function
    inherited from [Object.prototype] (given by its [name]),
    [Object.prototype] itself (through [__proto__]), or a value that an
    update has left on [Object.prototype]. *)
Inductive Property : Type :=
| Own (v : VersionRecord)
| Builtin (name : jsstring)
| Prototype
| Leftover (value : Json).

Definition KEY_PROTO : jsstring := Eval vm_compute in js "__proto__".
Definition KEY_CONSTRUCTOR : jsstring := Eval vm_compute in js "constructor".
Definition KEY_CONFIG : jsstring := Eval vm_compute in js "config".
Definition KEY_UPDATED_AT : jsstring := Eval vm_compute in js "updatedAt".
Definition KEY_NAME : jsstring := Eval vm_compute in js "name".
Definition NAME_OBJECT : jsstring := Eval vm_compute in js "Object".

(** The functions of [Object.prototype] (ECMA-262, 20.1.3 and B.2.2)
    other than [constructor]; the [name] of each is its key. *)
Definition Object_prototype_methods : list jsstring :=
  Eval vm_compute in
    map js ["hasOwnProperty"; "isPrototypeOf"; "propertyIsEnumerable";
            "toLocaleString"; "toString"; "valueOf"; "__defineGetter__";
            "__defineSetter__"; "__lookupGetter__"; "__lookupSetter__"]%string.

Definition Object_get (proto : option (Json * jsstring))
    (obj : gmap jsstring VersionRecord) (key : jsstring) : option Property :=
  match obj !! key with
  | Some v => Some (Own v)
  | None =>
      if bool_decide (key = KEY_PROTO) then Some Prototype
      else if bool_decide (key = KEY_CONSTRUCTOR) then Some (Builtin NAME_OBJECT)
      else if bool_decide (key ∈ Object_prototype_methods) then Some (Builtin key)
      else
        match proto with
        | Some (config, updatedAt) =>
            if bool_decide (key = KEY_CONFIG) then Some (Leftover config)
            else if bool_decide (key = KEY_UPDATED_AT)
            then Some (Leftover (JString updatedAt))
            else None
        | None => None
        end
  end.

(** Truthiness of what a lookup gives ([None] is [undefined]). *)
Definition found (p : option Property) : bool :=
  match p with
  | Some (Leftover j) => Json_truthy j
  | Some _ => true
  | None => false
  end.

(** [p.name]. *)
Definition Property_name (p : Property) : option Json :=
  match p with
  | Own v => Some (JString (Version.name v))
  | Builtin name => Some (JString name)
  | Prototype => None
  | Leftover j => Json_get KEY_NAME j
  end.

(** [p?.name || id]. *)
Definition name_or (p : option Property) (id : jsstring) : jsstring :=
  match p with
  | Some target =>
      match Property_name target with
      | Some j => if Json_truthy j then Json_toString j else id
      | None => id
      end
  | None => id
  end.

(** A record as the scripts read it: for an [updatedAt] it does not
    have, the one of [Object.prototype]. *)
Definition as_read (proto : option (Json * jsstring)) (v : VersionRecord)
    : VersionRecord :=
  match proto, Version.updatedAt v with
  | Some (_, updatedAt), None =>
      {| Version.name := Version.name v;
         Version.id := Version.id v;
         Version.createdAt := Version.createdAt v;
         Version.updatedAt := Some updatedAt;
         Version.config := Version.config v |}
  | _, _ => v
  end.

(** A free function of the script, run inside the module. *)
Definition net {A} (m : M (list Event) A) : M State A :=
  zoom events set_events m.

(** [Object.keys(obj)]. *)
Definition Object_keys {V} (obj : gmap jsstring V) : list jsstring :=
  (map_to_list obj).*1.

(** [`${label}${name} (${chartType})`], the commit messages. *)
Definition commit_message (label name chart : jsstring) : jsstring :=
  label ++ name ++ [32; 40] ++ chart ++ [41].

Section WithPlatform.
Context (W : Platform).

(** [getToken] (15-17). *)
Definition getToken : M State jsstring :=
  gets (fun s => or_string (localStorage s !! GITHUB_TOKEN_KEY) []).

(** [getFileFromGitHub] (58-69). *)
Definition getFileFromGitHub (path token : jsstring)
    : M (list Event) (option FileData) :=
  let* resp := http_get W OWNER REPO path token in
  if get_status resp =? 404 then ret None
  else if negb (status_ok (get_status resp)) then
    throw (Error (MSG_FETCH_FAILED ++ Number_toString (get_status resp)))
  else
    let* data := get_resp_json resp in
    let* content := lift (base64ToUtf8 (data_content data)) in
    ret (Some {| file_sha := data_sha data; file_content := content |}).

(** [saveFileToGitHub] (71-97). *)
Definition saveFileToGitHub (path content message token : jsstring)
    (sha : option jsstring) : M (list Event) (option PutJson) :=
  let* base64Content := lift (utf8ToBase64 content) in
  let body :=
    {| body_message := message;
       body_content := base64Content;
       body_branch := main_branch;
       body_sha := if truthy sha then sha else None |} in
  let* resp := http_put W OWNER REPO path token body in
  if negb (status_ok (put_status resp)) then
    let err := put_resp_json_or_empty resp in
    if put_status resp =? 401 then throw (Error MSG_BAD_TOKEN)
    else if put_status resp =? 409 then throw (Error MSG_CONFLICT)
    else if put_status resp =? 422 then throw (Error MSG_STALE)
    else
      let* message := err_message err in
      throw (Error (or_string message
                      (MSG_API_ERROR ++ Number_toString (put_status resp))))
  else put_resp_json resp.

(** [_getLatestFromGitHub] (145-155). *)
Definition _getLatestFromGitHub (token : jsstring) : M State unit :=
  let* cfg := gets _config in
  let* file := net (getFileFromGitHub (versionsPath cfg) token) in
  match file with
  | Some f =>
      let* data := lift (from_option inr (inl SyntaxError)
                           (JSON_parse W (file_content f))) in
      let* _ := modify (set_versions (default ∅ (versions data))) in
      modify (set_sha (Some (file_sha f)))
  | None =>
      let* _ := modify (set_versions ∅) in
      modify (set_sha None)
  end.

(** [new Date(v)] as a time value; [new Date(undefined)] is invalid. *)
Definition Date_getTime (v : option jsstring) : option Z :=
  match v with
  | Some s => Date_parse W s
  | None => None
  end.

(** [new Date(v.updatedAt || v.createdAt)]. *)
Definition recency (v : VersionRecord) : option Z :=
  Date_getTime (or_else (Version.updatedAt v) (Version.createdAt v)).

(** The comparator of line 359: the difference of two dates, [None]
    (NaN) when one of them is invalid. *)
Definition compareFn (a b : VersionRecord) : option Z :=
  match recency b, recency a with
  | Some tb, Some ta => Some (tb - ta)
  | _, _ => None
  end.

(** [a] may stay before [b]: the comparator is not positive, NaN
    counting as zero (ECMA-262, SortCompare). *)
Definition sorts_before (a b : VersionRecord) : Prop :=
  default 0 (compareFn a b) <= 0.

Global Instance sorts_before_dec a b : Decision (sorts_before a b).
Proof. unfold sorts_before. apply _. Defined.

(** [arr.sort(compareFn)]: a stable merge sort. ECMA-262 fixes the
    result of a sort for a consistent comparator, which [compareFn] is
    when every date is valid; it is then the one any stable sort gives. *)
Definition Array_sort (l : list VersionRecord) : list VersionRecord :=
  merge_sort sorts_before l.

(** The [sorted] of [_renderList] (350-359). *)
Definition sorted_by_recency (vs : gmap jsstring VersionRecord)
    : list VersionRecord :=
  let ids := Object_keys vs in
  Array_sort (omap (fun id => vs !! id) ids).

(** [_renderList] (346-462), as far as the listing goes: the records
    as they are read, in the order they are shown. *)
Definition _renderList : M State unit :=
  let* vs := gets _versions in
  let* proto := gets Object_prototype in
  net (emit (EvRenderList (sorted_by_recency (as_read proto <$> vs)))).

(** [localStorage.setItem(key, value)]. *)
Definition localStorage_setItem (key value : jsstring) : M State unit :=
  let* _ := modify (fun s => set_localStorage (<[key := value]> (localStorage s)) s) in
  net (emit (EvSetItem key value)).

(** [saveVersion] (170-202). *)
Definition saveVersion (name : jsstring) : M State jsstring :=
  let* token := getToken in
  if negb (truthy (Some token)) then throw (Error MSG_NO_TOKEN_SETUP)
  else
    let* _ := _getLatestFromGitHub token in
    let* cfg := gets _config in
    let* vs := gets _versions in
    let slug := uniqueSlug (slugify name) (Object_keys vs) in
    let now := Date_now_toISOString W in
    let* _ := modify (set_versions
                        (<[slug := {| Version.name := name;
                                      Version.id := slug;
                                      Version.createdAt := Some now;
                                      Version.updatedAt := Some now;
                                      Version.config := getCurrentConfig cfg |}]> vs)) in
    let* vs := gets _versions in
    let* sha := gets _sha in
    let fileContent := JSON_stringify_file W vs in
    let* _ := net (saveFileToGitHub (versionsPath cfg) fileContent
                     (commit_message MSG_NEW name (chartType cfg)) token sha) in
    let* _ := localStorage_setItem (CACHE_PREFIX ++ chartType cfg)
                (JSON_stringify W vs) in
    let* _ := _renderList in
    ret slug.

(** The two assignments of lines 212-213 to what [_versions[id]] is.
    On a record they set its settings and its date. On
    [Object.prototype] they create the two properties that every object
    then inherits. On a built-in function, or on an object left on
    [Object.prototype], they create properties that are read nowhere. On
    a string, a number or a boolean the first one throws, the script
    being in strict mode. *)
Definition assign_config_and_date (id : jsstring) (target : option Property)
    : M State unit :=
  let* cfg := gets _config in
  let config := getCurrentConfig cfg in
  let now := Date_now_toISOString W in
  match target with
  | Some (Own v) =>
      let v' := {| Version.name := Version.name v;
                   Version.id := Version.id v;
                   Version.createdAt := Version.createdAt v;
                   Version.updatedAt := Some now;
                   Version.config := config |} in
      modify (fun s => set_versions (<[id := v']> (_versions s)) s)
  | Some Prototype => modify (set_Object_prototype (Some (config, now)))
  | Some (Builtin _) => ret tt
  | Some (Leftover j) => if Json_is_object j then ret tt else throw TypeError
  | None => throw TypeError
  end.

(** [updateVersion] (204-226). *)
Definition updateVersion (id : jsstring) : M State unit :=
  let* token := getToken in
  if negb (truthy (Some token)) then throw (Error MSG_NO_TOKEN)
  else
    let* _ := _getLatestFromGitHub token in
    let* cfg := gets _config in
    let* vs := gets _versions in
    let* proto := gets Object_prototype in
    let target := Object_get proto vs id in
    if negb (found target) then throw (Error (MSG_NOT_FOUND ++ id))
    else
      let* _ := assign_config_and_date id target in
      let* vs := gets _versions in
      let* sha := gets _sha in
      let fileContent := JSON_stringify_file W vs in
      let* _ := net (saveFileToGitHub (versionsPath cfg) fileContent
                       (commit_message MSG_UPDATE
                          (template (target ≫= Property_name))
                          (chartType cfg)) token sha) in
      let* _ := localStorage_setItem (CACHE_PREFIX ++ chartType cfg)
                  (JSON_stringify W vs) in
      _renderList.

(** [deleteVersion] (228-248). *)
Definition deleteVersion (id : jsstring) : M State unit :=
  let* token := getToken in
  if negb (truthy (Some token)) then throw (Error MSG_NO_TOKEN)
  else
    let* _ := _getLatestFromGitHub token in
    let* cfg := gets _config in
    let* vs := gets _versions in
    let* proto := gets Object_prototype in
    let name := name_or (Object_get proto vs id) id in
    let* _ := modify (set_versions (delete id vs)) in
    let* vs := gets _versions in
    let* sha := gets _sha in
    let fileContent := JSON_stringify_file W vs in
    let* _ := net (saveFileToGitHub (versionsPath cfg) fileContent
                     (commit_message MSG_DELETE name (chartType cfg)) token sha) in
    let* _ := localStorage_setItem (CACHE_PREFIX ++ chartType cfg)
                (JSON_stringify W vs) in
    _renderList.

(** *** Notions used to state the properties of the module *)

Definition get_url (cfg : Config) : jsstring :=
  contents_url OWNER REPO (versionsPath cfg) ++ ref_main.
Definition put_url (cfg : Config) : jsstring :=
  contents_url OWNER REPO (versionsPath cfg).
Definition authorization (token : jsstring) : jsstring := token_prefix ++ token.

(** The token [getToken] finds in a state. *)
Definition stored_token (s : State) : jsstring :=
  or_string (localStorage s !! GITHUB_TOKEN_KEY) [].

(** The remote state a fetch yields: the mapping of the store file and
    its version tag; the empty mapping and no tag when the file does not
    exist. *)
Definition remote_state (cfg : Config) (token : jsstring)
    : Result (gmap jsstring VersionRecord * option jsstring) :=
  match fetch_get W (get_url cfg) (authorization token) with
  | inl e => inl e
  | inr resp =>
      if get_status resp =? 404 then inr (∅, None)
      else if negb (status_ok (get_status resp)) then
        inl (Error (MSG_FETCH_FAILED ++ Number_toString (get_status resp)))
      else
        match get_json resp with
        | None => inl SyntaxError
        | Some data =>
            match base64ToUtf8 (data_content data) with
            | inl e => inl e
            | inr text =>
                match JSON_parse W text with
                | None => inl SyntaxError
                | Some file =>
                    inr (default ∅ (versions file), Some (data_sha data))
                end
            end
        end
  end.

(** The three mutating operations. *)
Inductive Mutation : Type :=
| Save (name : jsstring)
| Update (id : jsstring)
| Delete (id : jsstring).

Definition run_mutation (mu : Mutation) : M State unit :=
  match mu with
  | Save name => let* _ := saveVersion name in ret tt
  | Update id => updateVersion id
  | Delete id => deleteVersion id
  end.

(** What a mutation makes of the mapping fetched and of what
    [Object.prototype] holds, or the error it throws instead: an update
    throws when [_versions[id]] is missing or falsy, and when it is a
    string, a number or a boolean. *)
Definition mutated (cfg : Config) (proto : option (Json * jsstring))
    (mu : Mutation) (m : gmap jsstring VersionRecord)
    : Result (gmap jsstring VersionRecord * option (Json * jsstring)) :=
  match mu with
  | Save name =>
      let slug := uniqueSlug (slugify name) (Object_keys m) in
      inr (<[slug := Version.mkVersionRecord name slug
                       (Some (Date_now_toISOString W))
                       (Some (Date_now_toISOString W))
                       (getCurrentConfig cfg)]> m, proto)
  | Update id =>
      let target := Object_get proto m id in
      if negb (found target) then inl (Error (MSG_NOT_FOUND ++ id))
      else
        match target with
        | Some (Own v) =>
            inr (<[id := Version.mkVersionRecord
                            (Version.name v) (Version.id v) (Version.createdAt v)
                            (Some (Date_now_toISOString W))
                            (getCurrentConfig cfg)]> m, proto)
        | Some Prototype =>
            inr (m, Some (getCurrentConfig cfg, Date_now_toISOString W))
        | Some (Builtin _) => inr (m, proto)
        | Some (Leftover j) =>
            if Json_is_object j then inr (m, proto) else inl TypeError
        | None => inl TypeError
        end
  | Delete id => inr (delete id m, proto)
  end.

(** The commit message of a mutation. *)
Definition message_of (cfg : Config) (proto : option (Json * jsstring))
    (mu : Mutation) (m : gmap jsstring VersionRecord) : jsstring :=
  match mu with
  | Save name => commit_message MSG_NEW name (chartType cfg)
  | Update id =>
      commit_message MSG_UPDATE (template (Object_get proto m id ≫= Property_name))
        (chartType cfg)
  | Delete id =>
      commit_message MSG_DELETE (name_or (Object_get proto m id) id)
        (chartType cfg)
  end.

Definition no_token_error (mu : Mutation) : Exn :=
  match mu with
  | Save _ => Error MSG_NO_TOKEN_SETUP
  | _ => Error MSG_NO_TOKEN
  end.

Definition is_network_event (e : Event) : bool :=
  match e with
  | EvGet _ _ | EvPut _ _ _ => true
  | _ => false
  end.

(** The request body of a write. *)
Definition put_body (base64Content message : jsstring) (sha : option jsstring)
    : PutBody :=
  {| body_message := message;
     body_content := base64Content;
     body_branch := main_branch;
     body_sha := if truthy sha then sha else None |}.

(** What a write returns for a given answer of the network. *)
Definition put_outcome (answer : Result PutResponse)
    : Result (option PutJson) :=
  match answer with
  | inl e => inl e
  | inr resp =>
      if negb (status_ok (put_status resp)) then
        if put_status resp =? 401 then inl (Error MSG_BAD_TOKEN)
        else if put_status resp =? 409 then inl (Error MSG_CONFLICT)
        else if put_status resp =? 422 then inl (Error MSG_STALE)
        else
          match put_resp_json_or_empty resp with
          | Some err =>
              inl (Error (or_string (json_message err)
                            (MSG_API_ERROR ++ Number_toString (put_status resp))))
          | None => inl TypeError
          end
      else
        match put_json resp with
        | Some j => inr j
        | None => inl SyntaxError
        end
  end.

(** The write of [content] is answered with a success. *)
Definition write_accepted (cfg : Config) (token content message : jsstring)
    (tag : option jsstring) : Prop :=
  exists b64 resp j,
    utf8ToBase64 content = inr b64 /\
    fetch_put W (put_url cfg) (authorization token) (put_body b64 message tag)
      = inr resp /\
    status_ok (put_status resp) = true /\
    put_json resp = Some j.

(** The run of a mutating operation, step by step. *)
Definition mutation_outcome (mu : Mutation) (s : State)
    : Result unit * State :=
  let cfg := _config s in
  let token := stored_token s in
  let proto := Object_prototype s in
  if negb (truthy (Some token)) then (inl (no_token_error mu), s)
  else
    let log1 := events s ++ [EvGet (get_url cfg) (authorization token)] in
    match remote_state cfg token with
    | inl e =>
        (inl e, mkState cfg (_versions s) (_sha s) (localStorage s) log1 proto)
    | inr (m, tag) =>
        match mutated cfg proto mu m with
        | inl e => (inl e, mkState cfg m tag (localStorage s) log1 proto)
        | inr (m', proto') =>
            match utf8ToBase64 (JSON_stringify_file W m') with
            | inl e => (inl e, mkState cfg m' tag (localStorage s) log1 proto')
            | inr b64 =>
                let body := put_body b64 (message_of cfg proto mu m) tag in
                let log2 :=
                  log1 ++ [EvPut (put_url cfg) (authorization token) body] in
                match put_outcome
                        (fetch_put W (put_url cfg) (authorization token) body)
                with
                | inl e =>
                    (inl e, mkState cfg m' tag (localStorage s) log2 proto')
                | inr _ =>
                    let key := CACHE_PREFIX ++ chartType cfg in
                    let value := JSON_stringify W m' in
                    (inr tt,
                     mkState cfg m' tag (<[key := value]> (localStorage s))
                       ((log2 ++ [EvSetItem key value])
                          ++ [EvRenderList
                                (sorted_by_recency (as_read proto' <$> m'))])
                       proto')
                end
            end
        end
    end.

(** [a] is listed before [b] rightly: both dates are valid and [b] is
    not the more recent. *)
Definition no_later_than (a b : VersionRecord) : Prop :=
  exists ta tb, recency a = Some ta /\ recency b = Some tb /\ tb <= ta.

End WithPlatform.

End VersionManager.


(** ** The embed resizer

    The page as the resizer sees it: the [.grafer-embed] containers in
    document order, each with its [data-src] attribute and the iframes
    inside it. A window is identified by a number; [next_window] is the
    window the next iframe created will get. [style_height] is the value
    last assigned to [iframe.style.height]. *)

Record Iframe : Type := mkIframe {
  iframe_src : jsstring;
  contentWindow : Z;
  style_height : jsstring
}.

Record Container : Type := mkContainer {
  dataset_src : option jsstring;
  container_iframes : list Iframe
}.

Record Page : Type := mkPage {
  containers : list Container;
  next_window : Z
}.

(** [e.data] of a message, when it is an object: its [type] and its
    [height], a number. *)
Record MessageData : Type := mkMessageData {
  data_type : jsstring;
  data_height : PrimFloat.float
}.

(** A [message] event: [data] is [None] when [e.data] is falsy, [source]
    is [None] when [e.source] is [null]. *)
Record MessageEvent : Type := mkMessageEvent {
  data : option MessageData;
  source : option Z
}.

Definition GRAFER_RESIZE : jsstring := Eval vm_compute in js "grafer-resize".
Definition PX : jsstring := Eval vm_compute in js "px".

(** [document.querySelectorAll('.grafer-embed iframe')]. *)
Definition embed_iframes (p : Page) : list Iframe :=
  flat_map container_iframes (containers p).

(** [container.appendChild(iframe)]. *)
Definition appendChild (c : Container) (f : Iframe) : Container :=
  mkContainer (dataset_src c) (container_iframes c ++ [f]).

(** [iframe.style.height = h] on every iframe of the page that satisfies
    [test]. *)
Definition set_height_where (test : Iframe -> bool) (h : jsstring) (p : Page)
    : Page :=
  mkPage
    (map (fun c =>
            mkContainer (dataset_src c)
              (map (fun f => if test f
                             then mkIframe (iframe_src f) (contentWindow f) h
                             else f)
                 (container_iframes c)))
       (containers p))
    (next_window p).

(** An iframe after a resize to [h] addressed to window [w]. *)
Definition resize_to (w : Z) (h : jsstring) (f : Iframe) : Iframe :=
  if bool_decide (contentWindow f = w)
  then mkIframe (iframe_src f) (contentWindow f) h
  else f.

(** [c'] is [c] after the script was evaluated: [c] itself when it has
    no [data-src], else [c] with one more iframe, of height [h], showing
    the [data-src]. *)
Definition container_loaded (h : jsstring) (c c' : Container) : Prop :=
  (truthy (dataset_src c) = false /\ c' = c) \/
  (truthy (dataset_src c) = true /\
   exists w, c' = appendChild c (mkIframe (default [] (dataset_src c)) w h)).

(** src/embed.js *)
Module Embed.

Definition INITIAL_HEIGHT : jsstring := Eval vm_compute in js "600px".

(** The [containers.forEach] of lines 5-22, one container at a time:
    the containers already visited and the next free window are carried
    along. *)
Definition create_iframe (acc : list Container * Z) (container : Container)
    : list Container * Z :=
  let '(done, w) := acc in
  if truthy (dataset_src container) then
    let iframe := mkIframe (default [] (dataset_src container)) w INITIAL_HEIGHT in
    (done ++ [appendChild container iframe], w + 1)
  else (done ++ [container], w).

(** Evaluation of the script up to the registration of the listener. *)
Definition load (p : Page) : Page :=
  let '(cs, w) := fold_left create_iframe (containers p) ([], next_window p) in
  mkPage cs w.

(** The listener of lines 25-35. *)
Definition on_message (e : MessageEvent) (p : Page) : Page :=
  match data e with
  | Some d =>
      if bool_decide (data_type d = GRAFER_RESIZE) then
        set_height_where
          (fun iframe => bool_decide (Some (contentWindow iframe) = source e))
          (Number.toString (PrimFloat.add (data_height d) (Number.of_Z 5)) ++ PX)
          p
      else p
  | None => p
  end.

End Embed.

(** The second deployed copy of the resizer (src/unnamed/part_000). *)
Module EmbedCopy.

Definition INITIAL_HEIGHT : jsstring := Eval vm_compute in js "400px".

(** Lines 5-25. The [_container] back reference set on line 24 is read
    nowhere. *)
Definition create_iframe (acc : list Container * Z) (container : Container)
    : list Container * Z :=
  let '(done, w) := acc in
  if truthy (dataset_src container) then
    let iframe := mkIframe (default [] (dataset_src container)) w INITIAL_HEIGHT in
    (done ++ [appendChild container iframe], w + 1)
  else (done ++ [container], w).

Definition load (p : Page) : Page :=
  let '(cs, w) := fold_left create_iframe (containers p) ([], next_window p) in
  mkPage cs w.

(** The listener of lines 28-37. *)
Definition on_message (e : MessageEvent) (p : Page) : Page :=
  match data e with
  | Some d =>
      if bool_decide (data_type d = GRAFER_RESIZE) then
        set_height_where
          (fun iframe => bool_decide (Some (contentWindow iframe) = source e))
          (Number.toString (data_height d) ++ PX) p
      else p
  | None => p
  end.

End EmbedCopy.


(** ** Concrete worlds

    Small worlds on which the statements below are tried. *)

Module World.

Import VersionManager.

Definition config : Config :=
  {| chartType := js "linje";
     versionsPath := js "linje/versions.json";
     publicUrl := js "linje/";
     getCurrentConfig := JObject [] |}.

(** A network that gives every read one answer and every write
    another. *)
Definition answering (get : Result GetResponse) (put : Result PutResponse)
    : Platform :=
  {| fetch_get := fun _ _ => get;
     fetch_put := fun _ _ _ => put;
     Date_now_toISOString := js "2026-01-15T10:30:00.000Z";
     Date_parse := fun _ => None;
     JSON_parse := fun _ => None;
     JSON_stringify_file := fun _ => js "{}";
     JSON_stringify := fun _ => js "{}" |}.

Definition created : PutResponse :=
  mkPutResponse 201
    (Some (Some (mkPutJson None
                   (Some (js "https://github.com/tskjelde-bit/grafer/commit/0"))))).

(** The store file does not exist yet and writes are accepted. *)
Definition fresh : Platform :=
  answering (inr (mkGetResponse 404 None)) (inr created).

(** Reads are refused for want of a valid credential. *)
Definition unauthorized : Platform :=
  answering (inr (mkGetResponse 401 None)) (inl TypeError).


(** A stand-in for [Date.parse] that reads the four digits of the year
    of an ISO date. *)
Definition year_of (date : jsstring) : option Z :=
  match date with
  | a :: b :: c :: d :: _ =>
      Some ((a - 48) * 1000 + (b - 48) * 100 + (c - 48) * 10 + (d - 48))
  | _ => None
  end.

Definition dated : Platform :=
  {| fetch_get := fun _ _ => inr (mkGetResponse 404 None);
     fetch_put := fun _ _ _ => inr created;
     Date_now_toISOString := js "2026-01-15T10:30:00.000Z";
     Date_parse := year_of;
     JSON_parse := fun _ => None;
     JSON_stringify_file := fun _ => js "{}";
     JSON_stringify := fun _ => js "{}" |}.

Definition version_a : VersionRecord :=
  Version.mkVersionRecord (js "X") (js "a") (Some (js "2024-03-01T08:00:00.000Z"))
    (Some (js "2025-03-01T08:00:00.000Z")) (JObject []).

Definition version_b : VersionRecord :=
  Version.mkVersionRecord (js "Y") (js "b") (Some (js "2024-05-01T08:00:00.000Z"))
    (Some (js "2026-01-10T08:00:00.000Z")) (JObject []).

(** A store file edited by hand: of its four records, in the order of
    the file, the first was updated in 2025, the second has a date that
    is none, the third has no date at all and the fourth was updated in
    2026. *)
Definition version_host : VersionRecord :=
  Version.mkVersionRecord (js "Host") (js "host")
    (Some (js "2024-03-01T08:00:00.000Z")) (Some (js "2025-03-01T08:00:00.000Z"))
    (JObject []).

Definition version_utkast : VersionRecord :=
  Version.mkVersionRecord (js "Utkast") (js "utkast")
    (Some (js "2024-04-01T08:00:00.000Z")) (Some (js "n/a")) (JObject []).

Definition version_vinter : VersionRecord :=
  Version.mkVersionRecord (js "Vinter") (js "vinter") None None (JObject []).

Definition version_sommer : VersionRecord :=
  Version.mkVersionRecord (js "Sommer") (js "sommer")
    (Some (js "2024-05-01T08:00:00.000Z")) (Some (js "2026-01-10T08:00:00.000Z"))
    (JObject []).

Definition edited_by_hand : gmap jsstring VersionRecord :=
  <[js "host" := version_host]>
    (<[js "utkast" := version_utkast]>
       (<[js "vinter" := version_vinter]> {[ js "sommer" := version_sommer ]})).

Definition with_token : State :=
  mkState config ∅ None {[ GITHUB_TOKEN_KEY := js "ghp_example" ]} [] None.

Definition without_token : State := mkState config ∅ None ∅ [] None.

End World.


(** * More of the scripts

    The functions of the three files that the sections above leave out:
    the token functions and the click handlers of github-save.js, and the
    URLs, the load path and the click handlers of version-manager.js. *)

(** [String.prototype.trim]: the white space and line terminators of
    ECMA-262 are removed at both ends. *)
Definition is_white_space (u : Z) : bool :=
  ((9 <=? u) && (u <=? 13)) || (u =? 32) || (u =? 0xA0) || (u =? 0x1680)
  || ((0x2000 <=? u) && (u <=? 0x200A)) || (u =? 0x2028) || (u =? 0x2029)
  || (u =? 0x202F) || (u =? 0x205F) || (u =? 0x3000) || (u =? 0xFEFF).

Fixpoint trimStart (s : jsstring) : jsstring :=
  match s with
  | u :: t => if is_white_space u then trimStart t else s
  | [] => []
  end.

Definition trimEnd (s : jsstring) : jsstring := rev (trimStart (rev s)).

Definition trim (s : jsstring) : jsstring := trimEnd (trimStart s).

(** [try { m } catch (e) { h(e) }] and [try { m } finally { f }]. *)
Definition try_catch {S A} (m : M S A) (h : Exn -> M S A) : M S A :=
  fun s =>
    match m s with
    | (inl e, s') => h e s'
    | (inr a, s') => (inr a, s')
    end.

Definition try_finally {S A} (m : M S A) (f : M S unit) : M S A :=
  fun s =>
    let '(r, s') := m s in
    match f s' with
    | (inr _, s'') => (r, s'')
    | (inl e, s'') => (inl e, s'')
    end.

(** [e.message]: the message of an [Error], and for the exceptions the
    platform raises a text of the platform's own. *)
Definition Exn_message (native_message : Exn -> jsstring) (e : Exn) : jsstring :=
  match e with
  | Error message => message
  | _ => native_message e
  end.

(** A double quote, for the markup the scripts write. *)
Definition quote : Z := 34.

Module GithubSaveUi.

Import GithubSave.

Definition GITHUB_TOKEN_KEY : jsstring := Eval vm_compute in js "github_pat".
Definition USER_URL : jsstring := Eval vm_compute in js "https://api.github.com/user".
Definition MSG_INVALID_TOKEN : jsstring := Eval vm_compute in js "Ugyldig token".
Definition STARS : jsstring := Eval vm_compute in js "****".

(** [getToken] (25-27), [setToken] (29-31) and [deleteToken] (33-35) on
    the browser's [localStorage]. *)
Definition getToken (localStorage : gmap jsstring jsstring) : jsstring :=
  or_string (localStorage !! GITHUB_TOKEN_KEY) [].

Definition setToken (token : jsstring) (localStorage : gmap jsstring jsstring)
    : gmap jsstring jsstring :=
  <[GITHUB_TOKEN_KEY := trim token]> localStorage.

Definition deleteToken (localStorage : gmap jsstring jsstring)
    : gmap jsstring jsstring :=
  delete GITHUB_TOKEN_KEY localStorage.

(** [maskToken] (37-40): [token.slice(0, 4) + '****' + token.slice(-4)]. *)
Definition maskToken (token : jsstring) : jsstring :=
  if negb (truthy (Some token)) || (length token <? 8)%nat then []
  else take 4 token ++ STARS ++ drop (length token - 4) token.

(** What [verifyToken] reads of the answer to [GET /user]. *)
Record UserData : Type := mkUserData {
  login : jsstring
}.

Record UserResponse : Type := mkUserResponse {
  user_status : Z;
  user_json : option UserData
}.

(** [<span style="color: c;">text</span>], the markup of the token
    status line. *)
Definition SPAN_OPEN : jsstring :=
  Eval vm_compute in js "<span style=" ++ quote :: js "color: ".
Definition SPAN_MIDDLE : jsstring := Eval vm_compute in js ";" ++ quote :: js ">".
Definition SPAN_CLOSE : jsstring := Eval vm_compute in js "</span>".

Definition span (color text : jsstring) : jsstring :=
  SPAN_OPEN ++ color ++ SPAN_MIDDLE ++ text ++ SPAN_CLOSE.

Definition RED : jsstring := Eval vm_compute in js "#ef4444".
Definition BLUE : jsstring := Eval vm_compute in js "#60a5fa".
Definition GREEN : jsstring := Eval vm_compute in js "#10b981".
Definition ORANGE : jsstring := Eval vm_compute in js "#f59e0b".

Definition MSG_ENTER_TOKEN : jsstring := Eval vm_compute in js "Skriv inn en token".
Definition MSG_VERIFYING : jsstring := Eval vm_compute in js "Verifiserer...".
Definition MSG_TOKEN_STORED : jsstring :=
  Eval vm_compute in js "Token lagret for bruker: ".
Definition MSG_TOKEN_DELETED : jsstring := Eval vm_compute in js "Token slettet".
Definition MSG_SET_UP_TOKEN : jsstring :=
  Eval vm_compute in js "Sett opp GitHub-token i innstillinger øverst på siden.".
Definition MSG_NO_DATA : jsstring :=
  Eval vm_compute in js "Ingen data å lagre. Last opp og prosesser data først.".
Definition MSG_SAVING : jsstring := Eval vm_compute in js "Lagrer til GitHub...".
Definition MSG_FAILED : jsstring := Eval vm_compute in js "Feil: ".
Definition STATUS_ERROR : jsstring := Eval vm_compute in js "status show error".
Definition STATUS_INFO : jsstring := Eval vm_compute in js "status show info".
Definition STATUS_SUCCESS : jsstring := Eval vm_compute in js "status show success".

(** The page of an admin script: [localStorage], the token input and
    status line of the settings panel, the status element handed to
    [initGitHubSave] ([None] when there is none) with its content and
    class, the save button, whether the settings panel was scrolled into
    view, and the log of requests. *)
Record Page : Type := mkPage {
  localStorage : gmap jsstring jsstring;
  tokenInput_value : jsstring;
  tokenStatus_innerHTML : jsstring;
  statusElement : option (jsstring * jsstring);
  githubSaveBtn_disabled : bool;
  settings_scrolled : bool;
  events : list Event
}.

Definition set_localStorage (v : gmap jsstring jsstring) (p : Page) : Page :=
  mkPage v (tokenInput_value p) (tokenStatus_innerHTML p) (statusElement p)
    (githubSaveBtn_disabled p) (settings_scrolled p) (events p).
Definition set_tokenInput (v : jsstring) (p : Page) : Page :=
  mkPage (localStorage p) v (tokenStatus_innerHTML p) (statusElement p)
    (githubSaveBtn_disabled p) (settings_scrolled p) (events p).
Definition set_tokenStatus (v : jsstring) (p : Page) : Page :=
  mkPage (localStorage p) (tokenInput_value p) v (statusElement p)
    (githubSaveBtn_disabled p) (settings_scrolled p) (events p).
(** [if (statusElement) { statusElement.textContent = ...; className = ... }] *)
Definition set_status (content className : jsstring) (p : Page) : Page :=
  mkPage (localStorage p) (tokenInput_value p) (tokenStatus_innerHTML p)
    (match statusElement p with
     | Some _ => Some (content, className)
     | None => None
     end)
    (githubSaveBtn_disabled p) (settings_scrolled p) (events p).
Definition set_disabled (v : bool) (p : Page) : Page :=
  mkPage (localStorage p) (tokenInput_value p) (tokenStatus_innerHTML p)
    (statusElement p) v (settings_scrolled p) (events p).
Definition set_scrolled (p : Page) : Page :=
  mkPage (localStorage p) (tokenInput_value p) (tokenStatus_innerHTML p)
    (statusElement p) (githubSaveBtn_disabled p) true (events p).
Definition set_events (v : list Event) (p : Page) : Page :=
  mkPage (localStorage p) (tokenInput_value p) (tokenStatus_innerHTML p)
    (statusElement p) (githubSaveBtn_disabled p) (settings_scrolled p) v.

(** The argument of [initGitHubSave]; [getCSVContent] is the value the
    callback returns ([None] for [null] or [undefined]), [statusElement]
    is kept in the page. *)
Record SaveConfig : Type := mkSaveConfig {
  owner : jsstring;
  repo : jsstring;
  filePath : jsstring;
  getCSVContent : option jsstring;
  commitMessagePrefix : jsstring
}.

(** [s.split(sep)] for a separator of one character. *)
Definition String_split (sep : Z) (s : jsstring) : list jsstring :=
  split_on (fun u => u =? sep) s.

(** The markup of the success message (221). *)
Definition LINK_OPEN : jsstring :=
  Eval vm_compute in js "Lagret til GitHub! <a href=" ++ [quote].
Definition LINK_CLOSE : jsstring :=
  Eval vm_compute in
    quote :: js " target=" ++ quote :: js "_blank" ++ quote :: js " style="
      ++ quote :: js "color: #60a5fa;" ++ quote :: js ">Se commit</a>".

Definition commit_link (commitUrl : jsstring) : jsstring :=
  LINK_OPEN ++ commitUrl ++ LINK_CLOSE.

Section Handlers.
Context (W : Platform).
Context (fetch_user : jsstring -> jsstring -> Result UserResponse).
Context (native_message : Exn -> jsstring).

(** [verifyToken] (42-49). *)
Definition verifyToken (token : jsstring) : M (list Event) jsstring :=
  let auth := token_prefix ++ token in
  let* _ := emit (EvGet USER_URL auth) in
  let* resp := lift (fetch_user USER_URL auth) in
  if negb (status_ok (user_status resp)) then throw (Error MSG_INVALID_TOKEN)
  else
    match user_json resp with
    | Some user => ret (login user)
    | None => throw SyntaxError
    end.

(** The click handler of the save-token button (144-158). *)
Definition saveTokenBtn_click : M Page unit :=
  let* value := gets tokenInput_value in
  let token := trim value in
  if negb (truthy (Some token)) then
    modify (set_tokenStatus (span RED MSG_ENTER_TOKEN))
  else
    let* _ := modify (set_tokenStatus (span BLUE MSG_VERIFYING)) in
    try_catch
      (let* username := zoom events set_events (verifyToken token) in
       let* _ := modify (fun p => set_localStorage (setToken token (localStorage p)) p) in
       modify (set_tokenStatus (span GREEN (MSG_TOKEN_STORED ++ username))))
      (fun e => modify (set_tokenStatus (span RED (Exn_message native_message e)))).

(** The click handler of the delete-token button (160-164). *)
Definition deleteTokenBtn_click : M Page unit :=
  let* _ := modify (fun p => set_localStorage (deleteToken (localStorage p)) p) in
  let* _ := modify (set_tokenInput []) in
  modify (set_tokenStatus (span ORANGE MSG_TOKEN_DELETED)).

(** The click handler of the save button (189-232). [getCSVContent] is
    called once, after the token was found. *)
Definition githubSaveBtn_click (config : SaveConfig) : M Page unit :=
  let* token := gets (fun p => getToken (localStorage p)) in
  if negb (truthy (Some token)) then
    let* _ := modify (set_status MSG_SET_UP_TOKEN STATUS_ERROR) in
    modify set_scrolled
  else
    let csv := getCSVContent config in
    if negb (truthy csv)
       || (length (String_split 10 (trim (default [] csv))) <? 2)%nat
    then modify (set_status MSG_NO_DATA STATUS_ERROR)
    else
      let* _ := modify (set_status MSG_SAVING STATUS_INFO) in
      let* _ := modify (set_disabled true) in
      try_finally
        (try_catch
           (let today :=
              hd [] (String_split 84 (Date_now_toISOString W)) in
            let message := commitMessagePrefix config ++ 32 :: today in
            let* result :=
              zoom events set_events
                (saveToGitHub W (owner config) (repo config) (filePath config)
                   (default [] csv) message token) in
            modify (set_status (commit_link (commitUrl result)) STATUS_SUCCESS))
           (fun e =>
              modify (set_status (MSG_FAILED ++ Exn_message native_message e)
                        STATUS_ERROR)))
        (modify (set_disabled false)).

(** *** Notions used to state the properties of the handlers *)

(** The token was verified: [GET /user] was answered with a success
    and a JSON body. *)
Definition verified (token : jsstring) : Prop :=
  token <> [] /\
  exists resp user,
    fetch_user USER_URL (token_prefix ++ token) = inr resp /\
    status_ok (user_status resp) = true /\
    user_json resp = Some user.

(** There is nothing to save: no content, or fewer than two lines. *)
Definition no_data (csv : option jsstring) : bool :=
  negb (truthy csv)
  || (length (String_split 10 (trim (default [] csv))) <? 2)%nat.

(** The commit message of a save: the prefix and the date of the day. *)
Definition dated_message (config : SaveConfig) : jsstring :=
  commitMessagePrefix config
    ++ 32 :: hd [] (String_split 84 (Date_now_toISOString W)).

End Handlers.

End GithubSaveUi.


Module VersionManagerUi.

Import VersionManager.





Definition MSG_ENTER_NAME : jsstring :=
  Eval vm_compute in js "Skriv inn et versjonsnavn".
Definition MSG_FAILED : jsstring := Eval vm_compute in js "Feil: ".
Definition LABEL_SAVE : jsstring := Eval vm_compute in js "Lagre versjon".
Definition LABEL_SAVING : jsstring := Eval vm_compute in js "Lagrer...".
Definition LABEL_UPDATE : jsstring := Eval vm_compute in js "Oppdater".
Definition LABEL_DELETING : jsstring := Eval vm_compute in js "Sletter...".
Definition STATUS_CLASS : jsstring := Eval vm_compute in js "version-status".
Definition TYPE_ERROR : jsstring := Eval vm_compute in js "error".
Definition TYPE_SUCCESS : jsstring := Eval vm_compute in js "success".

(** [`Versjon "${name}" lagret! (${slug})`] and the other texts the
    handlers build. *)
Definition VERSION_ : jsstring := Eval vm_compute in js "Versjon " ++ [quote].
Definition _SAVED : jsstring := Eval vm_compute in quote :: js " lagret! (".
Definition _UPDATED : jsstring := Eval vm_compute in quote :: js " oppdatert!".
Definition _DELETED : jsstring := Eval vm_compute in quote :: js " slettet".
Definition UPDATE_ : jsstring :=
  Eval vm_compute in js "Oppdater versjon " ++ [quote].
Definition _WITH_SETTINGS : jsstring :=
  Eval vm_compute in quote :: js " med nåværende innstillinger?".
Definition DELETE_ : jsstring :=
  Eval vm_compute in js "Er du sikker på at du vil slette " ++ [quote].
Definition _QUESTION : jsstring := Eval vm_compute in quote :: js "?".

Definition saved_message (name slug : jsstring) : jsstring :=
  VERSION_ ++ name ++ _SAVED ++ slug ++ [41].
Definition updated_message (name : jsstring) : jsstring :=
  VERSION_ ++ name ++ _UPDATED.
Definition deleted_message (name : jsstring) : jsstring :=
  VERSION_ ++ name ++ _DELETED.
Definition update_question (name : jsstring) : jsstring :=
  UPDATE_ ++ name ++ _WITH_SETTINGS.
Definition delete_question (name : jsstring) : jsstring :=
  DELETE_ ++ name ++ _QUESTION.

(** The page the version manager runs in: the module ([vm]) with its
    [_loaded] flag, the name input and the save button of the panel, the
    text and class of the [#versionStatus] element, and the button of
    the list that was clicked. *)
Record Panel : Type := mkPanel {
  vm : State;
  _loaded : bool;
  nameInput_value : jsstring;
  saveBtn_disabled : bool;
  saveBtn_textContent : jsstring;
  versionStatus : jsstring * jsstring;
  btn_disabled : bool;
  btn_textContent : jsstring
}.

Definition set_vm (v : State) (p : Panel) : Panel :=
  mkPanel v (_loaded p) (nameInput_value p) (saveBtn_disabled p)
    (saveBtn_textContent p) (versionStatus p) (btn_disabled p) (btn_textContent p).
Definition set_loaded (v : bool) (p : Panel) : Panel :=
  mkPanel (vm p) v (nameInput_value p) (saveBtn_disabled p)
    (saveBtn_textContent p) (versionStatus p) (btn_disabled p) (btn_textContent p).
Definition set_nameInput (v : jsstring) (p : Panel) : Panel :=
  mkPanel (vm p) (_loaded p) v (saveBtn_disabled p)
    (saveBtn_textContent p) (versionStatus p) (btn_disabled p) (btn_textContent p).
Definition set_saveBtn (d : bool) (text : jsstring) (p : Panel) : Panel :=
  mkPanel (vm p) (_loaded p) (nameInput_value p) d text (versionStatus p)
    (btn_disabled p) (btn_textContent p).
Definition set_versionStatus (v : jsstring * jsstring) (p : Panel) : Panel :=
  mkPanel (vm p) (_loaded p) (nameInput_value p) (saveBtn_disabled p)
    (saveBtn_textContent p) v (btn_disabled p) (btn_textContent p).
Definition set_btn (d : bool) (text : jsstring) (p : Panel) : Panel :=
  mkPanel (vm p) (_loaded p) (nameInput_value p) (saveBtn_disabled p)
    (saveBtn_textContent p) (versionStatus p) d text.

(** A method of the module, run on the page. *)
Definition in_vm {A} (m : M State A) : M Panel A := zoom vm set_vm m.

(** What [loadVersions] reads of the answer for [versions.json]. *)
Record LocalResponse : Type := mkLocalResponse {
  local_ok : bool;
  local_json : option StoreFile
}.

Section Handlers.
Context (W : Platform).
Context (fetch_local : Result LocalResponse).
Context (JSON_parse_cache : jsstring -> option (gmap jsstring VersionRecord)).
Context (native_message : Exn -> jsstring).

(** [loadVersions] (116-143), in its two parts: the [try] block that
    fetches [versions.json] (118-127) and the caching that follows it
    (129-142). *)
Definition loadVersions_fetch : M Panel unit :=
  try_catch
    (let* resp := lift fetch_local in
     if local_ok resp then
       let* data := lift (from_option inr (inl SyntaxError) (local_json resp)) in
       let* _ := in_vm (modify (set_versions (default ∅ (versions data)))) in
       modify (set_loaded true)
     else ret tt)
    (fun _ => ret tt).

Definition loadVersions_cache : M Panel unit :=
  let* cfg := gets (fun p => _config (vm p)) in
  let cacheKey := CACHE_PREFIX ++ chartType cfg in
  let* loaded := gets _loaded in
  if loaded then
    let* vs := gets (fun p => _versions (vm p)) in
    in_vm (localStorage_setItem cacheKey (JSON_stringify W vs))
  else
    let* cached := gets (fun p => localStorage (vm p) !! cacheKey) in
    if truthy cached then
      try_catch
        (let* parsed := lift (from_option inr (inl SyntaxError)
                                (JSON_parse_cache (default [] cached))) in
         let* _ := in_vm (modify (set_versions parsed)) in
         modify (set_loaded true))
        (fun _ => ret tt)
    else ret tt.

Definition loadVersions : M Panel unit :=
  let* _ := loadVersions_fetch in
  loadVersions_cache.

(** [_showStatus] (335-344), up to the timer that clears the line five
    seconds later. *)
Definition _showStatus (msg type : jsstring) : M Panel unit :=
  modify (set_versionStatus (msg, STATUS_CLASS ++ 32 :: type)).

(** The click handler of the save button (300-318). *)
Definition saveNewVersionBtn_click : M Panel unit :=
  let* value := gets nameInput_value in
  let name := trim value in
  if negb (truthy (Some name)) then _showStatus MSG_ENTER_NAME TYPE_ERROR
  else
    let* _ := modify (set_saveBtn true LABEL_SAVING) in
    try_finally
      (try_catch
         (let* slug := in_vm (saveVersion W name) in
          let* _ := modify (set_nameInput []) in
          _showStatus (saved_message name slug) TYPE_SUCCESS)
         (fun e => _showStatus (MSG_FAILED ++ Exn_message native_message e)
                     TYPE_ERROR))
      (modify (set_saveBtn false LABEL_SAVE)).

(** The click handler of an update button (403-421); [id] is the
    [data-id] of the item and [confirm] the user's answer. [version] is
    what [_versions[id]] finds, also on [Object.prototype]; its [name] is
    written into the texts as a template does. *)
Definition updateBtn_click (id : jsstring) (confirm : jsstring -> bool)
    : M Panel unit :=
  let* vs := gets (fun p => _versions (vm p)) in
  let* proto := gets (fun p => Object_prototype (vm p)) in
  let version := Object_get proto vs id in
  if negb (found version) then ret tt
  else
    let name := template (version ≫= Property_name) in
    if negb (confirm (update_question name)) then ret tt
    else
      let* _ := modify (set_btn true LABEL_SAVING) in
      try_finally
        (try_catch
           (let* _ := in_vm (updateVersion W id) in
            _showStatus (updated_message name) TYPE_SUCCESS)
           (fun e => _showStatus (MSG_FAILED ++ Exn_message native_message e)
                       TYPE_ERROR))
        (modify (set_btn false LABEL_UPDATE)).

(** The click handler of a delete button (446-461). *)
Definition deleteBtn_click (id : jsstring) (confirm : jsstring -> bool)
    : M Panel unit :=
  let* vs := gets (fun p => _versions (vm p)) in
  let* proto := gets (fun p => Object_prototype (vm p)) in
  let version := Object_get proto vs id in
  if negb (found version) then ret tt
  else
    let name := template (version ≫= Property_name) in
    if negb (confirm (delete_question name)) then ret tt
    else
      let* _ := modify (set_btn true LABEL_DELETING) in
      try_catch
        (let* _ := in_vm (deleteVersion W id) in
         _showStatus (deleted_message name) TYPE_SUCCESS)
        (fun e => _showStatus (MSG_FAILED ++ Exn_message native_message e)
                    TYPE_ERROR).

(** *** Notions used to state the properties of the handlers *)

(** The store file [loadVersions] was served, if any. *)
Definition served : option StoreFile :=
  match fetch_local with
  | inr resp => if local_ok resp then local_json resp else None
  | inl _ => None
  end.

Definition cache_key (p : Panel) : jsstring :=
  CACHE_PREFIX ++ chartType (_config (vm p)).

(** The text and class [_showStatus] sets. *)
Definition status_line (msg type : jsstring) : jsstring * jsstring :=
  (msg, STATUS_CLASS ++ 32 :: type).

End Handlers.

End VersionManagerUi.


(** [String.prototype.toWellFormed]: every surrogate that is not part
    of a pair is replaced by U+FFFD. *)
Fixpoint toWellFormed (s : jsstring) : jsstring :=
  match s with
  | [] => []
  | u :: t =>
      if is_high_surrogate u then
        match t with
        | v :: t' =>
            if is_low_surrogate v then u :: v :: toWellFormed t'
            else 0xFFFD :: toWellFormed t
        | [] => [0xFFFD]
        end
      else if is_low_surrogate u then 0xFFFD :: toWellFormed t
      else u :: toWellFormed t
  end.

(** The page without the heights of its iframes: what each container
    shows, and in which windows. *)
Definition skeleton (p : Page)
    : list (option jsstring * list (jsstring * Z)) * Z :=
  (map (fun c => (dataset_src c,
                  map (fun f => (iframe_src f, contentWindow f))
                    (container_iframes c)))
     (containers p),
   next_window p).

(** ** More concrete worlds *)

Module Scene.

Import VersionManager.

(** A store that holds three versions. *)
Definition version_test : VersionRecord :=
  Version.mkVersionRecord (js "Test") (js "test")
    (Some (js "2025-06-01T08:00:00.000Z")) (Some (js "2025-06-01T08:00:00.000Z"))
    (JObject [(js "theme", JString (js "dark"))]).

Definition stored : gmap jsstring VersionRecord :=
  {[ js "a" := World.version_a; js "b" := World.version_b;
     js "test" := version_test ]}.

(** The text that stands for the serialised store in this world, and
    its base64 form as the API sends it, broken into lines. *)
Definition stored_text : jsstring := Eval vm_compute in js "{stored}".
Definition stored_base64 : jsstring :=
  Eval vm_compute in js "e3N0" ++ 10 :: js "b3JlZH0=" ++ [10].

(** The store file exists and holds [stored]; writes are accepted. *)
Definition existing : Platform :=
  {| fetch_get := fun _ _ =>
       inr (mkGetResponse 200
              (Some (mkContentsData (js "3f1c9a") stored_base64)));
     fetch_put := fun _ _ _ => inr World.created;
     Date_now_toISOString := js "2026-01-15T10:30:00.000Z";
     Date_parse := World.year_of;
     JSON_parse := fun text =>
       if bool_decide (text = stored_text)
       then Some (mkStoreFile (Some stored)) else None;
     JSON_stringify_file := fun _ => stored_text;
     JSON_stringify := fun _ => stored_text |}.

(** The same store, with writes refused as a conflict. *)
Definition conflicting : Platform :=
  {| fetch_get := fetch_get existing;
     fetch_put := fun _ _ _ => inr (mkPutResponse 409 None);
     Date_now_toISOString := js "2026-01-15T10:30:00.000Z";
     Date_parse := World.year_of;
     JSON_parse := JSON_parse existing;
     JSON_stringify_file := fun _ => stored_text;
     JSON_stringify := fun _ => stored_text |}.

End Scene.


(** * Proofs *)

Ltac divmod := Z.div_mod_to_equations; lia.

(** Decide the condition of an [if] of the goal by arithmetic, or split on it. *)
Ltac decide_if :=
  match goal with
  | |- context [if ?c then _ else _] =>
      first
        [ replace c with true by (symmetry; divmod)
        | replace c with false by (symmetry; divmod)
        | destruct c eqn:? ]
  end.

(** Run the monadic glue of the version manager. *)
Ltac run_monad :=
  cbv beta iota zeta delta
    [bind gets modify ret throw lift VersionManager.net zoom emit
     VersionManager.localStorage_setItem VersionManager._renderList
     VersionManager.set_versions VersionManager.set_sha
     VersionManager.set_events VersionManager.set_localStorage
     VersionManager.set_Object_prototype
     VersionManager._config VersionManager._versions VersionManager._sha
     VersionManager.localStorage VersionManager.events
     VersionManager.Object_prototype fst snd].


(** ** The encoding utility *)


Lemma list_ind3 {A} (P : list A -> Prop) :
  P [] -> (forall a, P [a]) -> (forall a b, P [a; b]) ->
  (forall a b c t, P t -> P (a :: b :: c :: t)) ->
  forall l, P l.
Proof.
  intros H0 H1 H2 H3.
  assert (H : forall l, P l /\ (forall a, P (a :: l)) /\ (forall a b, P (a :: b :: l))).
  { induction l as [|x l (IH0 & IH1 & IH2)]; [by auto|].
    refine (conj (IH1 x) (conj (fun a => IH2 a x) _)).
    intros a b. by apply H3. }
  intros l. apply H.
Qed.

Lemma below_64_cases (P : Z -> bool) :
  forallb (fun n => P (Z.of_nat n)) (seq 0 64) = true ->
  forall i, 0 <= i < 64 -> P i = true.
Proof.
  intros H i Hi. rewrite forallb_forall in H.
  specialize (H (Z.to_nat i)). rewrite Z2Nat.id in H by lia.
  apply H, in_seq. lia.
Qed.

Lemma base64_index_char i : 0 <= i < 64 -> base64_index (base64_char i) = Some i.
Proof.
  intros Hi.
  pose proof (below_64_cases
    (fun i => match base64_index (base64_char i) with
              | Some j => j =? i
              | None => false
              end)) as H.
  specialize (H ltac:(by vm_compute) i Hi). cbv beta in H.
  destruct (base64_index (base64_char i)) as [j|]; [|done].
  apply Z.eqb_eq in H. by subst.
Qed.

Lemma base64_char_plain i :
  0 <= i < 64 ->
  is_ascii_whitespace (base64_char i) = false /\ base64_char i <> 61
  /\ base64_char i <> 10.
Proof.
  intros Hi.
  pose proof (below_64_cases
    (fun i => negb (is_ascii_whitespace (base64_char i))
              && negb (base64_char i =? 61) && negb (base64_char i =? 10))) as H.
  specialize (H ltac:(by vm_compute) i Hi).
  apply andb_prop in H as [H H3]. apply andb_prop in H as [H1 H2].
  apply negb_true_iff in H1, H2, H3.
  apply Z.eqb_neq in H2, H3. done.
Qed.

Lemma sextets_range (bs : list Z) :
  Forall is_byte bs -> Forall (fun v => 0 <= v < 64) (sextets bs).
Proof.
  unfold is_byte.
  induction bs as [| a | a b | a b c t IH] using list_ind3; intros H; cbn [sextets].
  - constructor.
  - apply Forall_cons in H as [Ha _]. repeat constructor; divmod.
  - apply Forall_cons in H as [Ha H]. apply Forall_cons in H as [Hb _].
    repeat constructor; divmod.
  - apply Forall_cons in H as [Ha H]. apply Forall_cons in H as [Hb H].
    apply Forall_cons in H as [Hc H].
    repeat (constructor; [divmod|]). by apply IH.
Qed.

Lemma octets_sextets (bs : list Z) : Forall is_byte bs -> octets (sextets bs) = bs.
Proof.
  unfold is_byte.
  induction bs as [| a | a b | a b c t IH] using list_ind3; intros H.
  - done.
  - apply Forall_cons in H as [Ha _]. cbn. f_equal. divmod.
  - apply Forall_cons in H as [Ha H]. apply Forall_cons in H as [Hb _].
    cbn. f_equal; [divmod|]. f_equal. divmod.
  - apply Forall_cons in H as [Ha H]. apply Forall_cons in H as [Hb H].
    apply Forall_cons in H as [Hc H].
    cbn [sextets].
    change (octets (?x :: ?y :: ?z :: ?w :: ?r))
      with (x * 4 + y / 16 :: (y mod 16) * 16 + z / 4 :: (z mod 4) * 64 + w :: octets r).
    rewrite IH by done.
    f_equal; [divmod|]. f_equal; [divmod|]. f_equal. divmod.
Qed.

Lemma sextets_length (bs : list Z) :
  ((length (sextets bs) + length (base64_padding (length bs))) mod 4 = 0)%nat
  /\ (length (sextets bs) mod 4 <> 1)%nat.
Proof.
  induction bs as [| a | a b | a b c t [IH1 IH2]] using list_ind3; try done.
  cbn [sextets length].
  replace (base64_padding (S (S (S (length t))))) with (base64_padding (length t)).
  2:{ unfold base64_padding.
      replace (S (S (S (length t)))) with (length t + 1 * 3)%nat by lia.
      by rewrite Nat.Div0.mod_add. }
  split.
  - replace (S (S (S (S (length (sextets t))))) + length (base64_padding (length t)))%nat
      with ((length (sextets t) + length (base64_padding (length t))) + 1 * 4)%nat by lia.
    by rewrite Nat.Div0.mod_add.
  - replace (S (S (S (S (length (sextets t)))))) with (length (sextets t) + 1 * 4)%nat by lia.
    by rewrite Nat.Div0.mod_add.
Qed.

Lemma padding_cases n :
  base64_padding n = [] \/ base64_padding n = [61] \/ base64_padding n = [61; 61].
Proof. unfold base64_padding. destruct (n mod 3)%nat as [|[|[|?]]]; auto. Qed.

Lemma strip_padding_encoded (X pad : list Z) :
  Forall (fun c => c <> 61) X ->
  pad = [] \/ pad = [61] \/ pad = [61; 61] ->
  (length (X ++ pad) mod 4 = 0)%nat ->
  strip_padding (X ++ pad) = X.
Proof.
  intros HX Hpad Hlen. unfold strip_padding.
  rewrite Hlen. cbn [Nat.eqb]. rewrite rev_app_distr.
  assert (Hhd : forall r, rev X <> 61 :: r).
  { intros r Hr. assert (Hin : In 61 (rev X)) by (rewrite Hr; by left).
    apply in_rev in Hin. rewrite Forall_forall in HX.
    apply list_elem_of_In in Hin. by apply HX in Hin. }
  destruct Hpad as [->|[->| ->]]; cbn [rev app].
  - rewrite app_nil_r.
    destruct (rev X) as [|c r] eqn:E; [done|].
    destruct (decide (c = 61)) as [->|Hc]; [by destruct (Hhd r)|].
    destruct c as [|q|q]; try done.
    do 6 (destruct q as [q|q|]; try done).
  - destruct (rev X) as [|c r] eqn:E.
    + by apply (f_equal (@rev Z)) in E; rewrite rev_involutive in E.
    + destruct (decide (c = 61)) as [->|Hc]; [by destruct (Hhd r)|].
      rewrite <- E, rev_involutive.
      destruct c as [|q|q]; try done.
      do 6 (destruct q as [q|q|]; try done).
  - apply rev_involutive.
Qed.

Lemma mapM_index_chars (vs : list Z) :
  Forall (fun v => 0 <= v < 64) vs ->
  mapM_index (map base64_char vs) = Some vs.
Proof.
  induction 1 as [|v vs Hv _ IH]; [done|].
  cbn [map mapM_index]. by rewrite base64_index_char, IH.
Qed.

Lemma filter_all {A} (P : A -> Prop) `{!forall x, Decision (P x)} (l : list A) :
  Forall P l -> filter P l = l.
Proof.
  induction 1 as [|x l Hx _ IH]; [done|].
  rewrite filter_cons_True by done. by rewrite IH.
Qed.

Lemma encoded_plain (bs : list Z) :
  Forall is_byte bs ->
  Forall (fun c => is_ascii_whitespace c = false /\ c <> 10)
    (map base64_char (sextets bs) ++ base64_padding (length bs))
  /\ Forall (fun c => c <> 61) (map base64_char (sextets bs)).
Proof.
  intros Hbs. pose proof (sextets_range bs Hbs) as Hr.
  split.
  - apply Forall_app. split.
    + apply Forall_fmap. eapply Forall_impl; [exact Hr|].
      intros v Hv. cbn. by destruct (base64_char_plain v Hv) as (? & ? & ?).
    + destruct (padding_cases (length bs)) as [->|[->| ->]]; by repeat constructor.
  - apply Forall_fmap. eapply Forall_impl; [exact Hr|].
    intros v Hv. cbn. by destruct (base64_char_plain v Hv) as (? & ? & ?).
Qed.

(** [atob] undoes [btoa] on every binary string. *)
Lemma atob_btoa (bs : list Z) :
  Forall is_byte bs ->
  exists b64, btoa bs = inr b64 /\ remove_newlines b64 = b64 /\ atob b64 = inr bs.
Proof.
  intros Hbs. unfold btoa.
  assert (Hall : forallb (fun u => (0 <=? u) && (u <=? 255)) bs = true).
  { apply forallb_forall. intros b Hb. rewrite Forall_forall in Hbs.
    apply list_elem_of_In, Hbs in Hb. unfold is_byte in Hb. lia. }
  rewrite Hall. eexists. split; [reflexivity|].
  destruct (encoded_plain bs Hbs) as [Hplain Hno61].
  destruct (sextets_length bs) as [Hlen Hlen1].
  split.
  - unfold remove_newlines. apply filter_all.
    eapply Forall_impl; [exact Hplain|]. by intros c [_ ?].
  - unfold atob.
    rewrite filter_all by (eapply Forall_impl; [exact Hplain|]; by intros c [? _]).
    rewrite strip_padding_encoded; [| done | apply padding_cases |].
    2:{ by rewrite length_app, length_map. }
    rewrite length_map.
    destruct (length (sextets bs) mod 4 =? 1)%nat eqn:E.
    { by apply Nat.eqb_eq in E. }
    rewrite mapM_index_chars by (by apply sextets_range).
    by rewrite octets_sextets.
Qed.


Lemma is_scalar_range c :
  is_scalar c = true ->
  0 <= c <= 0x10FFFF /\ (c < 0xD800 \/ 0xDFFF < c).
Proof. unfold is_scalar. lia. Qed.

Lemma utf8_encode_cp_bytes c :
  is_scalar c = true -> Forall is_byte (utf8_encode_cp c).
Proof.
  intros Hc. apply is_scalar_range in Hc. unfold utf8_encode_cp, is_byte.
  repeat decide_if; repeat constructor; divmod.
Qed.

Lemma utf8_decode_lead b t :
  utf8_decode_from None (b :: t)
  = (utf8_lead b).1 ++ utf8_decode_from (utf8_lead b).2 t.
Proof. cbn [utf8_decode_from]. by destruct (utf8_lead b). Qed.

Lemma utf8_decode_continue cp n lo hi b t :
  lo <= b <= hi ->
  utf8_decode_from (Some (mkPending cp n lo hi)) (b :: t)
  = if n =? 1 then (cp * 64 + b mod 64) :: utf8_decode_from None t
    else utf8_decode_from (Some (mkPending (cp * 64 + b mod 64) (n - 1) 0x80 0xBF)) t.
Proof.
  intros Hb. cbn [utf8_decode_from p_lower p_upper p_remaining p_code_point].
  by replace ((lo <=? b) && (b <=? hi)) with true by (symmetry; lia).
Qed.

Lemma utf8_lead_ascii b : 0 <= b <= 0x7F -> utf8_lead b = ([b], None).
Proof. intros Hb. unfold utf8_lead. by repeat decide_if. Qed.

Lemma utf8_lead_2 b :
  0xC2 <= b <= 0xDF -> utf8_lead b = ([], Some (mkPending (b mod 32) 1 0x80 0xBF)).
Proof. intros Hb. unfold utf8_lead. by repeat decide_if. Qed.

Lemma utf8_lead_3 b :
  0xE0 <= b <= 0xEF ->
  utf8_lead b
  = ([], Some (mkPending (b mod 16) 2 (if b =? 0xE0 then 0xA0 else 0x80)
                 (if b =? 0xED then 0x9F else 0xBF))).
Proof.
  intros Hb. unfold utf8_lead.
  replace ((0 <=? b) && (b <=? 127)) with false by (symmetry; lia).
  replace ((194 <=? b) && (b <=? 223)) with false by (symmetry; lia).
  by replace ((224 <=? b) && (b <=? 239)) with true by (symmetry; lia).
Qed.

Lemma utf8_lead_4 b :
  0xF0 <= b <= 0xF4 ->
  utf8_lead b
  = ([], Some (mkPending (b mod 8) 3 (if b =? 0xF0 then 0x90 else 0x80)
                 (if b =? 0xF4 then 0x8F else 0xBF))).
Proof.
  intros Hb. unfold utf8_lead.
  replace ((0 <=? b) && (b <=? 127)) with false by (symmetry; lia).
  replace ((194 <=? b) && (b <=? 223)) with false by (symmetry; lia).
  replace ((224 <=? b) && (b <=? 239)) with false by (symmetry; lia).
  by replace ((240 <=? b) && (b <=? 244)) with true by (symmetry; lia).
Qed.

Lemma utf8_decode_encode_cp c rest :
  is_scalar c = true ->
  utf8_decode_from None (utf8_encode_cp c ++ rest)
  = c :: utf8_decode_from None rest.
Proof.
  intros Hc. apply is_scalar_range in Hc. unfold utf8_encode_cp.
  destruct (Z.ltb_spec c 0x80).
  { cbn [app]. rewrite utf8_decode_lead, utf8_lead_ascii by lia. reflexivity. }
  destruct (Z.ltb_spec c 0x800).
  { cbn [app]. rewrite utf8_decode_lead, utf8_lead_2 by divmod.
    cbn [fst snd app]. rewrite utf8_decode_continue by divmod.
    cbn [Z.eqb Pos.eqb]. f_equal. divmod. }
  destruct (Z.ltb_spec c 0x10000).
  { cbn [app]. rewrite utf8_decode_lead, utf8_lead_3 by divmod.
    cbn [fst snd app].
    rewrite utf8_decode_continue by (repeat decide_if; divmod).
    cbn [Z.eqb Pos.eqb Z.sub Z.add Z.opp Z.pos_sub Pos.pred_double].
    rewrite utf8_decode_continue by divmod.
    cbn [Z.eqb Pos.eqb]. f_equal. divmod. }
  cbn [app]. rewrite utf8_decode_lead, utf8_lead_4 by divmod.
  cbn [fst snd app].
  rewrite utf8_decode_continue by (repeat decide_if; divmod).
  cbn [Z.eqb Pos.eqb Z.sub Z.add Z.opp Z.pos_sub Pos.pred_double].
  rewrite utf8_decode_continue by divmod.
  cbn [Z.eqb Pos.eqb Z.sub Z.add Z.opp Z.pos_sub Pos.pred_double].
  rewrite utf8_decode_continue by divmod.
  cbn [Z.eqb Pos.eqb]. f_equal. divmod.
Qed.

Lemma utf8_decode_encode (cps : list Z) :
  Forall (fun c => is_scalar c = true) cps ->
  utf8_decode_from None (flat_map utf8_encode_cp cps) = cps
  /\ Forall is_byte (flat_map utf8_encode_cp cps).
Proof.
  induction 1 as [|c cps Hc _ [IH1 IH2]]; [by split|].
  cbn [flat_map]. split.
  - by rewrite utf8_decode_encode_cp, IH1.
  - apply Forall_app. split; [by apply utf8_encode_cp_bytes|done].
Qed.

Lemma list_ind_pairs {A} (P : list A -> Prop) :
  P [] -> (forall u, P [u]) ->
  (forall u v t, P t -> P (v :: t) -> P (u :: v :: t)) ->
  forall l, P l.
Proof.
  intros H0 H1 H2.
  assert (H : forall l, P l /\ forall u, P (u :: l)).
  { induction l as [|x l [IH0 IH1]]; [by auto|].
    refine (conj (IH1 x) _). intros u. by apply H2. }
  intros l. apply H.
Qed.

Lemma to_scalar_values_cons u t :
  to_scalar_values (u :: t)
  = if is_high_surrogate u then
      match t with
      | v :: t' =>
          if is_low_surrogate v
          then (0x10000 + (u - 0xD800) * 0x400 + (v - 0xDC00)) :: to_scalar_values t'
          else 0xFFFD :: to_scalar_values t
      | [] => [0xFFFD]
      end
    else if is_low_surrogate u then 0xFFFD :: to_scalar_values t
    else u :: to_scalar_values t.
Proof. by destruct t. Qed.

Lemma isWellFormed_cons u t :
  isWellFormed (u :: t)
  = if is_high_surrogate u then
      match t with
      | v :: t' => is_low_surrogate v && isWellFormed t'
      | [] => false
      end
    else is_code_unit u && negb (is_low_surrogate u) && isWellFormed t.
Proof. by destruct t. Qed.

(** A well-formed string is the UTF-16 form of its scalar values. *)
Lemma to_scalar_values_wf (s : list Z) :
  isWellFormed s = true ->
  Forall (fun c => is_scalar c = true) (to_scalar_values s)
  /\ flat_map utf16_units (to_scalar_values s) = s
  /\ (head (to_scalar_values s) = Some 0xFEFF -> head s = Some 0xFEFF).
Proof.
  induction s as [|u|u v t IHt IHv] using list_ind_pairs.
  - done.
  - rewrite to_scalar_values_cons, isWellFormed_cons.
    destruct (is_high_surrogate u) eqn:Eh; [done|].
    destruct (is_low_surrogate u) eqn:El; [by rewrite andb_false_r|].
    unfold is_high_surrogate, is_low_surrogate, is_code_unit in *.
    intros Hwf. split; [|split; [|done]].
    + repeat constructor. unfold is_scalar. lia.
    + cbn. unfold utf16_units. by replace (u <? 0x10000) with true by (symmetry; lia).
  - rewrite (to_scalar_values_cons u), (isWellFormed_cons u).
    destruct (is_high_surrogate u) eqn:Eh.
    + destruct (is_low_surrogate v) eqn:El; [|done].
      cbn [andb]. intros Hwf. destruct (IHt Hwf) as (IH1 & IH2 & _).
      unfold is_high_surrogate, is_low_surrogate in *.
      split; [|split].
      * constructor; [|done]. unfold is_scalar. lia.
      * cbn [flat_map]. rewrite IH2. unfold utf16_units.
        replace (_ <? 0x10000) with false by (symmetry; lia).
        cbn [app]. f_equal; [divmod|]. f_equal. divmod.
      * cbn [head]. intros [= H]. lia.
    + destruct (is_low_surrogate u) eqn:El; [by rewrite andb_false_r|].
      intros Hwf. apply andb_prop in Hwf as [Hu Hwf].
      destruct (IHv Hwf) as (IH1 & IH2 & _).
      unfold is_high_surrogate, is_low_surrogate, is_code_unit in *.
      split; [|split; [|done]].
      * constructor; [|done]. unfold is_scalar. lia.
      * cbn [flat_map]. rewrite IH2. unfold utf16_units.
        by replace (u <? 0x10000) with true by (symmetry; lia).
Qed.

Lemma binary_of_bytes (bytes : list Z) :
  Forall is_byte bytes ->
  fold_left (fun binary b => binary ++ String_fromCharCode b) bytes [] = bytes.
Proof.
  intros Hb.
  assert (H : forall acc,
            fold_left (fun binary b => binary ++ String_fromCharCode b) bytes acc
            = acc ++ bytes).
  { induction Hb as [|b bs Hb _ IH]; intros acc; cbn [fold_left].
    - by rewrite app_nil_r.
    - rewrite IH. unfold String_fromCharCode. rewrite <- app_assoc. cbn [app].
      unfold is_byte in Hb. by rewrite Z.mod_small by lia. }
  apply H.
Qed.

Lemma ToUint8_bytes (bytes : list Z) :
  Forall is_byte bytes -> map ToUint8 bytes = bytes.
Proof.
  induction 1 as [|b bs Hb _ IH]; [done|].
  cbn [map]. rewrite IH. unfold ToUint8, is_byte in *. by rewrite Z.mod_small by lia.
Qed.

Lemma to_scalar_values_scalar (s : list Z) :
  Forall (fun u => is_code_unit u = true) s ->
  Forall (fun c => is_scalar c = true) (to_scalar_values s).
Proof.
  induction s as [|u|u v t IHt IHv] using list_ind_pairs; intros Hs.
  - constructor.
  - apply Forall_cons in Hs as [Hu _]. rewrite to_scalar_values_cons.
    unfold is_high_surrogate, is_low_surrogate, is_code_unit, is_scalar in *.
    repeat decide_if; repeat constructor; lia.
  - apply Forall_cons in Hs as [Hu Hs]. rewrite (to_scalar_values_cons u).
    pose proof (IHv Hs) as Hv. apply Forall_cons in Hs as [Hv' Hs].
    pose proof (IHt Hs) as Ht.
    unfold is_high_surrogate, is_low_surrogate, is_code_unit, is_scalar in *.
    repeat decide_if; constructor; try done; lia.
Qed.

Lemma strip_bom_units (x : list Z) :
  isWellFormed x = true ->
  flat_map utf16_units (strip_bom (to_scalar_values x)) = strip_bom x.
Proof.
  intros Hwf. destruct (to_scalar_values_wf x Hwf) as (_ & Hunits & Hbom).
  destruct x as [|u t]; [done|].
  destruct (decide (u = 0xFEFF)) as [->|Hu].
  - rewrite to_scalar_values_cons. cbn.
    rewrite isWellFormed_cons in Hwf. cbn in Hwf.
    by destruct (to_scalar_values_wf t Hwf) as (_ & -> & _).
  - assert (Hx : strip_bom (u :: t) = u :: t).
    { cbn [strip_bom]. by destruct (Z.eqb_spec u 0xFEFF). }
    rewrite Hx.
    destruct (to_scalar_values (u :: t)) as [|c l] eqn:E; [done|].
    cbn [strip_bom]. destruct (Z.eqb_spec c 0xFEFF) as [->|Hc]; [|done].
    specialize (Hbom eq_refl). cbn in Hbom. congruence.
Qed.

(** [utf8ToBase64] never throws on a string. *)
Lemma utf8ToBase64_total (str : list Z) :
  Forall (fun u => is_code_unit u = true) str ->
  exists b64,
    utf8ToBase64 str = inr b64 /\
    remove_newlines b64 = b64 /\
    atob b64 = inr (TextEncoder_encode str).
Proof.
  intros Hstr. unfold utf8ToBase64.
  pose proof (to_scalar_values_scalar str Hstr) as Hsc.
  destruct (utf8_decode_encode _ Hsc) as [_ Hbytes].
  fold (TextEncoder_encode str) in Hbytes.
  cbv zeta. rewrite binary_of_bytes by done.
  by apply atob_btoa.
Qed.

Lemma isWellFormed_code_units (s : list Z) :
  isWellFormed s = true -> Forall (fun u => is_code_unit u = true) s.
Proof.
  induction s as [|u|u v t IHt IHv] using list_ind_pairs.
  - constructor.
  - rewrite isWellFormed_cons.
    unfold is_high_surrogate, is_low_surrogate, is_code_unit.
    intros H. repeat constructor.
    destruct ((55296 <=? u) && (u <=? 56319)); [done|]. lia.
  - rewrite (isWellFormed_cons u).
    destruct (is_high_surrogate u) eqn:Eh.
    + intros H. apply andb_prop in H as [Hv Ht].
      unfold is_high_surrogate, is_low_surrogate, is_code_unit in *.
      constructor; [lia|]. constructor; [lia|]. by apply IHt.
    + intros H. apply andb_prop in H as [Hu Hvt].
      apply andb_prop in Hu as [Hu _]. constructor; [done|]. by apply IHv.
Qed.

(** C4, as amended. For every well-formed string [x] (every code unit
    in range, no unpaired surrogate) the encoding does not throw, and
    decoding it gives [x] without its leading U+FEFF, if it has one; so a
    string that does not begin with U+FEFF comes back exactly, characters
    of two, three and four UTF-8 bytes included. *)
Theorem base64_round_trip (x : list Z) :
  isWellFormed x = true ->
  exists b64,
    utf8ToBase64 x = inr b64 /\
    base64ToUtf8 b64 = inr (strip_bom x) /\
    (head x <> Some 0xFEFF -> base64ToUtf8 b64 = inr x).
Proof.
  intros Hwf.
  destruct (utf8ToBase64_total x (isWellFormed_code_units x Hwf))
    as (b64 & Henc & Hnl & Hatob).
  assert (Hdec : base64ToUtf8 b64 = inr (strip_bom x)).
  { unfold base64ToUtf8. rewrite Hnl, Hatob.
    destruct (to_scalar_values_wf x Hwf) as (Hsc & _ & _).
    destruct (utf8_decode_encode _ Hsc) as [Hdec Hbytes].
    fold (TextEncoder_encode x) in Hdec, Hbytes.
    rewrite ToUint8_bytes by done.
    unfold TextDecoder_decode. rewrite Hdec.
    by rewrite strip_bom_units. }
  exists b64. split; [done|]. split; [done|].
  intros Hhead. rewrite Hdec. f_equal.
  destruct x as [|u t]; [done|].
  cbn [strip_bom]. destruct (Z.eqb_spec u 0xFEFF) as [->|Hu]; done.
Qed.

Lemma base64_round_trip_witness :
  exists b64,
    utf8ToBase64 (js "Mørk 16:9 – 50 € 😀") = inr b64 /\
    base64ToUtf8 b64 = inr (js "Mørk 16:9 – 50 € 😀").
Proof.
  destruct (base64_round_trip (js "Mørk 16:9 – 50 € 😀")
              ltac:(vm_compute; reflexivity))
    as (b64 & Henc & _ & Hdec).
  exists b64. split; [exact Henc|]. apply Hdec. vm_compute. discriminate.
Defined.

(** C4, as stated, fails: the decoder drops a leading U+FEFF, so the
    two-character string U+FEFF, [a] comes back as [a] alone. *)
Lemma leading_bom_is_dropped :
  isWellFormed [0xFEFF; 97] = true /\
  utf8ToBase64 [0xFEFF; 97] = inr (js "77u/YQ==") /\
  base64ToUtf8 (js "77u/YQ==") = inr [97] /\
  [97] <> [0xFEFF; 97].
Proof. vm_compute. done. Qed.

Example js_literal : js "Mørk 16:9" = [77; 248; 114; 107; 32; 49; 54; 58; 57].
Proof. vm_compute. reflexivity. Qed.

Example utf8ToBase64_example : utf8ToBase64 (js "Mørk") = inr (js "TcO4cms=").
Proof. vm_compute. reflexivity. Qed.

Example base64ToUtf8_example : base64ToUtf8 (js "TcO4cms=") = inr (js "Mørk").
Proof. vm_compute. reflexivity. Qed.

(** An unpaired surrogate is encoded as U+FFFD. *)
Example lone_surrogate_example :
  utf8ToBase64 [0xD800] = inr (js "77+9") /\ base64ToUtf8 (js "77+9") = inr [0xFFFD].
Proof. vm_compute. done. Qed.

(** ** The slug generator *)

Lemma byte_codes_inj (s1 s2 : string) : byte_codes s1 = byte_codes s2 -> s1 = s2.
Proof.
  unfold byte_codes. intros H.
  rewrite <- (string_of_list_ascii_of_string s1), <- (string_of_list_ascii_of_string s2).
  f_equal.
  revert H. generalize (list_ascii_of_string s1) (list_ascii_of_string s2).
  induction l as [|a l IH]; intros [|b l'] H; simpl in H; try discriminate; auto.
  injection H as Hab Hl.
  f_equal; [|auto].
  apply Nat2Z.inj in Hab.
  rewrite <- (ascii_nat_embedding a), <- (ascii_nat_embedding b). congruence.
Qed.

Lemma Number_toString_inj (i j : Z) : Number_toString i = Number_toString j -> i = j.
Proof.
  unfold Number_toString. intros H. apply byte_codes_inj in H.
  by apply (inj pretty) in H.
Qed.

Lemma suffixed_inj (slug : list Z) (i j : Z) : suffixed slug i = suffixed slug j -> i = j.
Proof.
  unfold suffixed. intros H. apply app_inv_head in H.
  injection H as H. by apply Number_toString_inj.
Qed.

Lemma includes_true (ids : list (list Z)) x : includes ids x = true <-> x ∈ ids.
Proof. unfold includes. apply bool_decide_eq_true. Qed.

Lemma includes_false (ids : list (list Z)) x : includes ids x = false <-> x ∉ ids.
Proof. unfold includes. apply bool_decide_eq_false. Qed.

(** What the loop returns is the first free counter from [i] on. *)
Lemma uniqueSlug_loop_Some fuel slug ids i j :
  uniqueSlug_loop fuel slug ids i = Some j ->
  i <= j /\ (suffixed slug j ∉ ids) /\
  forall k, i <= k < j -> suffixed slug k ∈ ids.
Proof.
  revert i. induction fuel as [|fuel IH]; intros i H; simpl in H; [discriminate|].
  destruct (includes ids (suffixed slug i)) eqn:E.
  - apply IH in H as (Hle & Hfree & Hused).
    split; [lia|]. split; [done|].
    intros k Hk. destruct (decide (k = i)) as [->|Hne].
    + by apply includes_true.
    + apply Hused. lia.
  - injection H as <-. split; [lia|]. split; [by apply includes_false|].
    intros k Hk. lia.
Qed.

(** When the fuel runs out, every counter tried was taken. *)
Lemma uniqueSlug_loop_None fuel slug ids i :
  uniqueSlug_loop fuel slug ids i = None ->
  forall k, i <= k < i + Z.of_nat fuel -> suffixed slug k ∈ ids.
Proof.
  revert i. induction fuel as [|fuel IH]; intros i H k Hk; simpl in H; [lia|].
  destruct (includes ids (suffixed slug i)) eqn:E; [|discriminate].
  destruct (decide (k = i)) as [->|Hne].
  - by apply includes_true.
  - apply (IH (i + 1)); [done | lia].
Qed.

(** More candidates than ids cannot all be taken. *)
Lemma uniqueSlug_loop_enough fuel slug (ids : list (list Z)) i :
  (length ids < fuel)%nat ->
  is_Some (uniqueSlug_loop fuel slug ids i).
Proof.
  intros Hfuel.
  destruct (uniqueSlug_loop fuel slug ids i) eqn:E; [by eexists|exfalso].
  pose proof (uniqueSlug_loop_None _ _ _ _ E) as Hall.
  set (cands := map (fun n => suffixed slug (i + Z.of_nat n)) (seq 0 fuel)).
  assert (Hnd : List.NoDup cands).
  { apply Finite.Injective_map_NoDup; [|apply seq_NoDup].
    intros a b Hab. apply suffixed_inj in Hab. lia. }
  assert (Hincl : incl cands ids).
  { intros x Hx. apply in_map_iff in Hx as (n & <- & Hn).
    apply in_seq in Hn. apply list_elem_of_In, Hall. lia. }
  pose proof (NoDup_incl_length Hnd Hincl) as Hlen.
  unfold cands in Hlen. rewrite length_map, length_seq in Hlen. lia.
Qed.

Lemma uniqueSlug_loop_fuel fuel fuel' slug ids i j :
  uniqueSlug_loop fuel slug ids i = Some j ->
  (fuel <= fuel')%nat ->
  uniqueSlug_loop fuel' slug ids i = Some j.
Proof.
  revert fuel' i. induction fuel as [|fuel IH]; intros fuel' i H Hle; simpl in H; [discriminate|].
  destruct fuel' as [|fuel']; [lia|]. simpl.
  destruct (includes ids (suffixed slug i)); [|done].
  apply IH; [done | lia].
Qed.

(** C5. For every candidate and every finite list of existing ids the
    loop of [uniqueSlug] stops: any fuel above the number of ids gives the
    same result [r], which is what [uniqueSlug] returns. [r] is not one of
    the existing ids; it is the candidate itself when that is free, and
    otherwise the candidate suffixed with the least counter from 2 on
    whose suffixed form is free. *)
Theorem uniqueSlug_correct (candidate : list Z) (existingIds : list (list Z)) :
  exists r,
    (forall fuel, (length existingIds < fuel)%nat ->
                  uniqueSlug_fuel fuel candidate existingIds = Some r) /\
    uniqueSlug candidate existingIds = r /\
    (r ∉ existingIds) /\
    ((candidate ∉ existingIds) -> r = candidate) /\
    (candidate ∈ existingIds ->
     exists i, 2 <= i /\ r = suffixed candidate i /\
               forall k, 2 <= k < i -> suffixed candidate k ∈ existingIds).
Proof.
  assert (Hrun : forall r,
            (forall fuel, (length existingIds < fuel)%nat ->
                          uniqueSlug_fuel fuel candidate existingIds = Some r) ->
            uniqueSlug candidate existingIds = r).
  { intros r Hr. unfold uniqueSlug. by rewrite Hr by lia. }
  destruct (includes existingIds candidate) eqn:E.
  - destruct (uniqueSlug_loop_enough (S (length existingIds)) candidate existingIds 2)
      as [i Hi]; [lia|].
    pose proof (uniqueSlug_loop_Some _ _ _ _ _ Hi) as (Hle & Hfree & Hused).
    assert (Hfuel : forall fuel, (length existingIds < fuel)%nat ->
              uniqueSlug_fuel fuel candidate existingIds = Some (suffixed candidate i)).
    { intros fuel Hfuel. unfold uniqueSlug_fuel. rewrite E. cbn [negb].
      by rewrite (uniqueSlug_loop_fuel _ fuel _ _ _ _ Hi) by lia. }
    exists (suffixed candidate i).
    split; [done|]. split; [by apply Hrun|]. split; [done|].
    split.
    { intros Hnot. apply includes_false in Hnot. congruence. }
    intros _. by exists i.
  - assert (Hfuel : forall fuel, (length existingIds < fuel)%nat ->
              uniqueSlug_fuel fuel candidate existingIds = Some candidate).
    { intros fuel _. unfold uniqueSlug_fuel. by rewrite E. }
    exists candidate.
    split; [done|]. split; [by apply Hrun|].
    split; [by apply includes_false|].
    split; [done|].
    intros Hin. apply includes_true in Hin. congruence.
Qed.
Lemma replace_unit_app c r (a b : list Z) :
  replace_unit c r (a ++ b) = replace_unit c r a ++ replace_unit c r b.
Proof. unfold replace_unit. apply flat_map_app. Qed.

Lemma transliterate_replace (s : list Z) :
  replace_unit 0xE5 [97] (replace_unit 0xF8 [111] (replace_unit 0xE6 [97; 101] s))
  = transliterate s.
Proof.
  induction s as [|u s IH]; [reflexivity|].
  change (u :: s) with ([u] ++ s).
  unfold transliterate. rewrite flat_map_app. fold (transliterate s).
  rewrite !replace_unit_app, IH. f_equal.
  cbn [replace_unit flat_map app].
  destruct (Z.eqb_spec u 0xE6) as [->|H1]; [reflexivity|].
  cbn [replace_unit flat_map app].
  destruct (Z.eqb_spec u 0xF8) as [->|H2]; [reflexivity|].
  cbn [replace_unit flat_map app].
  destruct (Z.eqb_spec u 0xE5) as [->|H3]; reflexivity.
Qed.

Lemma hyphen_not_slug_char : is_slug_char hyphen = false.
Proof. reflexivity. Qed.

Lemma slug_char_not_hyphen u : is_slug_char u = true -> (u =? hyphen) = false.
Proof.
  intros H. destruct (Z.eqb_spec u hyphen) as [->|]; [|done].
  by rewrite hyphen_not_slug_char in H.
Qed.

(** The eager replacement of runs against the lazy one: the two agree up
    to the hyphen of a run that ends the string. *)
Lemma replace_runs_joined (s : list Z) :
  replace_runs_from nonslug [hyphen] false s
    = joined_from false s ++ (if ends_in_run false s then [hyphen] else [])
  /\ hyphen :: replace_runs_from nonslug [hyphen] true s
    = joined_from true s ++ (if ends_in_run true s then [hyphen] else []).
Proof.
  induction s as [|u s [IHf IHt]]; [done|].
  cbn [replace_runs_from joined_from ends_in_run].
  destruct (is_slug_char u) eqn:E; cbn [negb app].
  - rewrite IHf. done.
  - rewrite IHt. done.
Qed.

(** The second pass, [/-+/g], finds no run longer than one hyphen. *)
Lemma collapse_hyphens_id (s : list Z) :
  (forall b, replace_runs_from (fun u => u =? hyphen) [hyphen] b
               (replace_runs_from nonslug [hyphen] true s)
             = replace_runs_from nonslug [hyphen] true s)
  /\ replace_runs_from (fun u => u =? hyphen) [hyphen] false
       (replace_runs_from nonslug [hyphen] false s)
     = replace_runs_from nonslug [hyphen] false s.
Proof.
  induction s as [|u s [IHt IHf]]; [done|].
  cbn [replace_runs_from].
  destruct (is_slug_char u) eqn:E; cbn [negb app replace_runs_from].
  - rewrite (slug_char_not_hyphen u E), IHf. done.
  - split; [done|].
    change (hyphen =? hyphen) with true. cbn iota. cbn [app].
    by rewrite IHt.
Qed.

Lemma joined_true_start (s : list Z) :
  joined_from true s
  = match joined_start s with [] => [] | _ => hyphen :: joined_start s end.
Proof.
  induction s as [|u s IH]; [done|].
  cbn [joined_from joined_start].
  destruct (is_slug_char u); [done|]. apply IH.
Qed.

Lemma joined_start_empty (s : list Z) :
  joined_start s = [] -> ends_in_run true s = true.
Proof.
  induction s as [|u s IH]; [done|].
  cbn [joined_start ends_in_run].
  destruct (is_slug_char u); [done|]. apply IH.
Qed.

(** A joined string is empty or ends in a character of [a-z0-9]. *)
Lemma joined_from_last b (s : list Z) c :
  last (joined_from b s) = Some c -> is_slug_char c = true.
Proof.
  revert b. induction s as [|u s IH]; intros b; [done|].
  cbn [joined_from].
  destruct (is_slug_char u) eqn:E; [|apply IH].
  rewrite last_app. rewrite last_cons.
  destruct (last (joined_from false s)) as [c'|] eqn:El.
  - intros [= <-]. by apply (IH false).
  - intros [= <-]. done.
Qed.

Lemma joined_start_last (s : list Z) c :
  last (joined_start s) = Some c -> is_slug_char c = true.
Proof.
  induction s as [|u s IH]; [done|].
  cbn [joined_start].
  destruct (is_slug_char u) eqn:E; [|apply IH].
  rewrite last_cons.
  destruct (last (joined_from false s)) as [c'|] eqn:El.
  - intros [= <-]. by apply (joined_from_last false s).
  - intros [= <-]. done.
Qed.

Lemma strip_last_hyphen (l : list Z) : strip_last (l ++ [hyphen]) = l.
Proof. unfold strip_last. rewrite rev_unit. apply rev_involutive. Qed.

Lemma strip_last_keep (l : list Z) :
  (forall c, last l = Some c -> is_slug_char c = true) -> strip_last l = l.
Proof.
  intros H. destruct l as [|a l _] using rev_ind; [done|].
  unfold strip_last. rewrite rev_unit.
  specialize (H a). rewrite last_snoc in H. specialize (H eq_refl).
  destruct a as [|p|p]; try done.
  do 6 (destruct p as [p|p|]; try done).
Qed.

Lemma strip_edge_hyphens_eq (s : list Z) :
  strip_edge_hyphens s = strip_last (strip_first s).
Proof. reflexivity. Qed.

Lemma strip_first_slug_char u (l : list Z) :
  is_slug_char u = true -> strip_first (u :: l) = u :: l.
Proof.
  intros H. destruct u as [|p|p]; try done.
  do 6 (destruct p as [p|p|]; try done).
Qed.

Lemma strip_last_joined (l : list Z) (b : bool) :
  (forall c, last l = Some c -> is_slug_char c = true) ->
  strip_last (l ++ (if b then [hyphen] else [])) = l.
Proof.
  intros H. destruct b.
  - apply strip_last_hyphen.
  - rewrite app_nil_r. by apply strip_last_keep.
Qed.

(** Stripping the edges of the eager result leaves the lazy one. *)
Lemma strip_replace_runs (s : list Z) :
  strip_edge_hyphens (replace_runs nonslug [hyphen] s) = joined_start s.
Proof.
  unfold replace_runs. rewrite strip_edge_hyphens_eq.
  destruct (replace_runs_joined s) as [Hf _]. rewrite Hf. clear Hf.
  destruct s as [|u s]; [done|].
  cbn [joined_from joined_start ends_in_run].
  destruct (is_slug_char u) eqn:E; cbn [negb app].
  - rewrite strip_first_slug_char by done.
    change (u :: joined_from false s ++ ?x) with ((u :: joined_from false s) ++ x).
    apply strip_last_joined.
    intros c. rewrite last_cons.
    destruct (last (joined_from false s)) as [c'|] eqn:El.
    + intros [= <-]. by apply (joined_from_last false s).
    + intros [= <-]. done.
  - rewrite joined_true_start.
    destruct (joined_start s) as [|a l] eqn:Es.
    + rewrite (joined_start_empty s Es). done.
    + cbn [app]. change (strip_first (hyphen :: ?x)) with x.
      change (a :: l ++ ?x) with ((a :: l) ++ x).
      apply strip_last_joined. rewrite <- Es. apply joined_start_last.
Qed.

(** The lazy result against the words of the name. *)
Lemma joined_split (s : list Z) :
  match split_on nonslug s with
  | [] => False
  | w :: ws =>
      joined_from false s
        = w ++ flat_map (fun w' => hyphen :: w') (List.filter nonempty ws)
      /\ joined_from true s
        = flat_map (fun w' => hyphen :: w') (List.filter nonempty (w :: ws))
      /\ joined_start s = join_hyphen (List.filter nonempty (w :: ws))
  end.
Proof.
  induction s as [|u s IH]; [done|].
  cbn [split_on joined_from joined_start].
  destruct (is_slug_char u) eqn:E; cbn [negb].
  - destruct (split_on nonslug s) as [|w ws]; [done|].
    destruct IH as (IHf & IHt & IHs).
    cbn [List.filter nonempty join_hyphen flat_map app].
    rewrite IHf. done.
  - destruct (split_on nonslug s) as [|w ws]; [done|].
    destruct IH as (IHf & IHt & IHs).
    cbn [List.filter nonempty app].
    rewrite IHt, IHs. done.
Qed.

Lemma slugify_joined (name : list Z) :
  slugify name = joined_start (transliterate (toLowerCase name)).
Proof.
  unfold slugify. rewrite transliterate_replace.
  unfold replace_runs at 1.
  destruct (collapse_hyphens_id (transliterate (toLowerCase name))) as [_ H].
  unfold replace_runs. rewrite H.
  apply strip_replace_runs.
Qed.

Lemma slugify_refines (name : list Z) : slugify name = slugify_spec name.
Proof.
  rewrite slugify_joined. unfold slugify_spec.
  pose proof (joined_split (transliterate (toLowerCase name))) as H.
  destruct (split_on nonslug (transliterate (toLowerCase name))); [done|].
  by destruct H as (_ & _ & ->).
Qed.

Lemma joined_from_shape (s : list Z) :
  hyphens_inside true (joined_from false s) = true
  /\ hyphens_inside true (joined_from true s) = true.
Proof.
  induction s as [|u s [IHf IHt]]; [done|].
  cbn [joined_from]. destruct (is_slug_char u) eqn:E; [|done].
  cbn [app hyphens_inside]. rewrite E, hyphen_not_slug_char.
  done.
Qed.

Lemma joined_start_shape (s : list Z) : slug_shaped (joined_start s) = true.
Proof.
  induction s as [|u s IH]; [done|].
  cbn [joined_start]. destruct (is_slug_char u) eqn:E; [|done].
  cbn [slug_shaped hyphens_inside]. rewrite E.
  apply joined_from_shape.
Qed.

Lemma slugify_shape name : slug_shaped (slugify name) = true.
Proof. rewrite slugify_joined. apply joined_start_shape. Qed.

Example slugify_example : slugify (js "  --Mørk   16:9 ÆØÅ!--") = js "mork-16-9-aeoa".
Proof. vm_compute. reflexivity. Qed.

Example uniqueSlug_example :
  uniqueSlug (js "test") [js "test"; js "test-2"; js "x"] = js "test-3".
Proof. vm_compute. reflexivity. Qed.

(** ** Reads and writes of the content API *)

Section Requests.
Context (W : Platform).

Lemma String_startsWith_refl (n : list Z) : String_startsWith n n = true.
Proof. induction n as [|y n IH]; [done|]. cbn. by rewrite Z.eqb_refl. Qed.

Lemma String_includes_suffix (needle a : list Z) :
  String_includes needle (a ++ needle) = true.
Proof.
  induction a as [|x a IH].
  - destruct needle as [|y n]; [done|].
    cbn [app String_includes]. by rewrite String_startsWith_refl.
  - cbn [app String_includes]. rewrite IH. apply orb_true_r.
Qed.

Lemma getFileFromGitHub_run path token log :
  VersionManager.getFileFromGitHub W path token log
  = let url := contents_url VersionManager.OWNER VersionManager.REPO path ++ ref_main in
    (match fetch_get W url (token_prefix ++ token) with
     | inl e => inl e
     | inr resp =>
         if get_status resp =? 404 then inr None
         else if negb (status_ok (get_status resp)) then
           inl (Error (VersionManager.MSG_FETCH_FAILED
                         ++ Number_toString (get_status resp)))
         else
           match get_json resp with
           | None => inl SyntaxError
           | Some data =>
               match base64ToUtf8 (data_content data) with
               | inl e => inl e
               | inr content =>
                   inr (Some (VersionManager.mkFileData (data_sha data) content))
               end
           end
     end, log ++ [EvGet url (token_prefix ++ token)]).
Proof.
  unfold VersionManager.getFileFromGitHub, http_get, bind, emit, lift, ret,
    throw, get_resp_json.
  cbv zeta.
  destruct (fetch_get W _ _) as [e|resp]; [done|].
  destruct (get_status resp =? 404); [done|].
  destruct (status_ok (get_status resp)); cbn [negb]; [|done].
  destruct (get_json resp) as [data|]; [|done].
  unfold ret. destruct (base64ToUtf8 (data_content data)); done.
Qed.


Lemma saveFileToGitHub_run path content message token sha log :
  VersionManager.saveFileToGitHub W path content message token sha log
  = match utf8ToBase64 content with
    | inl e => (inl e, log)
    | inr b64 =>
        let body := VersionManager.put_body b64 message sha in
        let url := contents_url VersionManager.OWNER VersionManager.REPO path in
        (VersionManager.put_outcome
           (fetch_put W url (VersionManager.authorization token) body),
         log ++ [EvPut url (VersionManager.authorization token) body])
    end.
Proof.
  unfold VersionManager.saveFileToGitHub, http_put, VersionManager.put_outcome,
    VersionManager.put_body, VersionManager.authorization.
  unfold bind, gets, emit, lift, modify, ret, throw, put_resp_json, err_message.
  destruct (utf8ToBase64 content) as [e|b64]; [done|].
  cbn zeta.
  destruct (fetch_put W _ _ _) as [e|resp]; [done|].
  destruct (status_ok (put_status resp)); cbn [negb].
  - destruct (put_json resp); done.
  - destruct (put_status resp =? 401); [done|].
    destruct (put_status resp =? 409); [done|].
    destruct (put_status resp =? 422); [done|].
    by destruct (put_resp_json_or_empty resp).
Qed.




End Requests.




(** A failure whose body is the JSON [null]: for status 500 both writes
    throw a [TypeError], for status 409 the message of the conflict. *)
Example null_error_body :
  let server_error := World.answering (inr (mkGetResponse 404 None))
                        (inr (mkPutResponse 500 (Some None))) in
  let conflict := World.answering (inr (mkGetResponse 404 None))
                    (inr (mkPutResponse 409 (Some None))) in
  fst (VersionManager.saveFileToGitHub server_error (js "linje/versions.json")
         (js "{}") (js "Ny versjon: Test (linje)") (js "ghp_example") None [])
  = inl TypeError
  /\ fst (GithubSave.saveToGitHub server_error (js "tskjelde-bit") (js "grafer")
            (js "data.csv") (js "a,b") (js "Oppdater data 2026-01-15")
            (js "ghp_example") [])
     = inl TypeError
  /\ fst (VersionManager.saveFileToGitHub conflict (js "linje/versions.json")
            (js "{}") (js "Ny versjon: Test (linje)") (js "ghp_example") None [])
     = inl (Error VersionManager.MSG_CONFLICT).
Proof. vm_compute. done. Qed.

(** What a read makes of each response. *)
Lemma read_outcomes (W : Platform) (path token : list Z) (log : list Event)
    (resp : GetResponse) :
  fetch_get W
    (contents_url VersionManager.OWNER VersionManager.REPO path ++ ref_main)
    (token_prefix ++ token) = inr resp ->
  (get_status resp = 404 ->
   fst (VersionManager.getFileFromGitHub W path token log) = inr None) /\
  (get_status resp <> 404 -> status_ok (get_status resp) = false ->
   fst (VersionManager.getFileFromGitHub W path token log)
   = inl (Error (VersionManager.MSG_FETCH_FAILED ++ Number_toString (get_status resp)))
   /\ carries_status (fst (VersionManager.getFileFromGitHub W path token log))
        (get_status resp) = true).
Proof.
  intros Hresp. rewrite getFileFromGitHub_run. cbv zeta. rewrite Hresp. cbn [fst].
  split.
  - intros ->. reflexivity.
  - intros H404 Hok. apply Z.eqb_neq in H404. rewrite H404, Hok. cbn [negb].
    split; [done|]. cbn [carries_status]. apply String_includes_suffix.
Qed.

(** C3: where the code departs from the claim. Answered with status 401,
    both reads throw the error they throw for every other failure, the
    text [Kunne ikke hente fil: ] followed by the status code, and not the
    message about the invalid or expired token that a write answered with
    401 throws. *)
Theorem read_with_bad_credential :
  fst (VersionManager.getFileFromGitHub World.unauthorized
         (js "linje/versions.json") (js "ghp_expired") [])
  = inl (Error (js "Kunne ikke hente fil: 401"))
  /\ fst (GithubSave.getFileSha World.unauthorized (js "tskjelde-bit") (js "grafer")
            (js "data.csv") (js "ghp_expired") [])
     = inl (Error (js "Kunne ikke hente fil: 401"))
  /\ fst (VersionManager.getFileFromGitHub
            (World.answering (inr (mkGetResponse 500 None)) (inl TypeError))
            (js "linje/versions.json") (js "ghp_expired") [])
     = inl (Error (js "Kunne ikke hente fil: 500"))
  /\ fst (VersionManager.saveFileToGitHub
            (World.answering (inr (mkGetResponse 404 None))
               (inr (mkPutResponse 401 None)))
            (js "linje/versions.json") (js "{}") (js "Ny versjon: Test (linje)")
            (js "ghp_expired") None [])
     = inl (Error (js "Ugyldig eller utløpt token. Oppdater token i innstillinger.")).
Proof. vm_compute. done. Qed.

(** ** The mutating operations of the version manager *)

Import VersionManager.

Section Mutations.
Context (W : Platform).

Lemma getToken_run s : getToken s = (inr (stored_token s), s).
Proof. reflexivity. Qed.

(** The fetch of the latest remote state replaces the mapping and the
    tag by what [remote_state] describes. *)
Lemma getLatest_run token s :
  _getLatestFromGitHub W token s
  = let s1 := set_events
                (events s ++ [EvGet (get_url (_config s)) (authorization token)]) s in
    match remote_state W (_config s) token with
    | inl e => (inl e, s1)
    | inr (m, tag) => (inr tt, set_sha tag (set_versions m s1))
    end.
Proof.
  unfold _getLatestFromGitHub, remote_state, getFileFromGitHub, net, http_get, zoom.
  unfold bind, gets, emit, lift, modify, ret, throw, get_resp_json.
  cbn [events set_events _config fst snd].
  fold (get_url (_config s)). fold (authorization token).
  destruct (fetch_get W (get_url (_config s)) (authorization token)) as [e|resp]; [done|].
  destruct (get_status resp =? 404); [done|].
  destruct (status_ok (get_status resp)); cbn [negb]; [|done].
  destruct (get_json resp) as [data|]; [|done].
  unfold ret, throw.
  destruct (base64ToUtf8 (data_content data)) as [e|text]; [done|].
  cbn.
  destruct (JSON_parse W text) as [file|]; done.
Qed.

Lemma saveVersion_outcome name s :
  saveVersion W name s
  = match mutation_outcome W (Save name) s with
    | (inl e, s') => (inl e, s')
    | (inr _, s') =>
        (inr (uniqueSlug (slugify name)
                (Object_keys
                   (match remote_state W (_config s) (stored_token s) with
                    | inr (m, _) => m
                    | inl _ => ∅
                    end))), s')
    end.
Proof.
  unfold mutation_outcome.
  unfold saveVersion. unfold bind at 1. rewrite getToken_run.
  destruct (negb (truthy (Some (stored_token s)))); [done|].
  unfold bind at 1. rewrite getLatest_run. cbv zeta.
  destruct (remote_state W (_config s) _) as [e|[m tag]]; [destruct s; done|].
  run_monad. rewrite saveFileToGitHub_run. fold put_url.
  unfold mutated.
  destruct (utf8ToBase64 _) as [e|b64]; [destruct s; done|].
  run_monad. fold (put_url (_config s)).
  unfold message_of.
  destruct (put_outcome _) as [e|j]; destruct s; done.
Qed.

(** Each mutating operation runs as [mutation_outcome] lays out. *)
Lemma run_mutation_outcome mu s : run_mutation W mu s = mutation_outcome W mu s.
Proof.
  destruct mu as [name|id|id]; unfold run_mutation.
  - unfold bind. rewrite saveVersion_outcome.
    by destruct (mutation_outcome W (Save name) s) as [[e|[]] s'].
  - unfold mutation_outcome.
    unfold updateVersion. unfold bind at 1. rewrite getToken_run.
    destruct (negb (truthy (Some (stored_token s)))); [done|].
    unfold bind at 1. rewrite getLatest_run. cbv zeta.
    destruct (remote_state W (_config s) _) as [e|[m tag]]; [destruct s; done|].
    destruct s as [cfg vs sha ls ev proto].
    run_monad. unfold mutated, message_of. cbv zeta.
    destruct (found (Object_get proto m id)) eqn:Efound; cbn [negb]; [|done].
    unfold assign_config_and_date. run_monad.
    destruct (Object_get proto m id) as [[v|n| |j]|] eqn:Eg;
      [| | |destruct (Json_is_object j); [|done]|done];
      run_monad; rewrite saveFileToGitHub_run; fold put_url;
      (destruct (utf8ToBase64 _) as [e|b64]; [done|]);
      run_monad; fold (put_url cfg);
      destruct (put_outcome _) as [e|r]; done.
  - unfold mutation_outcome.
    unfold deleteVersion. unfold bind at 1. rewrite getToken_run.
    destruct (negb (truthy (Some (stored_token s)))); [done|].
    unfold bind at 1. rewrite getLatest_run. cbv zeta.
    destruct (remote_state W (_config s) _) as [e|[m tag]]; [destruct s; done|].
    run_monad. rewrite saveFileToGitHub_run. fold put_url.
    unfold mutated.
    destruct (utf8ToBase64 _) as [e|b64]; [destruct s; done|].
    run_monad. fold (put_url (_config s)).
    unfold message_of.
    destruct (put_outcome _) as [e|j]; destruct s; done.
Qed.

Lemma put_outcome_accepted answer :
  (exists j, put_outcome answer = inr j)
  <-> exists r j,
      answer = inr r /\ status_ok (put_status r) = true /\ put_json r = Some j.
Proof.
  split.
  - intros [j Hj]. destruct answer as [e|r]; [done|]. cbn in Hj.
    destruct (status_ok (put_status r)) eqn:Eok; cbn in Hj.
    + destruct (put_json r) as [j'|] eqn:Ej; [|done]. by exists r, j'.
    + repeat case_match; done.
  - intros (r & j & -> & Hok & Hj). exists j. cbn. by rewrite Hok, Hj.
Qed.

End Mutations.

(** C10. When [getToken] finds no token (nothing stored under the key,
    or the empty string) each of [saveVersion], [updateVersion] and
    [deleteVersion] throws its "no GitHub token set" error and leaves the
    whole state as it was: no request is logged, and the mapping, the tag
    and [localStorage] with its cache are unchanged. *)
Theorem no_token_no_request (W : Platform) (s : State) (name id : list Z) :
  fst (getToken s) = inr [] ->
  saveVersion W name s = (inl (Error MSG_NO_TOKEN_SETUP), s) /\
  updateVersion W id s = (inl (Error MSG_NO_TOKEN), s) /\
  deleteVersion W id s = (inl (Error MSG_NO_TOKEN), s).
Proof.
  rewrite getToken_run. cbn [fst]. intros [= Htok].
  split; [|split].
  - unfold saveVersion, bind. rewrite getToken_run, Htok. reflexivity.
  - unfold updateVersion, bind. rewrite getToken_run, Htok. reflexivity.
  - unfold deleteVersion, bind. rewrite getToken_run, Htok. reflexivity.
Qed.

Lemma no_token_no_request_witness :
  saveVersion World.fresh (js "Test") World.without_token
  = (inl (Error MSG_NO_TOKEN_SETUP), World.without_token) /\
  updateVersion World.fresh (js "test") World.without_token
  = (inl (Error MSG_NO_TOKEN), World.without_token) /\
  deleteVersion World.fresh (js "test") World.without_token
  = (inl (Error MSG_NO_TOKEN), World.without_token).
Proof.
  apply (no_token_no_request World.fresh World.without_token (js "Test") (js "test")).
  vm_compute. reflexivity.
Defined.

(** C1. A mutating operation run with a token first sends the [GET] of
    the store file. When that fetch fails, the operation throws the error
    of the fetch and sends nothing else. When the fetch yields a mapping
    [m] and a tag, the operation mutates [m]; an update that finds
    nothing to update throws, with [m] held and nothing written. In every
    other case the [GET] is followed at once by the one [PUT] of the run:
    it carries the encoding of the mutated mapping, the commit message
    and the tag of that fetch (no [sha] when there is none); no request
    comes after it, the mutated mapping and the tag are held, and the
    operation returns normally exactly when the write is accepted. *)
Theorem fetch_then_mutate_then_write (W : Platform) (mu : Mutation) (s : State) :
  truthy (Some (stored_token s)) = true ->
  (forall m, Forall (fun u => is_code_unit u = true) (JSON_stringify_file W m)) ->
  exists r s' rest,
    run_mutation W mu s = (r, s') /\
    events s'
    = events s
        ++ EvGet (get_url (_config s)) (authorization (stored_token s)) :: rest /\
    match remote_state W (_config s) (stored_token s) with
    | inl e => rest = [] /\ r = inl e
    | inr (m, tag) =>
        match mutated W (_config s) (Object_prototype s) mu m with
        | inl e => rest = [] /\ r = inl e /\ _versions s' = m /\ _sha s' = tag
        | inr (m', proto') =>
            exists body tail,
              rest = EvPut (put_url (_config s)) (authorization (stored_token s))
                       body :: tail /\
              utf8ToBase64 (JSON_stringify_file W m') = inr (body_content body) /\
              body_message body
              = message_of (_config s) (Object_prototype s) mu m /\
              body_branch body = main_branch /\
              body_sha body = (if truthy tag then tag else None) /\
              existsb is_network_event tail = false /\
              _versions s' = m' /\
              _sha s' = tag /\
              Object_prototype s' = proto' /\
              (r = inr tt <-> tail <> []) /\
              (r = inr tt <->
               write_accepted W (_config s) (stored_token s)
                 (JSON_stringify_file W m')
                 (message_of (_config s) (Object_prototype s) mu m) tag)
        end
    end.
Proof.
  intros Htok Htext. rewrite run_mutation_outcome.
  unfold mutation_outcome. rewrite Htok. cbn [negb].
  set (cfg := _config s). set (token := stored_token s).
  set (proto := Object_prototype s).
  destruct (remote_state W cfg token) as [e|[m tag]] eqn:Erem.
  { eexists _, _, []. split; [reflexivity|]. split; [reflexivity|]. done. }
  destruct (mutated W cfg proto mu m) as [e|[m' proto']] eqn:Emut.
  { eexists _, _, []. split; [reflexivity|]. split; [reflexivity|]. done. }
  destruct (utf8ToBase64_total (JSON_stringify_file W m') (Htext m'))
    as (b64 & Eenc & _).
  rewrite Eenc. cbv zeta.
  destruct (put_outcome _) as [e|j] eqn:Eput.
  - eexists _, _, [_]. split; [reflexivity|].
    split; [cbn [events]; by rewrite <- app_assoc|].
    exists (put_body b64 (message_of cfg proto mu m) tag), [].
    repeat split; try done.
    intros (b & resp & j & Hb & Hput & Hok & Hj).
    rewrite Eenc in Hb. injection Hb as <-.
    rewrite Hput in Eput. cbn in Eput. by rewrite Hok, Hj in Eput.
  - eexists _, _, [_; _; _]. split; [reflexivity|].
    split; [cbn [events]; by rewrite <- !app_assoc|].
    exists (put_body b64 (message_of cfg proto mu m) tag). eexists.
    repeat split; try done.
    intros _.
    destruct (proj1 (put_outcome_accepted _) (ex_intro _ j Eput))
      as (resp & j' & Hput & Hok & Hj).
    by exists b64, resp, j'.
Qed.

Lemma fetch_then_mutate_then_write_witness :
  exists s' body tail,
    run_mutation Scene.existing (Update (js "a")) World.with_token = (inr tt, s') /\
    events s'
    = [EvGet (get_url World.config) (authorization (js "ghp_example"));
       EvPut (put_url World.config) (authorization (js "ghp_example")) body]
        ++ tail /\
    body_sha body = Some (js "3f1c9a") /\
    body_content body = js "e3N0b3JlZH0=" /\
    _versions s'
    = <[js "a" := Version.mkVersionRecord (js "X") (js "a")
                    (Some (js "2024-03-01T08:00:00.000Z"))
                    (Some (js "2026-01-15T10:30:00.000Z")) (JObject [])]>
        Scene.stored.
Proof.
  destruct (fetch_then_mutate_then_write Scene.existing (Update (js "a"))
              World.with_token)
    as (r & s' & rest & Hrun & Hev & H).
  { vm_compute. reflexivity. }
  { intros m. vm_compute. by repeat constructor. }
  assert (Hrem : remote_state Scene.existing (_config World.with_token)
                   (stored_token World.with_token)
                 = inr (Scene.stored, Some (js "3f1c9a")))
    by (vm_compute; reflexivity).
  rewrite Hrem in H.
  assert (Hmut : mutated Scene.existing (_config World.with_token)
                   (Object_prototype World.with_token) (Update (js "a"))
                   Scene.stored
                 = inr (<[js "a" := Version.mkVersionRecord (js "X") (js "a")
                                     (Some (js "2024-03-01T08:00:00.000Z"))
                                     (Some (js "2026-01-15T10:30:00.000Z"))
                                     (JObject [])]> Scene.stored, None))
    by (vm_compute; reflexivity).
  rewrite Hmut in H.
  destruct H as (body & tail & -> & Henc & _ & _ & Hsha & _ & Hvs & _ & _ & _ & Hok).
  exists s', body, tail. rewrite Hrun. split.
  - f_equal. apply Hok.
    exists (js "e3N0b3JlZH0="), World.created,
      (Some (mkPutJson None (Some (js "https://github.com/tskjelde-bit/grafer/commit/0")))).
    repeat split; vm_compute; reflexivity.
  - split; [rewrite Hev; vm_compute; reflexivity|].
    split; [exact Hsha|]. split; [|exact Hvs].
    assert (Henc' : utf8ToBase64 (JSON_stringify_file Scene.existing
                       (<[js "a" := Version.mkVersionRecord (js "X") (js "a")
                                     (Some (js "2024-03-01T08:00:00.000Z"))
                                     (Some (js "2026-01-15T10:30:00.000Z"))
                                     (JObject [])]> Scene.stored))
                    = inr (js "e3N0b3JlZH0=")) by (vm_compute; reflexivity).
    rewrite Henc' in Henc. by injection Henc as <-.
Defined.

(** The name [deleteVersion] gives a missing id in its commit message
    is the id, unless the id names a function of [Object.prototype]. *)
Lemma name_or_missing (m : gmap (list Z) VersionRecord) (id : list Z) :
  m !! id = None ->
  id ∉ KEY_CONSTRUCTOR :: Object_prototype_methods ->
  name_or (Object_get None m id) id = id.
Proof.
  intros Hid Hnot. apply not_elem_of_cons in Hnot as [H1 H2].
  unfold Object_get. rewrite Hid.
  destruct (bool_decide (id = KEY_PROTO)); [done|].
  rewrite bool_decide_eq_false_2 by done.
  by rewrite bool_decide_eq_false_2 by done.
Qed.

(** C7. After the fetch has yielded the mapping [m], [deleteVersion id]
    leaves the mapping [m] without [id]. When [m] has no [id] that is [m]
    itself, no error is thrown for the missing id, and the call returns
    normally exactly when the write of the unchanged mapping is accepted;
    the commit message of that write names the id, or what
    [_versions[id]?.name] finds on [Object.prototype]: it names the id
    unless the id names a function of [Object.prototype]. When [m] has
    [id], the record is gone and every other id keeps its record. *)
Theorem deleteVersion_idempotent (W : Platform) (id : list Z) (s : State)
    (m : gmap (list Z) VersionRecord) (tag : option (list Z)) :
  truthy (Some (stored_token s)) = true ->
  remote_state W (_config s) (stored_token s) = inr (m, tag) ->
  exists r s',
    deleteVersion W id s = (r, s') /\
    _versions s' = delete id m /\
    (m !! id = None ->
       _versions s' = m /\
       (r = inr tt <->
        write_accepted W (_config s) (stored_token s) (JSON_stringify_file W m)
          (commit_message MSG_DELETE
             (name_or (Object_get (Object_prototype s) m id) id)
             (chartType (_config s))) tag)) /\
    (forall v, m !! id = Some v ->
       _versions s' !! id = None /\
       forall id', id' <> id -> _versions s' !! id' = m !! id') /\
    (m !! id = None ->
     Object_prototype s = None ->
     id ∉ KEY_CONSTRUCTOR :: Object_prototype_methods ->
     name_or (Object_get (Object_prototype s) m id) id = id).
Proof.
  intros Htok Hrem.
  assert (Hname : m !! id = None ->
            Object_prototype s = None ->
            id ∉ KEY_CONSTRUCTOR :: Object_prototype_methods ->
            name_or (Object_get (Object_prototype s) m id) id = id).
  { intros Hid -> Hnot. by apply name_or_missing. }
  change (deleteVersion W id s) with (run_mutation W (Delete id) s).
  rewrite run_mutation_outcome. unfold mutation_outcome.
  rewrite Htok, Hrem. cbn [negb mutated message_of].
  set (cfg := _config s). set (token := stored_token s).
  assert (Hlook : forall v, m !! id = Some v ->
            delete id m !! id = None /\
            forall id', id' <> id -> delete id m !! id' = m !! id').
  { intros v _. split; [apply lookup_delete_eq|].
    intros id' Hne. by apply lookup_delete_ne. }
  destruct (utf8ToBase64 (JSON_stringify_file W (delete id m))) as [e|b64] eqn:Eenc.
  { eexists _, _. split; [reflexivity|]. split; [done|]. split; [|done].
    intros Hnone. rewrite delete_id in Eenc by done.
    split; [by rewrite delete_id|].
    split; [done|]. intros (b & ? & ? & Hb & _). congruence. }
  cbv zeta.
  destruct (put_outcome _) as [e|j] eqn:Eput.
  - eexists _, _. split; [reflexivity|]. split; [done|]. split; [|done].
    intros Hnone.
    rewrite delete_id in Eenc by done.
    split; [by rewrite delete_id|].
    split; [done|]. intros (b & resp & j & Hb & Hput & Hok & Hj).
    rewrite Eenc in Hb. injection Hb as <-.
    fold cfg token in Hput. rewrite Hput in Eput. cbn in Eput.
    by rewrite Hok, Hj in Eput.
  - eexists _, _. split; [reflexivity|]. split; [done|]. split; [|done].
    intros Hnone.
    rewrite delete_id in Eenc by done.
    split; [by rewrite delete_id|].
    split; [|done]. intros _.
    destruct (proj1 (put_outcome_accepted _) (ex_intro _ j Eput))
      as (resp & j' & Hput & Hok & Hj).
    by exists b64, resp, j'.
Qed.

Lemma deleteVersion_idempotent_witness :
  exists s',
    deleteVersion World.fresh (js "ukjent") World.with_token = (inr tt, s') /\
    _versions s' = ∅.
Proof.
  destruct (deleteVersion_idempotent World.fresh (js "ukjent") World.with_token
              ∅ None ltac:(vm_compute; reflexivity) ltac:(vm_compute; reflexivity))
    as (r & s' & Hrun & _ & Habsent & _).
  destruct (Habsent (lookup_empty _)) as [Hsame Hok].
  exists s'. split; [|exact Hsame].
  rewrite Hrun. f_equal. apply Hok.
  exists (js "e30="), World.created,
    (Some (mkPutJson None (Some (js "https://github.com/tskjelde-bit/grafer/commit/0")))).
  repeat split; vm_compute; reflexivity.
Defined.

Lemma uniqueSlug_of_none (slug : list Z) : uniqueSlug slug [] = slug.
Proof. reflexivity. Qed.

(** C6. [slugify] is a function of the name alone. Its result is the
    words of the lower-cased and transliterated name, that is, its
    maximal runs of [a-z0-9], joined by single hyphens; so it has only
    [a-z0-9] and hyphens, and every hyphen stands between two characters
    of [a-z0-9]. [slugify("Mørk 16:9")] is ["mork-16-9"], and saving under
    that name into an empty store, when the write is accepted, returns the
    id ["mork-16-9"] and leaves the one record under it. *)
Theorem slugify_correct (W : Platform) (s : State) (tag : option (list Z)) :
  (forall name,
     slugify name = slugify_spec name /\ slug_shaped (slugify name) = true) /\
  slugify (js "Mørk 16:9") = js "mork-16-9" /\
  (truthy (Some (stored_token s)) = true ->
   remote_state W (_config s) (stored_token s) = inr (∅, tag) ->
   write_accepted W (_config s) (stored_token s)
     (JSON_stringify_file W
        {[ js "mork-16-9" :=
             Version.mkVersionRecord (js "Mørk 16:9") (js "mork-16-9")
               (Some (Date_now_toISOString W)) (Some (Date_now_toISOString W))
               (getCurrentConfig (_config s)) ]})
     (commit_message MSG_NEW (js "Mørk 16:9") (chartType (_config s))) tag ->
   exists s',
     saveVersion W (js "Mørk 16:9") s = (inr (js "mork-16-9"), s') /\
     _versions s'
     = {[ js "mork-16-9" :=
            Version.mkVersionRecord (js "Mørk 16:9") (js "mork-16-9")
              (Some (Date_now_toISOString W)) (Some (Date_now_toISOString W))
              (getCurrentConfig (_config s)) ]}).
Proof.
  assert (Hslug : slugify (js "Mørk 16:9") = js "mork-16-9")
    by (vm_compute; reflexivity).
  split; [|split; [exact Hslug|]].
  { intros name. split; [apply slugify_refines|apply slugify_shape]. }
  intros Htok Hrem (b64 & resp & j & Henc & Hput & Hok & Hj).
  rewrite saveVersion_outcome. unfold mutation_outcome.
  rewrite Htok, Hrem. cbn [negb mutated message_of].
  unfold Object_keys. rewrite map_to_list_empty. cbn [fmap list_fmap].
  rewrite uniqueSlug_of_none, Hslug, insert_empty, Henc. cbv zeta.
  rewrite Hput. unfold put_outcome. rewrite Hok, Hj. cbn [negb].
  eexists. split; reflexivity.
Qed.

Lemma slugify_correct_witness :
  exists s',
    saveVersion World.fresh (js "Mørk 16:9") World.with_token
    = (inr (js "mork-16-9"), s').
Proof.
  destruct (slugify_correct World.fresh World.with_token None) as (_ & _ & Hsave).
  destruct Hsave as (s' & Hrun & _).
  - vm_compute. reflexivity.
  - vm_compute. reflexivity.
  - exists (js "e30="), World.created,
      (Some (mkPutJson None (Some (js "https://github.com/tskjelde-bit/grafer/commit/0")))).
    repeat split; vm_compute; reflexivity.
  - exists s'. exact Hrun.
Defined.

(** ** The listing by recency *)

Section Listing.
Context (W : Platform).

(** Mapping the ids to their records gives every record once. *)
Lemma omap_lookup_keys (vs : gmap (list Z) VersionRecord) :
  omap (fun id => vs !! id) (Object_keys vs) = (map_to_list vs).*2.
Proof.
  unfold Object_keys.
  assert (H : Forall (fun kv => vs !! kv.1 = Some kv.2) (map_to_list vs)).
  { apply Forall_forall. intros [k v] Hin. by apply elem_of_map_to_list. }
  induction H as [|[k v] l Hkv _ IH]; [done|].
  cbn in *. by rewrite Hkv, IH.
Qed.

Global Instance sorts_before_total : Total (sorts_before W).
Proof.
  intros a b. unfold sorts_before, compareFn.
  destruct (recency W a), (recency W b); cbn; lia.
Qed.

(** With valid dates the comparator orders the records by time. *)
Lemma sorts_before_valid a b ta tb :
  recency W a = Some ta -> recency W b = Some tb ->
  sorts_before W a b <-> tb <= ta.
Proof.
  intros Ha Hb. unfold sorts_before, compareFn. rewrite Ha, Hb. cbn. lia.
Qed.

Lemma Sorted_valid_StronglySorted (l : list VersionRecord) :
  Forall (fun v => is_Some (recency W v)) l ->
  Sorted (sorts_before W) l ->
  StronglySorted (no_later_than W) l.
Proof.
  intros Hvalid Hsorted.
  assert (Hs : Sorted (no_later_than W) l).
  { induction Hsorted as [|a l Hs IH Hhd]; [constructor|].
    apply Forall_cons in Hvalid as [[ta Ha] Hvalid].
    constructor; [by apply IH|].
    destruct Hhd as [|b l' Hab]; constructor.
    apply Forall_cons in Hvalid as [[tb Hb] _].
    exists ta, tb. split; [done|]. split; [done|].
    by apply (sorts_before_valid a b). }
  apply Sorted_StronglySorted; [|done].
  intros a b c (ta & tb & Ha & Hb & Hab) (tb' & tc & Hb' & Hc & Hbc).
  exists ta, tc. split; [done|]. split; [done|].
  rewrite Hb in Hb'. injection Hb' as <-. lia.
Qed.

Lemma recency_updatedAt (v : VersionRecord) :
  truthy (Version.updatedAt v) = true ->
  recency W v = Date_getTime W (Version.updatedAt v).
Proof. intros H. unfold recency, or_else. by rewrite H. Qed.

Lemma recency_createdAt (v : VersionRecord) :
  Version.updatedAt v = None -> recency W v = Date_getTime W (Version.createdAt v).
Proof. intros H. unfold recency, or_else. by rewrite H. Qed.

End Listing.

(** C8, as amended. The listing holds every record of the mapping once.
    When every record has a valid date (its [updatedAt], or its
    [createdAt] when [updatedAt] is absent or empty) each record is at
    least as recent as all the records after it. A store of two records,
    [a] updated at [t1] and [b] updated at a later [t2], is listed as [b]
    then [a]. *)
Theorem sorted_by_recency_ordered (W : Platform)
    (vs : gmap (list Z) VersionRecord) :
  sorted_by_recency W vs ≡ₚ (map_to_list vs).*2 /\
  (map_Forall (fun _ v => is_Some (recency W v)) vs ->
   StronglySorted (no_later_than W) (sorted_by_recency W vs)) /\
  (forall v, Version.updatedAt v = None ->
             recency W v = Date_getTime W (Version.createdAt v)) /\
  (forall a b ra rb t1 t2,
     a <> b ->
     truthy (Version.updatedAt ra) = true ->
     Date_getTime W (Version.updatedAt ra) = Some t1 ->
     truthy (Version.updatedAt rb) = true ->
     Date_getTime W (Version.updatedAt rb) = Some t2 ->
     t1 < t2 ->
     sorted_by_recency W (<[a := ra]> {[b := rb]}) = [rb; ra]).
Proof.
  assert (Hperm : forall vs : gmap (list Z) VersionRecord,
            sorted_by_recency W vs ≡ₚ (map_to_list vs).*2).
  { intros m. unfold sorted_by_recency, Array_sort.
    rewrite merge_sort_Permutation. by rewrite omap_lookup_keys. }
  assert (Hsorted : forall vs : gmap (list Z) VersionRecord,
            Sorted (sorts_before W) (sorted_by_recency W vs)).
  { intros m. unfold sorted_by_recency, Array_sort.
    apply Sorted_merge_sort, _. }
  split; [apply Hperm|]. split; [|split].
  - intros Hvalid. apply Sorted_valid_StronglySorted; [|apply Hsorted].
    rewrite Hperm. apply Forall_forall. intros v Hv.
    apply list_elem_of_fmap in Hv as ([k v'] & -> & Hin).
    apply elem_of_map_to_list in Hin. by apply (Hvalid k).
  - apply recency_createdAt.
  - intros a b ra rb t1 t2 Hab Hu1 Ht1 Hu2 Ht2 Hlt.
    rewrite <- (recency_updatedAt W ra Hu1) in Ht1.
    rewrite <- (recency_updatedAt W rb Hu2) in Ht2.
    pose proof (Hperm (<[a := ra]> {[b := rb]})) as Hp.
    pose proof (Hsorted (<[a := ra]> {[b := rb]})) as Hs.
    rewrite map_to_list_insert in Hp by (by rewrite lookup_singleton_ne).
    rewrite map_to_list_singleton in Hp. cbn in Hp.
    destruct (sorted_by_recency W (<[a := ra]> {[b := rb]})) as [|x [|y [|z l]]].
    + by apply Permutation_nil_l in Hp.
    + apply Permutation_length in Hp. done.
    + apply Permutation_length_2_inv in Hp.
      destruct Hp as [[= <- <-]|[= <- <-]]; [|done].
      exfalso. apply Sorted_inv in Hs as [_ Hhd]. apply HdRel_inv in Hhd.
      apply (sorts_before_valid W _ _ t1 t2) in Hhd; [lia|done..].
    + apply Permutation_length in Hp. done.
Qed.

Lemma sorted_by_recency_ordered_witness :
  let vs := <[js "a" := World.version_a]> {[ js "b" := World.version_b ]} in
  StronglySorted (no_later_than World.dated) (sorted_by_recency World.dated vs) /\
  sorted_by_recency World.dated vs = [World.version_b; World.version_a].
Proof.
  intros vs.
  destruct (sorted_by_recency_ordered World.dated vs)
    as (_ & Hsorted & _ & Hscenario).
  split.
  - apply Hsorted. apply map_Forall_insert_2.
    + exists 2025. vm_compute. reflexivity.
    + apply map_Forall_singleton. exists 2026. vm_compute. reflexivity.
  - apply (Hscenario (js "a") (js "b") World.version_a World.version_b 2025 2026).
    + vm_compute. discriminate.
    + vm_compute. reflexivity.
    + vm_compute. reflexivity.
    + vm_compute. reflexivity.
    + vm_compute. reflexivity.
    + lia.
Defined.

(** C8, as stated, fails: the difference of two dates of which one is
    invalid is NaN, which the sort takes for zero, so that records
    without a valid date stand between two records and hide the one from
    the other. The store [edited_by_hand] is listed as it stands in the
    file, the record updated in 2025 before the one updated in 2026. *)
Lemma listing_with_invalid_dates :
  sorted_by_recency World.dated World.edited_by_hand
  = [World.version_host; World.version_utkast; World.version_vinter;
     World.version_sommer]
  /\ map (recency World.dated)
       (sorted_by_recency World.dated World.edited_by_hand)
     = [Some 2025; None; None; Some 2026]
  /\ ~ StronglySorted (no_later_than World.dated)
        (sorted_by_recency World.dated World.edited_by_hand).
Proof.
  assert (H : sorted_by_recency World.dated World.edited_by_hand
              = [World.version_host; World.version_utkast; World.version_vinter;
                 World.version_sommer]) by (vm_compute; reflexivity).
  rewrite H. split; [done|]. split; [vm_compute; reflexivity|].
  intros Hs. apply StronglySorted_inv in Hs as [_ Hall].
  apply Forall_inv_tail, Forall_inv_tail, Forall_inv in Hall.
  destruct Hall as (ta & tb & Ha & Hb & Hle).
  vm_compute in Ha, Hb. injection Ha as <-. injection Hb as <-. lia.
Qed.

(** ** The embed resizer *)

Lemma embed_iframes_set_height test h p :
  embed_iframes (set_height_where test h p)
  = map (fun f => if test f then mkIframe (iframe_src f) (contentWindow f) h else f)
      (embed_iframes p).
Proof.
  unfold embed_iframes, set_height_where. cbn [containers].
  induction (containers p) as [|c cs IH]; [done|].
  cbn [map flat_map container_iframes]. by rewrite map_app, IH.
Qed.

Lemma set_height_where_none test h p :
  Forall (fun f => test f = false) (embed_iframes p) ->
  set_height_where test h p = p.
Proof.
  unfold embed_iframes, set_height_where. destruct p as [cs w]. cbn [containers next_window].
  intros H. f_equal.
  induction cs as [|c cs IH]; [done|].
  cbn [flat_map] in H. apply Forall_app in H as [Hc Hcs].
  cbn [map]. rewrite IH by done. f_equal.
  destruct c as [src fs]. cbn [dataset_src container_iframes] in *. f_equal.
  induction Hc as [|f fs Hf _ IHf]; [done|].
  cbn [map]. by rewrite Hf, IHf.
Qed.

Lemma fold_create_loaded (create : list Container * Z -> Container -> list Container * Z) h :
  (forall done w c, exists c' w',
      create (done, w) c = (done ++ [c'], w') /\ container_loaded h c c') ->
  forall cs done w,
    exists cs' w', fold_left create cs (done, w) = (done ++ cs', w') /\
                   Forall2 (container_loaded h) cs cs'.
Proof.
  intros Hstep cs. induction cs as [|c cs IH]; intros done w.
  - exists [], w. by rewrite app_nil_r.
  - cbn [fold_left]. destruct (Hstep done w c) as (c' & w' & -> & Hc).
    destruct (IH (done ++ [c']) w') as (cs' & w'' & -> & Hcs).
    exists (c' :: cs'), w''. rewrite <- app_assoc. by split; [|constructor].
Qed.

Lemma Embed_load_loaded p :
  Forall2 (container_loaded Embed.INITIAL_HEIGHT) (containers p) (containers (Embed.load p)).
Proof.
  unfold Embed.load.
  destruct (fold_create_loaded Embed.create_iframe Embed.INITIAL_HEIGHT) with
    (cs := containers p) (done := @nil Container) (w := next_window p)
    as (cs' & w' & -> & H); [|done].
  intros done w c. unfold Embed.create_iframe, container_loaded.
  destruct (truthy (dataset_src c)); eauto 10.
Qed.

Lemma EmbedCopy_load_loaded p :
  Forall2 (container_loaded EmbedCopy.INITIAL_HEIGHT) (containers p) (containers (EmbedCopy.load p)).
Proof.
  unfold EmbedCopy.load.
  destruct (fold_create_loaded EmbedCopy.create_iframe EmbedCopy.INITIAL_HEIGHT) with
    (cs := containers p) (done := @nil Container) (w := next_window p)
    as (cs' & w' & -> & H); [|done].
  intros done w c. unfold EmbedCopy.create_iframe, container_loaded.
  destruct (truthy (dataset_src c)); eauto 10.
Qed.

Lemma loaded_fresh_heights h cs cs' :
  Forall2 (container_loaded h) cs cs' ->
  Forall (fun c => container_iframes c = []) cs ->
  Forall (fun f => style_height f = h) (flat_map container_iframes cs').
Proof.
  induction 1 as [|c c' cs cs' Hc _ IH]; intros Hfresh; [constructor|].
  apply Forall_cons in Hfresh as [Hc0 Hfresh].
  cbn [flat_map]. apply Forall_app. split; [|by apply IH].
  destruct Hc as [[_ ->]|[_ [w ->]]].
  - rewrite Hc0. constructor.
  - cbn. rewrite Hc0. by repeat constructor.
Qed.

(** Decimal numbers and doubles agree on the heights up to 10000. *)
Lemma below_cases (N : Z) (P : Z -> bool) :
  forallb (fun n => P (Z.of_nat n)) (seq 0 (S (Z.to_nat N))) = true ->
  forall i, 0 <= i <= N -> P i = true.
Proof.
  intros H i Hi. rewrite forallb_forall in H.
  specialize (H (Z.to_nat i)). rewrite Z2Nat.id in H by lia.
  apply H, in_seq. lia.
Qed.

Lemma integral_heights (n : Z) :
  0 <= n <= 10000 ->
  Number.toString (PrimFloat.add (Number.of_Z n) (Number.of_Z 5))
  = Number_toString (n + 5)
  /\ Number.toString (Number.of_Z n) = Number_toString n.
Proof.
  intros Hn.
  pose proof (below_cases 10000
    (fun n => bool_decide
                (Number.toString (PrimFloat.add (Number.of_Z n) (Number.of_Z 5))
                 = Number_toString (n + 5))
              && bool_decide (Number.toString (Number.of_Z n) = Number_toString n)))
    as H.
  specialize (H ltac:(vm_compute; reflexivity) n ltac:(lia)). cbv beta in H.
  apply andb_prop in H as [H1 H2].
  by apply bool_decide_eq_true_1 in H1, H2.
Qed.

(** C9. A [grafer-resize] message of height [h], any number, whose
    source is window [w] assigns to the height of every embed iframe
    whose content window is [w] the text of [h + 5] followed by [px] in
    embed.js and the text of [h] followed by [px] in its second copy, the
    sum being the sum of two numbers of JavaScript (doubles) and the text
    the one JavaScript gives a number; the other iframes are left as they
    are, and a message whose source is the content window of no embed
    iframe changes nothing. For a whole number of pixels [n] up to 10000
    the two texts are the decimal numbers [n + 5] and [n]. Evaluating the
    script gives each container with a [data-src] one more iframe, 600
    pixels high in embed.js and 400 in the copy, so that on a page whose
    containers start empty every iframe has that height before a message
    arrives. A message of height 350 makes it 355 and 350 pixels. *)
Theorem resizer_sets_height (p : Page) (e : MessageEvent) :
  (forall h w,
     e = mkMessageEvent (Some (mkMessageData GRAFER_RESIZE h)) (Some w) ->
     embed_iframes (Embed.on_message e p)
       = map (resize_to w
                (Number.toString (PrimFloat.add h (Number.of_Z 5)) ++ PX))
           (embed_iframes p) /\
     embed_iframes (EmbedCopy.on_message e p)
       = map (resize_to w (Number.toString h ++ PX)) (embed_iframes p)) /\
  (Forall (fun f => Some (contentWindow f) <> source e) (embed_iframes p) ->
     Embed.on_message e p = p /\ EmbedCopy.on_message e p = p) /\
  (Forall2 (container_loaded Embed.INITIAL_HEIGHT)
     (containers p) (containers (Embed.load p)) /\
   Forall2 (container_loaded EmbedCopy.INITIAL_HEIGHT)
     (containers p) (containers (EmbedCopy.load p)) /\
   (Forall (fun c => container_iframes c = []) (containers p) ->
    Forall (fun f => style_height f = js "600px") (embed_iframes (Embed.load p)) /\
    Forall (fun f => style_height f = js "400px")
      (embed_iframes (EmbedCopy.load p)))) /\
  (forall n, 0 <= n <= 10000 ->
     Number.toString (PrimFloat.add (Number.of_Z n) (Number.of_Z 5))
     = Number_toString (n + 5)
     /\ Number.toString (Number.of_Z n) = Number_toString n) /\
  Number.toString (PrimFloat.add (Number.of_Z 350) (Number.of_Z 5)) ++ PX
  = js "355px" /\
  Number.toString (Number.of_Z 350) ++ PX = js "350px".
Proof.
  split; [|split; [|split; [|split]]].
  - intros h w ->. unfold Embed.on_message, EmbedCopy.on_message.
    cbn [data source data_type data_height].
    rewrite bool_decide_eq_true_2 by done.
    rewrite !embed_iframes_set_height. split.
    + apply map_ext. intros f. unfold resize_to.
      destruct (decide (contentWindow f = w)) as [Hw|Hw].
      * rewrite !bool_decide_eq_true_2; congruence.
      * rewrite !bool_decide_eq_false_2; congruence.
    + apply map_ext. intros f. unfold resize_to.
      destruct (decide (contentWindow f = w)) as [Hw|Hw].
      * rewrite !bool_decide_eq_true_2; congruence.
      * rewrite !bool_decide_eq_false_2; congruence.
  - intros Hnone.
    assert (Hf : Forall (fun f => bool_decide (Some (contentWindow f) = source e) = false)
                   (embed_iframes p)).
    { eapply Forall_impl; [exact Hnone|]. intros f Hf. by apply bool_decide_eq_false_2. }
    unfold Embed.on_message, EmbedCopy.on_message.
    destruct (data e) as [d|]; [|done].
    destruct (bool_decide (data_type d = GRAFER_RESIZE)); [|done].
    by rewrite !set_height_where_none.
  - split; [apply Embed_load_loaded|]. split; [apply EmbedCopy_load_loaded|].
    intros Hfresh. split.
    + replace (js "600px") with Embed.INITIAL_HEIGHT by (vm_compute; reflexivity).
      apply (loaded_fresh_heights _ _ _ (Embed_load_loaded p) Hfresh).
    + replace (js "400px") with EmbedCopy.INITIAL_HEIGHT by (vm_compute; reflexivity).
      apply (loaded_fresh_heights _ _ _ (EmbedCopy_load_loaded p) Hfresh).
  - apply integral_heights.
  - repeat split; vm_compute; reflexivity.
Qed.

(** Heights that are no small whole numbers: half a pixel is kept; at
    [2^53], where the doubles are two apart, the sum with 5 is the even
    neighbour; a height that is no number stays none. *)
Example resize_doubles :
  let half := PrimFloat.div (Number.of_Z 701) (Number.of_Z 2) in
  let nan := PrimFloat.div (Number.of_Z 0) (Number.of_Z 0) in
  Number.toString (PrimFloat.add half (Number.of_Z 5)) ++ PX = js "355.5px" /\
  Number.toString half ++ PX = js "350.5px" /\
  Number.toString (PrimFloat.add (Number.of_Z (2 ^ 53)) (Number.of_Z 5)) ++ PX
  = js "9007199254740996px" /\
  Number.toString (PrimFloat.add nan (Number.of_Z 5)) ++ PX = js "NaNpx".
Proof. vm_compute. done. Qed.

(** The scenario of the specification on a page with two embeds. *)
Example resize_350 :
  let page := Embed.load
                (mkPage [mkContainer (Some (js "https://tskjelde-bit.github.io/grafer/linje/?v=a")) [];
                         mkContainer (Some (js "https://tskjelde-bit.github.io/grafer/linje/?v=b")) []]
                   0) in
  let message :=
    mkMessageEvent (Some (mkMessageData (js "grafer-resize") (Number.of_Z 350)))
      (Some 1) in
  map style_height (embed_iframes page) = [js "600px"; js "600px"] /\
  map style_height (embed_iframes (Embed.on_message message page))
  = [js "600px"; js "355px"].
Proof. vm_compute. done. Qed.

(** * More of the scripts: properties *)

(** ** The encoding utility on every string *)

Lemma filter_whitespace_newlines (y : list Z) :
  filter (fun c => is_ascii_whitespace c = false) (remove_newlines y)
  = filter (fun c => is_ascii_whitespace c = false) y.
Proof.
  unfold remove_newlines.
  induction y as [|c y IH]; [done|].
  rewrite !filter_cons. destruct (decide (c <> 10)) as [Hc|Hc].
  - rewrite filter_cons. by rewrite IH.
  - assert (c = 10) as -> by lia. rewrite IH. by rewrite decide_False by done.
Qed.

Lemma atob_whitespace (y y' : list Z) :
  filter (fun c => is_ascii_whitespace c = false) y
  = filter (fun c => is_ascii_whitespace c = false) y' ->
  atob y = atob y'.
Proof. unfold atob. by intros ->. Qed.


Lemma toWellFormed_cons u t :
  toWellFormed (u :: t)
  = if is_high_surrogate u then
      match t with
      | v :: t' =>
          if is_low_surrogate v then u :: v :: toWellFormed t'
          else 0xFFFD :: toWellFormed t
      | [] => [0xFFFD]
      end
    else if is_low_surrogate u then 0xFFFD :: toWellFormed t
    else u :: toWellFormed t.
Proof. by destruct t. Qed.

Lemma toWellFormed_units (s : list Z) :
  Forall (fun u => is_code_unit u = true) s ->
  isWellFormed (toWellFormed s) = true
  /\ to_scalar_values (toWellFormed s) = to_scalar_values s.
Proof.
  induction s as [|u|u v t IHt IHv] using list_ind_pairs; intros Hs.
  - done.
  - apply Forall_cons in Hs as [Hu _].
    rewrite toWellFormed_cons, (to_scalar_values_cons u).
    unfold is_code_unit in Hu.
    destruct (is_high_surrogate u) eqn:Eh; [by vm_compute|].
    destruct (is_low_surrogate u) eqn:El; [by vm_compute|].
    rewrite isWellFormed_cons, to_scalar_values_cons, Eh, El.
    unfold is_code_unit. split; [|done]. cbn. lia.
  - apply Forall_cons in Hs as [Hu Hs].
    pose proof Hs as Hvt. apply Forall_cons in Hs as [Hv Ht].
    specialize (IHt Ht). specialize (IHv Hvt).
    destruct IHt as [IHt1 IHt2], IHv as [IHv1 IHv2].
    rewrite (toWellFormed_cons u), (to_scalar_values_cons u (v :: t)).
    unfold is_code_unit in Hu.
    destruct (is_high_surrogate u) eqn:Eh.
    + destruct (is_low_surrogate v) eqn:El.
      * rewrite isWellFormed_cons, to_scalar_values_cons, Eh, El.
        cbn [andb]. by rewrite IHt2.
      * rewrite isWellFormed_cons, to_scalar_values_cons.
        replace (is_high_surrogate 65533) with false by done.
        replace (is_low_surrogate 65533) with false by done.
        rewrite IHv1, IHv2. done.
    + destruct (is_low_surrogate u) eqn:El.
      * rewrite isWellFormed_cons, to_scalar_values_cons.
        replace (is_high_surrogate 65533) with false by done.
        replace (is_low_surrogate 65533) with false by done.
        rewrite IHv1, IHv2. done.
      * rewrite isWellFormed_cons, to_scalar_values_cons, Eh, El.
        rewrite IHv1, IHv2. unfold is_code_unit. split; [|done].
        cbn. lia.
Qed.

Lemma toWellFormed_id (s : list Z) : isWellFormed s = true -> toWellFormed s = s.
Proof.
  induction s as [|u|u v t IHt IHv] using list_ind_pairs.
  - done.
  - rewrite isWellFormed_cons, toWellFormed_cons.
    destruct (is_high_surrogate u); [done|].
    destruct (is_low_surrogate u); [by rewrite andb_false_r|]. done.
  - rewrite (isWellFormed_cons u), (toWellFormed_cons u).
    destruct (is_high_surrogate u).
    + destruct (is_low_surrogate v); [|done]. cbn [andb]. intros H.
      by rewrite IHt.
    + destruct (is_low_surrogate u); [by rewrite andb_false_r|].
      intros H. apply andb_prop in H as [_ H]. by rewrite IHv.
Qed.

Lemma well_formed_round_trip (text : list Z) :
  isWellFormed text = true -> head text <> Some 0xFEFF ->
  exists b64, utf8ToBase64 text = inr b64 /\ base64ToUtf8 b64 = inr text.
Proof.
  intros Hwf Hhead.
  destruct (utf8ToBase64_total text (isWellFormed_code_units text Hwf))
    as (b64 & Henc & Hnl & Hatob).
  exists b64. split; [done|].
  unfold base64ToUtf8. rewrite Hnl, Hatob.
  destruct (to_scalar_values_wf text Hwf) as (Hsc & _ & _).
  destruct (utf8_decode_encode _ Hsc) as [Hdec Hbytes].
  fold (TextEncoder_encode text) in Hdec, Hbytes.
  rewrite ToUint8_bytes by done.
  unfold TextDecoder_decode. rewrite Hdec, strip_bom_units by done.
  f_equal. destruct text as [|u t]; [done|].
  cbn [strip_bom]. destruct (Z.eqb_spec u 0xFEFF) as [->|Hu]; done.
Qed.

(** X1. Every JavaScript string is encoded without an exception, and
    decoding the result gives the string back with each surrogate that is
    not part of a pair replaced by U+FFFD and a leading U+FEFF dropped;
    a well-formed string has no surrogate to replace. *)
Theorem every_string_round_trip (x : list Z) :
  Forall (fun u => is_code_unit u = true) x ->
  exists b64,
    utf8ToBase64 x = inr b64 /\
    base64ToUtf8 b64 = inr (strip_bom (toWellFormed x)) /\
    (isWellFormed x = true -> toWellFormed x = x).
Proof.
  intros Hx.
  destruct (utf8ToBase64_total x Hx) as (b64 & Henc & Hnl & Hatob).
  exists b64. split; [done|]. split; [|apply toWellFormed_id].
  unfold base64ToUtf8. rewrite Hnl, Hatob.
  destruct (utf8_decode_encode _ (to_scalar_values_scalar x Hx)) as [Hdec Hbytes].
  fold (TextEncoder_encode x) in Hdec, Hbytes.
  rewrite ToUint8_bytes by done.
  unfold TextDecoder_decode. rewrite Hdec.
  destruct (toWellFormed_units x Hx) as [Hwf Hsv].
  by rewrite <- Hsv, strip_bom_units.
Qed.

Lemma every_string_round_trip_witness :
  exists b64,
    utf8ToBase64 [97; 0xD800; 98] = inr b64 /\
    base64ToUtf8 b64 = inr (strip_bom (toWellFormed [97; 0xD800; 98])) /\
    (isWellFormed [97; 0xD800; 98] = true
     -> toWellFormed [97; 0xD800; 98] = [97; 0xD800; 98]).
Proof. apply (every_string_round_trip [97; 0xD800; 98]). by repeat constructor. Defined.

(** X2. [base64ToUtf8] ignores ASCII white space wherever it stands:
    two inputs that agree once tabs, line feeds, form feeds, carriage
    returns and spaces are removed give the same result, or the same
    exception. *)
Theorem base64ToUtf8_ignores_whitespace (y y' : list Z) :
  filter (fun c => is_ascii_whitespace c = false) y
  = filter (fun c => is_ascii_whitespace c = false) y' ->
  base64ToUtf8 y = base64ToUtf8 y'.
Proof.
  intros H. unfold base64ToUtf8.
  rewrite (atob_whitespace (remove_newlines y) (remove_newlines y')); [done|].
  by rewrite !filter_whitespace_newlines.
Qed.

Lemma base64ToUtf8_ignores_whitespace_witness :
  base64ToUtf8 Scene.stored_base64 = base64ToUtf8 (js "e3N0b3JlZH0=").
Proof.
  apply (base64ToUtf8_ignores_whitespace Scene.stored_base64 (js "e3N0b3JlZH0=")).
  vm_compute. reflexivity.
Defined.

Lemma strip_padding_keeps (data : list Z) c :
  c ∈ data -> c <> 61 -> c ∈ strip_padding data.
Proof.
  intros Hin Hc. unfold strip_padding.
  destruct (length data mod 4 =? 0)%nat; [|done].
  assert (Hdrop : forall a r, c ∈ rev (a :: r) -> a = 61 -> c ∈ rev r).
  { intros a r H ->. cbn [rev] in H. apply elem_of_app in H as [H|H]; [done|].
    by apply list_elem_of_singleton in H. }
  pose proof Hin as Hdata.
  rewrite <- (rev_involutive data) in Hin.
  destruct (rev data) as [|a r] eqn:E.
  - done.
  - destruct (Z.eq_dec a 61) as [Ha|Ha].
    + pose proof (Hdrop _ _ Hin Ha) as Hin'. subst a.
      destruct r as [|b r]; [done|].
      destruct (Z.eq_dec b 61) as [Hb|Hb].
      * pose proof (Hdrop _ _ Hin' Hb). by subst b.
      * destruct b as [|p|p]; try done.
        do 6 (destruct p as [p|p|]; try done).
    + destruct a as [|p|p]; try done.
      do 6 (destruct p as [p|p|]; try done).
Qed.

Lemma mapM_index_foreign (data : list Z) c :
  c ∈ data -> base64_index c = None -> mapM_index data = None.
Proof.
  induction data as [|d data IH]; intros Hin Hc.
  - by apply elem_of_nil in Hin.
  - cbn [mapM_index]. apply elem_of_cons in Hin as [<-|Hin].
    + by rewrite Hc.
    + rewrite (IH Hin Hc). by destruct (base64_index d).
Qed.
(** X3. An input of [base64ToUtf8] that holds a code unit which is
    neither of the base64 alphabet, nor [=], nor ASCII white space makes
    it throw an [InvalidCharacterError]; nothing is decoded. *)
Theorem base64ToUtf8_foreign_character (y : list Z) (c : Z) :
  c ∈ y ->
  base64_index c = None -> is_ascii_whitespace c = false -> c <> 61 ->
  base64ToUtf8 y = inl InvalidCharacterError.
Proof.
  intros Hin Hidx Hws Hpad.
  assert (Hc : c ∈ strip_padding
                     (filter (fun c => is_ascii_whitespace c = false)
                        (remove_newlines y))).
  { apply strip_padding_keeps; [|done].
    apply list_elem_of_filter. split; [done|].
    apply list_elem_of_filter. split; [|done].
    intros ->. done. }
  unfold base64ToUtf8, atob.
  destruct (_ =? 1)%nat; [done|].
  by rewrite (mapM_index_foreign _ c Hc Hidx).
Qed.

Lemma base64ToUtf8_foreign_character_witness :
  base64ToUtf8 [84; 99; 79; 52; 45; 109; 115; 61] = inl InvalidCharacterError.
Proof.
  apply (base64ToUtf8_foreign_character [84; 99; 79; 52; 45; 109; 115; 61] 45).
  - set_solver.
  - reflexivity.
  - reflexivity.
  - lia.
Defined.

Lemma btoa_bytes (bs : list Z) :
  Forall is_byte bs ->
  btoa bs = inr (map base64_char (sextets bs) ++ base64_padding (length bs)).
Proof.
  intros H. unfold btoa.
  replace (forallb _ bs) with true; [done|].
  symmetry. apply forallb_forall. intros b Hb.
  rewrite Forall_forall in H. specialize (H b).
  unfold is_byte in H. rewrite <- list_elem_of_In in Hb. specialize (H Hb). lia.
Qed.

Lemma encoded_length (bs : list Z) :
  length (map base64_char (sextets bs) ++ base64_padding (length bs))
  = (4 * ((length bs + 2) / 3))%nat.
Proof.
  rewrite length_app, length_map.
  induction bs as [| a | a b | a b c t IH] using list_ind3; try done.
  cbn [sextets length].
  replace (base64_padding (S (S (S (length t))))) with (base64_padding (length t)).
  - replace (S (S (S (length t))) + 2)%nat with (1 * 3 + (length t + 2))%nat by lia.
    rewrite Nat.div_add_l by lia. lia.
  - unfold base64_padding.
    replace (S (S (S (length t)))) with (length t + 1 * 3)%nat by lia.
    by rewrite Nat.Div0.mod_add.
Qed.

Lemma encoded_alphabet (bs : list Z) :
  Forall is_byte bs ->
  Forall (fun c => is_Some (base64_index c) \/ c = 61)
    (map base64_char (sextets bs) ++ base64_padding (length bs)).
Proof.
  intros H. apply Forall_app. split.
  - apply Forall_map. eapply Forall_impl; [apply sextets_range, H|].
    intros v Hv. left. unfold compose. rewrite (base64_index_char v Hv). by eexists.
  - destruct (padding_cases (length bs)) as [-> | [-> | ->]];
      repeat constructor; by right.
Qed.
(** X4. The encoding of a string has four characters for every three
    bytes of its UTF-8 form, the last group filled up, and holds only
    characters of the base64 alphabet and [=]. *)
Theorem utf8ToBase64_shape (str : list Z) :
  Forall (fun u => is_code_unit u = true) str ->
  exists b64,
    utf8ToBase64 str = inr b64 /\
    length b64 = (4 * ((length (TextEncoder_encode str) + 2) / 3))%nat /\
    Forall (fun c => is_Some (base64_index c) \/ c = 61) b64.
Proof.
  intros Hstr. unfold utf8ToBase64.
  destruct (utf8_decode_encode _ (to_scalar_values_scalar str Hstr)) as [_ Hbytes].
  fold (TextEncoder_encode str) in Hbytes.
  cbv zeta. rewrite binary_of_bytes by done.
  rewrite btoa_bytes by done.
  eexists. split; [done|]. split; [apply encoded_length|by apply encoded_alphabet].
Qed.

Lemma utf8ToBase64_shape_witness :
  exists b64,
    utf8ToBase64 (js "Mørk") = inr b64 /\
    length b64 = (4 * ((length (TextEncoder_encode (js "Mørk")) + 2) / 3))%nat /\
    Forall (fun c => is_Some (base64_index c) \/ c = 61) b64.
Proof.
  apply (utf8ToBase64_shape (js "Mørk")).
  vm_compute. by repeat constructor.
Defined.

(** ** Slugs and ids *)

Lemma slug_char_plain u :
  is_slug_char u = true \/ u = hyphen ->
  toLowerCase_unit u = [u] /\
  (if u =? 0xE6 then [97; 101]
   else if u =? 0xF8 then [111] else if u =? 0xE5 then [97] else [u]) = [u].
Proof.
  unfold is_slug_char, hyphen, toLowerCase_unit. intros H.
  split; repeat decide_if; try done; lia.
Qed.

Lemma hyphens_inside_alphabet (b : bool) (s : list Z) :
  hyphens_inside b s = true ->
  Forall (fun u => is_slug_char u = true \/ u = hyphen) s.
Proof.
  revert b. induction s as [|u s IH]; intros b; [done|].
  cbn [hyphens_inside]. destruct (is_slug_char u) eqn:E.
  - intros H. constructor; [by left|]. by apply (IH true).
  - intros H. apply andb_prop in H as [H H2]. apply andb_prop in H as [H _].
    constructor; [right; lia|]. by apply (IH false).
Qed.

Lemma slug_shaped_alphabet (s : list Z) :
  slug_shaped s = true ->
  Forall (fun u => is_slug_char u = true \/ u = hyphen) s.
Proof.
  destruct s as [|u s]; [done|]. apply hyphens_inside_alphabet.
Qed.

Lemma alphabet_plain (s : list Z) :
  Forall (fun u => is_slug_char u = true \/ u = hyphen) s ->
  transliterate (toLowerCase s) = s.
Proof.
  induction 1 as [|u s Hu _ IH]; [done|].
  destruct (slug_char_plain u Hu) as [Hl Ht].
  unfold toLowerCase, transliterate in *. cbn [flat_map].
  rewrite Hl. cbn [app flat_map]. rewrite Ht, IH. done.
Qed.

Lemma joined_shaped (s : list Z) :
  (hyphens_inside true s = true -> joined_from false s = s) /\
  (hyphens_inside false s = true ->
   joined_from true s = hyphen :: s /\ joined_start s = s).
Proof.
  induction s as [|u s [IH1 IH2]]; [done|].
  cbn [hyphens_inside joined_from joined_start].
  destruct (is_slug_char u) eqn:E.
  - split; intros H; rewrite (IH1 H); done.
  - split; [|by rewrite andb_false_r].
    intros H. apply andb_prop in H as [H H2]. apply andb_prop in H as [H _].
    destruct (IH2 H2) as [-> _]. f_equal. unfold hyphen in *. lia.
Qed.

Lemma slugify_shaped (s : list Z) : slug_shaped s = true -> slugify s = s.
Proof.
  intros H. rewrite slugify_joined, alphabet_plain by by apply slug_shaped_alphabet.
  destruct s as [|u s]; [done|]. by apply joined_shaped.
Qed.
(** X5. The strings [slugify] leaves as they are are the strings of the
    shape of a slug; so [slugify] applied to a slug changes nothing. *)
Theorem slugify_fixed_points (name s : list Z) :
  (slugify s = s <-> slug_shaped s = true) /\
  slugify (slugify name) = slugify name.
Proof.
  split; [split|].
  - intros <-. apply slugify_shape.
  - apply slugify_shaped.
  - apply slugify_shaped, slugify_shape.
Qed.

Lemma joined_start_nil (s : list Z) :
  joined_start s = [] <-> Forall (fun u => is_slug_char u = false) s.
Proof.
  induction s as [|u s IH]; [done|].
  cbn [joined_start]. destruct (is_slug_char u) eqn:E.
  - split; [done|]. intros H. apply Forall_cons in H as [H _]. congruence.
  - rewrite IH. split; [by constructor|]. intros H. by apply Forall_cons in H as [_ H].
Qed.
(** X6. [slugify] returns the empty string exactly for the names that,
    lower-cased and transliterated, have no character of [a-z0-9]. *)
Theorem slugify_empty (name : list Z) :
  slugify name = []
  <-> Forall (fun u => is_slug_char u = false)
        (replace_unit 0xE5 [97]
           (replace_unit 0xF8 [111]
              (replace_unit 0xE6 [97; 101] (toLowerCase name)))).
Proof. by rewrite slugify_joined, transliterate_replace, joined_start_nil. Qed.

Lemma digits_go (x : N) (s : string) :
  Forall (fun u => is_slug_char u = true) (byte_codes s) ->
  Forall (fun u => is_slug_char u = true) (byte_codes (pretty_N_go x s)).
Proof.
  revert s. induction (N.lt_wf_0 x) as [x _ IH]; intros s Hs.
  assert (x = 0 \/ 0 < x)%N as [->|Hx] by lia; [by rewrite pretty_N_go_0|].
  rewrite pretty_N_go_step by done. apply IH; [by apply N.div_lt|].
  unfold byte_codes in *. cbn [list_ascii_of_string map]. constructor; [|done].
  pose proof (N.mod_lt x 10 ltac:(done)) as Hm.
  destruct (x `mod` 10)%N as [|p]; [done|].
  do 4 (destruct p as [p|p|]; try done); lia.
Qed.

Lemma Number_toString_digits (i : Z) :
  0 <= i -> Forall (fun u => is_slug_char u = true) (Number_toString i).
Proof.
  intros Hi. unfold Number_toString, pretty, pretty_Z.
  destruct i as [|p|p]; [by repeat constructor| |lia].
  unfold pretty, pretty_positive, pretty, pretty_N.
  rewrite decide_False by done. by apply digits_go.
Qed.
(** X7. The id [saveVersion] computes for a name, the slug made unique
    among the existing ids, holds only [a-z0-9] and hyphens. *)
Theorem version_id_alphabet (name : list Z) (existingIds : list (list Z)) :
  Forall (fun u => is_slug_char u = true \/ u = hyphen)
    (uniqueSlug (slugify name) existingIds).
Proof.
  pose proof (slug_shaped_alphabet _ (slugify_shape name)) as Hslug.
  unfold uniqueSlug, uniqueSlug_fuel.
  destruct (includes existingIds (slugify name)); [|done].
  destruct (uniqueSlug_loop _ _ _ 2) as [j|] eqn:E; [|done].
  apply uniqueSlug_loop_Some in E as [Hj _].
  cbn [default negb]. unfold suffixed. apply Forall_app. split; [done|].
  constructor; [by right|].
  eapply Forall_impl; [apply Number_toString_digits; lia|]. by left.
Qed.

(** ** The mutating operations *)

Lemma uniqueSlug_fresh (slug : list Z) (ids : list (list Z)) :
  uniqueSlug slug ids ∉ ids.
Proof.
  unfold uniqueSlug, uniqueSlug_fuel.
  destruct (includes ids slug) eqn:E; [|by apply includes_false].
  cbn [negb].
  destruct (uniqueSlug_loop_enough (S (length ids)) slug ids 2 ltac:(lia)) as [j Hj].
  rewrite Hj. cbn [default]. by apply uniqueSlug_loop_Some in Hj as (_ & H & _).
Qed.

Lemma Object_keys_lookup {V} (m : gmap (list Z) V) (k : list Z) :
  k ∉ Object_keys m <-> m !! k = None.
Proof.
  unfold Object_keys. rewrite list_elem_of_fmap. split.
  - intros H. destruct (m !! k) as [v|] eqn:E; [|done].
    exfalso. apply H. exists (k, v). split; [done|]. by apply elem_of_map_to_list.
  - intros H [[k' v] [-> Hin]]. apply elem_of_map_to_list in Hin. cbn in H. congruence.
Qed.

Section MoreMutations.
Context (W : Platform).

(** X8. When [saveVersion] returns an id, the fetch had yielded a
    mapping that has no record under that id; the mapping held afterwards
    is that mapping with the new record, named as asked and created and
    updated now, and every record fetched is still there. *)
Theorem saveVersion_adds_one (name id : list Z) (s s' : State) :
  saveVersion W name s = (inr id, s') ->
  exists m tag,
    remote_state W (_config s) (stored_token s) = inr (m, tag) /\
    m !! id = None /\
    _versions s'
    = <[id := Version.mkVersionRecord name id
                (Some (Date_now_toISOString W)) (Some (Date_now_toISOString W))
                (getCurrentConfig (_config s))]> m /\
    forall k v, m !! k = Some v -> _versions s' !! k = Some v.
Proof.
  rewrite saveVersion_outcome. unfold mutation_outcome.
  destruct (negb (truthy (Some (stored_token s)))); [done|].
  destruct (remote_state W (_config s) (stored_token s)) as [e|[m tag]]; [done|].
  cbn [mutated].
  destruct (utf8ToBase64 _) as [e|b64]; [done|].
  destruct (put_outcome _) as [e|j]; [done|].
  intros [= <- <-]. exists m, tag. cbn [_versions].
  assert (Hfresh : m !! uniqueSlug (slugify name) (Object_keys m) = None).
  { apply Object_keys_lookup, uniqueSlug_fresh. }
  split; [done|]. split; [done|]. split; [done|].
  intros k v Hk. rewrite lookup_insert_ne; [done|]. congruence.
Qed.

(** What [_versions[id]] finds while [Object.prototype] is as the
    browser made it: nothing exactly for the ids that are no key of the
    mapping and no property of [Object.prototype]. *)
Lemma found_pristine (m : gmap (list Z) VersionRecord) (id : list Z) :
  found (Object_get None m id) = false
  <-> m !! id = None
      /\ id ∉ KEY_PROTO :: KEY_CONSTRUCTOR :: Object_prototype_methods.
Proof.
  unfold Object_get. rewrite !not_elem_of_cons.
  destruct (m !! id) as [v|]; [cbn; split; [done|by intros [? _]]|].
  destruct (bool_decide_reflect (id = KEY_PROTO)) as [->|H1];
    [cbn; split; [done|by intros (_ & ? & _)]|].
  destruct (bool_decide_reflect (id = KEY_CONSTRUCTOR)) as [->|H2];
    [cbn; split; [done|by intros (_ & _ & ? & _)]|].
  destruct (bool_decide_reflect (id ∈ Object_prototype_methods)) as [H3|H3];
    [cbn; split; [done|by intros (_ & _ & _ & ?)]|].
  cbn. done.
Qed.

(** X9. After the fetch has yielded the mapping [m], [updateVersion]
    on an id for which [_versions[id]] is missing or falsy throws the
    error that names the id, after the one [GET]: nothing is written, the
    cache is left alone, and the mapping held is the one fetched. While
    [Object.prototype] is as the browser made it these are the ids that
    are no key of [m] and no property of [Object.prototype]
    ([__proto__], [constructor], [toString] and the like). *)
Theorem updateVersion_unknown_id (id : list Z) (s : State)
    (m : gmap (list Z) VersionRecord) (tag : option (list Z)) :
  truthy (Some (stored_token s)) = true ->
  remote_state W (_config s) (stored_token s) = inr (m, tag) ->
  (found (Object_get (Object_prototype s) m id) = false ->
   updateVersion W id s
   = (inl (Error (MSG_NOT_FOUND ++ id)),
      mkState (_config s) m tag (localStorage s)
        (events s ++ [EvGet (get_url (_config s)) (authorization (stored_token s))])
        (Object_prototype s))) /\
  (Object_prototype s = None ->
   (found (Object_get (Object_prototype s) m id) = false
    <-> m !! id = None
        /\ id ∉ KEY_PROTO :: KEY_CONSTRUCTOR :: Object_prototype_methods)).
Proof.
  intros Htok Hget. split.
  - intros Hid.
    change (updateVersion W id s) with (run_mutation W (Update id) s).
    rewrite run_mutation_outcome. unfold mutation_outcome.
    rewrite Htok, Hget. cbn [negb mutated]. by rewrite Hid.
  - intros ->. apply found_pristine.
Qed.

(** X10. When [updateVersion] returns, the fetch had yielded a mapping
    [m] in which [_versions[id]] is truthy. When [id] is a key of [m],
    the record under it has the name, the id and the creation date of
    the record fetched, the date of now as its update date and the
    current settings, and [Object.prototype] is as before. When [id] is
    no key of [m], what was found is inherited and the mapping is the
    one fetched; for [__proto__] the settings and the date of now are
    then on [Object.prototype]. Every other id has the record fetched. *)
Theorem updateVersion_keeps_identity (id : list Z) (s s' : State) :
  updateVersion W id s = (inr tt, s') ->
  exists m tag,
    remote_state W (_config s) (stored_token s) = inr (m, tag) /\
    found (Object_get (Object_prototype s) m id) = true /\
    (forall v, m !! id = Some v ->
       _versions s' !! id
       = Some (Version.mkVersionRecord (Version.name v) (Version.id v)
                 (Version.createdAt v) (Some (Date_now_toISOString W))
                 (getCurrentConfig (_config s))) /\
       Object_prototype s' = Object_prototype s) /\
    (m !! id = None ->
       _versions s' = m /\
       Object_prototype s'
       = if bool_decide (id = KEY_PROTO)
         then Some (getCurrentConfig (_config s), Date_now_toISOString W)
         else Object_prototype s) /\
    (forall k, k <> id -> _versions s' !! k = m !! k).
Proof.
  change (updateVersion W id s) with (run_mutation W (Update id) s).
  rewrite run_mutation_outcome. unfold mutation_outcome.
  destruct (negb (truthy (Some (stored_token s)))); [done|].
  destruct (remote_state W (_config s) (stored_token s)) as [e|[m tag]]; [done|].
  intros Hrun. exists m, tag. split; [done|]. revert Hrun.
  assert (Hshape :
    match mutated W (_config s) (Object_prototype s) (Update id) m with
    | inl _ => True
    | inr (m', proto') =>
        found (Object_get (Object_prototype s) m id) = true /\
        (forall v, m !! id = Some v ->
           m' !! id
           = Some (Version.mkVersionRecord (Version.name v) (Version.id v)
                     (Version.createdAt v) (Some (Date_now_toISOString W))
                     (getCurrentConfig (_config s))) /\
           proto' = Object_prototype s) /\
        (m !! id = None ->
           m' = m /\
           proto' = if bool_decide (id = KEY_PROTO)
                    then Some (getCurrentConfig (_config s), Date_now_toISOString W)
                    else Object_prototype s) /\
        (forall k, k <> id -> m' !! k = m !! k)
    end).
  { cbn [mutated]. cbv zeta.
    destruct (found (Object_get (Object_prototype s) m id)) eqn:Hfound; [|done].
    cbn [negb]. revert Hfound. unfold Object_get.
    destruct (m !! id) as [v|] eqn:Hv.
    { intros _. split; [done|]. split; [|split; [done|]].
      - intros ? [= <-]. by rewrite lookup_insert_eq.
      - intros k Hk. by rewrite lookup_insert_ne. }
    destruct (bool_decide (id = KEY_PROTO)); [done|].
    destruct (bool_decide (id = KEY_CONSTRUCTOR)); [done|].
    destruct (bool_decide (id ∈ Object_prototype_methods)); [done|].
    destruct (Object_prototype s) as [[c u]|]; [|done].
    destruct (bool_decide (id = KEY_CONFIG)).
    { destruct (Json_is_object c); done. }
    destruct (bool_decide (id = KEY_UPDATED_AT)); [|done].
    destruct (Json_is_object (JString u)); done. }
  destruct (mutated W (_config s) (Object_prototype s) (Update id) m)
    as [e|[m' proto']]; [done|].
  destruct (utf8ToBase64 _) as [e|b64]; [done|].
  destruct (put_outcome _) as [e|j]; [done|].
  intros [= <-]. cbn [_versions Object_prototype]. exact Hshape.
Qed.

Lemma cache_key_not_token (chart : list Z) :
  CACHE_PREFIX ++ chart <> GITHUB_TOKEN_KEY.
Proof. vm_compute. discriminate. Qed.
(** X11. A mutating operation never changes the configuration nor the
    stored token. When it returns, the cache entry of the chart type holds
    the serialised mapping now held and [localStorage] is otherwise as
    before; when it throws, [localStorage] is as before. *)
Theorem mutation_cache (mu : Mutation) (s : State) :
  let '(r, s') := run_mutation W mu s in
  _config s' = _config s /\
  stored_token s' = stored_token s /\
  match r with
  | inr _ =>
      localStorage s'
      = <[CACHE_PREFIX ++ chartType (_config s) := JSON_stringify W (_versions s')]>
          (localStorage s)
  | inl _ => localStorage s' = localStorage s
  end.
Proof.
  rewrite run_mutation_outcome. unfold mutation_outcome.
  destruct (negb (truthy (Some (stored_token s)))); [done|].
  destruct (remote_state W (_config s) (stored_token s)) as [e|[m tag]]; [done|].
  destruct (mutated W (_config s) (Object_prototype s) mu m) as [e|[m' proto']];
    [done|].
  destruct (utf8ToBase64 _) as [e|b64]; [done|].
  destruct (put_outcome _) as [e|j]; [done|].
  cbn [_config _versions localStorage]. split; [done|]. split; [|done].
  unfold stored_token. cbn [localStorage].
  by rewrite lookup_insert_ne by apply cache_key_not_token.
Qed.

(** X25. The events a mutating operation adds to the log: when it
    returns, the last of them is the rendering of the list from the
    mapping now held; when it throws, they are requests only, so that
    nothing was cached and the list was not rendered again. *)
Theorem mutation_renders_on_success (mu : Mutation) (s : State) :
  let '(r, s') := run_mutation W mu s in
  exists added,
    events s' = events s ++ added /\
    match r with
    | inr _ =>
        last added
        = Some (EvRenderList
                  (sorted_by_recency W (as_read (Object_prototype s') <$> _versions s')))
    | inl _ => forallb is_network_event added = true
    end.
Proof.
  rewrite run_mutation_outcome. unfold mutation_outcome.
  destruct (negb (truthy (Some (stored_token s)))).
  { exists []. by rewrite app_nil_r. }
  destruct (remote_state W (_config s) (stored_token s)) as [e|[m tag]].
  { eexists. by split. }
  destruct (mutated W (_config s) (Object_prototype s) mu m) as [e|[m' proto']];
    [eexists; by split|].
  destruct (utf8ToBase64 _) as [e|b64]; [eexists; by split|].
  destruct (put_outcome _) as [e|j]; cbn [events _versions Object_prototype].
  - eexists. split; [by rewrite <- app_assoc|]. done.
  - eexists. split; [by rewrite <- !app_assoc|]. done.
Qed.

(** X12. What was written is read back: when the store file answers with
    the base64 encoding of a well-formed text that does not start with
    U+FEFF, broken by white space in any way, and the text parses,
    [_getLatestFromGitHub] makes the parsed mapping and the tag of the
    answer the state of the module. *)
Theorem written_content_reads_back (s : State) (token text b64 content sha : list Z)
    (file : StoreFile) :
  isWellFormed text = true -> head text <> Some 0xFEFF ->
  utf8ToBase64 text = inr b64 ->
  filter (fun c => is_ascii_whitespace c = false) content = b64 ->
  fetch_get W (get_url (_config s)) (authorization token)
  = inr (mkGetResponse 200 (Some (mkContentsData sha content))) ->
  JSON_parse W text = Some file ->
  _getLatestFromGitHub W token s
  = (inr tt,
     mkState (_config s) (default ∅ (versions file)) (Some sha) (localStorage s)
       (events s ++ [EvGet (get_url (_config s)) (authorization token)])
       (Object_prototype s)).
Proof.
  intros Hwf Hhead Henc Hcontent Hget Hparse.
  destruct (well_formed_round_trip text Hwf Hhead) as (b64' & Henc' & Hdec).
  assert (b64' = b64) as -> by congruence.
  assert (Hplain : filter (fun c => is_ascii_whitespace c = false) b64 = b64).
  { rewrite <- Hcontent, list_filter_filter. apply list_filter_iff. tauto. }
  rewrite getLatest_run. unfold remote_state. rewrite Hget.
  cbn [get_status get_json data_content data_sha].
  change (200 =? 404) with false. change (negb (status_ok 200)) with false. cbv iota.
  assert (Hsame : base64ToUtf8 content = base64ToUtf8 b64).
  { unfold base64ToUtf8.
    rewrite (atob_whitespace (remove_newlines content) (remove_newlines b64));
      [done|].
    by rewrite !filter_whitespace_newlines, Hplain. }
  rewrite Hsame, Hdec, Hparse. reflexivity.
Qed.

End MoreMutations.

Lemma saveVersion_adds_one_witness :
  exists m tag,
    remote_state Scene.existing World.config (js "ghp_example") = inr (m, tag) /\
    m !! js "test-2" = None /\
    _versions (snd (saveVersion Scene.existing (js "Test") World.with_token))
    = <[js "test-2" := Version.mkVersionRecord (js "Test") (js "test-2")
                (Some (Date_now_toISOString Scene.existing))
                (Some (Date_now_toISOString Scene.existing))
                (getCurrentConfig World.config)]> m /\
    forall k v, m !! k = Some v ->
      _versions (snd (saveVersion Scene.existing (js "Test") World.with_token)) !! k
      = Some v.
Proof.
  apply (saveVersion_adds_one Scene.existing (js "Test") (js "test-2") World.with_token
           (snd (saveVersion Scene.existing (js "Test") World.with_token))).
  vm_compute. reflexivity.
Defined.

Lemma updateVersion_unknown_id_witness :
  updateVersion Scene.existing (js "gone") World.with_token
  = (inl (Error (MSG_NOT_FOUND ++ js "gone")),
     mkState World.config Scene.stored (Some (js "3f1c9a"))
       (localStorage World.with_token)
       (events World.with_token
          ++ [EvGet (get_url World.config) (authorization (js "ghp_example"))])
       None).
Proof.
  apply (updateVersion_unknown_id Scene.existing (js "gone") World.with_token
           Scene.stored (Some (js "3f1c9a")));
    vm_compute; reflexivity.
Defined.

Lemma updateVersion_keeps_identity_witness :
  exists m tag,
    remote_state Scene.existing World.config (js "ghp_example") = inr (m, tag) /\
    found (Object_get None m (js "a")) = true /\
    (forall v, m !! js "a" = Some v ->
       _versions (snd (updateVersion Scene.existing (js "a") World.with_token))
         !! js "a"
       = Some (Version.mkVersionRecord (Version.name v) (Version.id v)
                 (Version.createdAt v) (Some (Date_now_toISOString Scene.existing))
                 (getCurrentConfig World.config)) /\
       Object_prototype (snd (updateVersion Scene.existing (js "a") World.with_token))
       = None) /\
    (m !! js "a" = None ->
       _versions (snd (updateVersion Scene.existing (js "a") World.with_token)) = m /\
       Object_prototype (snd (updateVersion Scene.existing (js "a") World.with_token))
       = if bool_decide (js "a" = KEY_PROTO)
         then Some (getCurrentConfig World.config,
                    Date_now_toISOString Scene.existing)
         else None) /\
    (forall k, k <> js "a" ->
       _versions (snd (updateVersion Scene.existing (js "a") World.with_token)) !! k
       = m !! k).
Proof.
  apply (updateVersion_keeps_identity Scene.existing (js "a") World.with_token
           (snd (updateVersion Scene.existing (js "a") World.with_token))).
  vm_compute. reflexivity.
Defined.

Lemma written_content_reads_back_witness :
  _getLatestFromGitHub Scene.existing (js "ghp_example") World.with_token
  = (inr tt,
     mkState World.config Scene.stored (Some (js "3f1c9a"))
       (localStorage World.with_token)
       (events World.with_token
          ++ [EvGet (get_url World.config) (authorization (js "ghp_example"))])
       None).
Proof.
  apply (written_content_reads_back Scene.existing World.with_token
           (js "ghp_example") Scene.stored_text (js "e3N0b3JlZH0=")
           Scene.stored_base64 (js "3f1c9a") (mkStoreFile (Some Scene.stored)));
    try (vm_compute; reflexivity).
  vm_compute. discriminate.
Defined.

(** ** github-save.js: the save, the token and the handlers *)

Section MoreRequests.
Import GithubSave.
Context (W : Platform).


End MoreRequests.


Lemma trimStart_idemp (s : list Z) : trimStart (trimStart s) = trimStart s.
Proof.
  induction s as [|u s IH]; [done|].
  cbn [trimStart]. destruct (is_white_space u) eqn:E; [done|].
  cbn [trimStart]. by rewrite E.
Qed.

Lemma trimStart_snoc (l : list Z) u :
  is_white_space u = false -> trimStart (l ++ [u]) = trimStart l ++ [u].
Proof.
  intros Hu. induction l as [|a l IH]; cbn [trimStart app].
  - by rewrite Hu.
  - by destruct (is_white_space a).
Qed.

Lemma trimEnd_cons u (t : list Z) :
  is_white_space u = false -> trimEnd (u :: t) = u :: trimEnd t.
Proof.
  intros Hu. unfold trimEnd. cbn [rev].
  by rewrite trimStart_snoc, rev_app_distr.
Qed.

Lemma trimEnd_idemp (s : list Z) : trimEnd (trimEnd s) = trimEnd s.
Proof. unfold trimEnd. by rewrite rev_involutive, trimStart_idemp. Qed.

Lemma trimStart_head (s : list Z) :
  trimStart s = [] \/
  exists u t, trimStart s = u :: t /\ is_white_space u = false.
Proof.
  induction s as [|u s IH]; [by left|].
  cbn [trimStart]. destruct (is_white_space u) eqn:E; [done|]. right. eauto.
Qed.

Lemma trim_idemp (s : list Z) : trim (trim s) = trim s.
Proof.
  unfold trim. destruct (trimStart_head s) as [->|(u & t & -> & Hu)]; [done|].
  rewrite trimEnd_cons by done. cbn [trimStart]. rewrite Hu.
  rewrite <- trimEnd_cons by done. apply trimEnd_idemp.
Qed.
Lemma token_keys_agree : VersionManager.GITHUB_TOKEN_KEY = GithubSaveUi.GITHUB_TOKEN_KEY.
Proof. reflexivity. Qed.
(** X14. The token the admin page stores is the token the version
    manager sends: after [setToken] both scripts read the trimmed token,
    and after [deleteToken] both read the empty string. The handler of
    the delete-token button leaves no token, empties the input and sends
    nothing. *)
Theorem token_round_trip (token : list Z) (s : VersionManager.State)
    (p : GithubSaveUi.Page) :
  let stored := GithubSaveUi.setToken token (VersionManager.localStorage s) in
  GithubSaveUi.getToken stored = trim token /\
  fst (VersionManager.getToken (VersionManager.set_localStorage stored s))
  = inr (trim token) /\
  GithubSaveUi.getToken (GithubSaveUi.deleteToken stored) = [] /\
  fst (VersionManager.getToken
         (VersionManager.set_localStorage (GithubSaveUi.deleteToken stored) s))
  = inr [] /\
  exists p',
    GithubSaveUi.deleteTokenBtn_click p = (inr tt, p') /\
    GithubSaveUi.getToken (GithubSaveUi.localStorage p') = [] /\
    GithubSaveUi.tokenInput_value p' = [] /\
    GithubSaveUi.events p' = GithubSaveUi.events p.
Proof.
  assert (Hclick : exists p',
             GithubSaveUi.deleteTokenBtn_click p = (inr tt, p') /\
             GithubSaveUi.getToken (GithubSaveUi.localStorage p') = [] /\
             GithubSaveUi.tokenInput_value p' = [] /\
             GithubSaveUi.events p' = GithubSaveUi.events p).
  { unfold GithubSaveUi.deleteTokenBtn_click, bind, modify. eexists. split; [done|].
    cbn [GithubSaveUi.localStorage GithubSaveUi.tokenInput_value GithubSaveUi.events
           GithubSaveUi.set_tokenStatus GithubSaveUi.set_tokenInput
           GithubSaveUi.set_localStorage].
    unfold GithubSaveUi.getToken, GithubSaveUi.deleteToken.
    by rewrite lookup_delete_eq. }
  revert Hclick.
  cbv zeta. unfold GithubSaveUi.getToken, GithubSaveUi.setToken,
    GithubSaveUi.deleteToken, VersionManager.getToken, gets.
  cbn [fst VersionManager.localStorage VersionManager.set_localStorage].
  rewrite token_keys_agree, lookup_delete_eq, lookup_insert_eq.
  cbn [or_string]. intros Hclick. by destruct (trim token).
Qed.
(** X15. [maskToken] shows the first four and the last four characters
    of a token and nothing of what lies between them, not even its
    length. *)
Theorem maskToken_hides_middle (a mid b : list Z) :
  length a = 4%nat -> length b = 4%nat ->
  GithubSaveUi.maskToken (a ++ mid ++ b) = a ++ GithubSaveUi.STARS ++ b.
Proof.
  intros Ha Hb. unfold GithubSaveUi.maskToken.
  assert (Hlen : length (a ++ mid ++ b) = (8 + length mid)%nat).
  { rewrite !length_app. lia. }
  replace (negb (truthy (Some (a ++ mid ++ b)))) with false.
  2:{ destruct a; [done|]. done. }
  replace (length (a ++ mid ++ b) <? 8)%nat with false by (symmetry; apply Nat.ltb_ge; lia).
  cbn [orb]. f_equal.
  - rewrite take_app_length'; done.
  - f_equal. rewrite app_assoc. rewrite drop_app_length'; [done|].
    rewrite !length_app. lia.
Qed.

Lemma maskToken_hides_middle_witness :
  GithubSaveUi.maskToken (js "ghp_" ++ js "0123456789abcdef" ++ js "wxyz")
  = js "ghp_" ++ GithubSaveUi.STARS ++ js "wxyz".
Proof.
  apply (maskToken_hides_middle (js "ghp_") (js "0123456789abcdef") (js "wxyz"));
    vm_compute; reflexivity.
Defined.

Section GithubSaveHandlers.
Import GithubSave GithubSaveUi.
Context (W : Platform).
Context (fetch_user : jsstring -> jsstring -> Result UserResponse).
Context (native_message : Exn -> jsstring).

Lemma verifyToken_run token log :
  verifyToken fetch_user token log
  = (match fetch_user USER_URL (token_prefix ++ token) with
     | inl e => inl e
     | inr resp =>
         if negb (status_ok (user_status resp)) then inl (Error MSG_INVALID_TOKEN)
         else match user_json resp with
              | Some user => inr (login user)
              | None => inl SyntaxError
              end
     end, log ++ [EvGet USER_URL (token_prefix ++ token)]).
Proof.
  unfold verifyToken, bind, emit, lift, modify, throw, ret. cbv beta.
  destruct (fetch_user _ _) as [e|resp]; [done|].
  destruct (negb _); [done|]. by destruct (user_json resp).
Qed.

(** X16. The handler of the save-token button never throws. It stores
    the trimmed token exactly when [GET /user] answered it with a success
    and a JSON body, and leaves [localStorage] as it was otherwise; it
    sends that one request, and none for an empty input. *)
Theorem saveTokenBtn_click_verifies (p : Page) :
  let token := trim (tokenInput_value p) in
  exists p',
    saveTokenBtn_click fetch_user native_message p = (inr tt, p') /\
    (verified fetch_user token ->
     localStorage p' = <[GITHUB_TOKEN_KEY := token]> (localStorage p)) /\
    (~ verified fetch_user token -> localStorage p' = localStorage p) /\
    (token = [] -> events p' = events p) /\
    (token <> [] ->
     events p' = events p ++ [EvGet USER_URL (token_prefix ++ token)]).
Proof.
  cbv zeta. unfold saveTokenBtn_click, verified.
  unfold bind at 1. unfold gets at 1. cbv beta iota.
  destruct (trim (tokenInput_value p)) as [|c token] eqn:Htrim.
  - cbn [truthy negb]. unfold modify. eexists. split; [done|].
    cbn [localStorage events set_tokenStatus].
    split; [by intros [? _]|]. split; [done|]. split; done.
  - cbn [truthy negb]. unfold bind at 1. unfold modify at 1. cbv beta iota.
    unfold try_catch, bind, zoom, modify. cbv beta.
    cbn [events set_tokenStatus].
    rewrite verifyToken_run.
    destruct (fetch_user USER_URL (token_prefix ++ c :: token)) as [e|resp] eqn:Hf.
    + eexists. split; [done|]. cbn [localStorage events set_tokenStatus set_events].
      split; [|split; [done|split; done]].
      intros (_ & resp & user & [=] & _).
    + destruct (status_ok (user_status resp)) eqn:Hok; cbn [negb].
      * destruct (user_json resp) as [user|] eqn:Hj.
        -- eexists. split; [done|].
           cbn [localStorage events set_tokenStatus set_events set_localStorage].
           unfold setToken.
           replace (trim (c :: token)) with (c :: token)
             by (by rewrite <- Htrim, trim_idemp).
           split; [done|]. split; [|split; done].
           intros H. exfalso. apply H. split; [done|]. eauto.
        -- eexists. split; [done|].
           cbn [localStorage events set_tokenStatus set_events].
           split; [|split; [done|split; done]].
           intros (_ & resp' & user & [= <-] & _ & Hu). congruence.
      * eexists. split; [done|].
        cbn [localStorage events set_tokenStatus set_events].
        split; [|split; [done|split; done]].
        intros (_ & resp' & user & [= <-] & Hok' & _). congruence.
Qed.

(** X17. The handler of the save button never throws and never touches
    [localStorage]. Without a token, or with content of fewer than two
    lines, it sends nothing, shows an error and leaves the button as it
    was. Otherwise it runs one [saveToGitHub] with the content, the dated
    message and the token, shows the commit link or the message of the
    error, and leaves the button enabled. *)
Theorem githubSaveBtn_click_safe (config : SaveConfig) (p : Page) :
  exists p',
    githubSaveBtn_click W native_message config p = (inr tt, p') /\
    localStorage p' = localStorage p /\
    match getToken (localStorage p) with
    | [] =>
        events p' = events p /\
        githubSaveBtn_disabled p' = githubSaveBtn_disabled p /\
        statusElement p'
        = (fun _ => (MSG_SET_UP_TOKEN, STATUS_ERROR)) <$> statusElement p
    | token =>
        if no_data (getCSVContent config) then
          events p' = events p /\
          githubSaveBtn_disabled p' = githubSaveBtn_disabled p /\
          statusElement p' = (fun _ => (MSG_NO_DATA, STATUS_ERROR)) <$> statusElement p
        else
          let run :=
            saveToGitHub W (owner config) (repo config) (filePath config)
              (default [] (getCSVContent config)) (dated_message W config) token
              (events p) in
          events p' = snd run /\
          githubSaveBtn_disabled p' = false /\
          statusElement p'
          = (fun _ =>
               match fst run with
               | inr result => (commit_link (commitUrl result), STATUS_SUCCESS)
               | inl e => (MSG_FAILED ++ Exn_message native_message e, STATUS_ERROR)
               end) <$> statusElement p
    end.
Proof.
  unfold githubSaveBtn_click, no_data, dated_message.
  unfold bind at 1. unfold gets at 1. cbv beta iota.
  destruct (getToken (localStorage p)) as [|c token] eqn:Htok.
  - cbn [truthy negb]. unfold bind, modify. eexists. split; [done|].
    cbn [localStorage events githubSaveBtn_disabled statusElement set_scrolled set_status].
    split; [done|]. split; [done|]. split; [done|]. by destruct (statusElement p).
  - cbn [truthy negb].
    destruct (negb (truthy (getCSVContent config)) || _) eqn:Hshort.
    + unfold modify. eexists. split; [done|].
      cbn [localStorage events githubSaveBtn_disabled statusElement set_status].
      split; [done|]. split; [done|]. split; [done|]. by destruct (statusElement p).
    + unfold bind at 1. unfold modify at 1. cbv beta iota.
      unfold bind at 1. unfold modify at 1. cbv beta iota.
      unfold try_finally, try_catch, bind, zoom, modify. cbv beta zeta.
      cbn [events set_status set_disabled].
      destruct (saveToGitHub W _ _ _ _ _ _ _) as [[e|result] log].
      * eexists. split; [done|].
        cbn [localStorage githubSaveBtn_disabled set_events set_status set_disabled
               events statusElement fst snd].
        split; [done|]. split; [done|]. split; [done|]. by destruct (statusElement p).
      * eexists. split; [done|].
        cbn [localStorage githubSaveBtn_disabled set_events set_status set_disabled
               events statusElement fst snd].
        split; [done|]. split; [done|]. split; [done|]. by destruct (statusElement p).
Qed.

End GithubSaveHandlers.

(** ** version-manager.js: the panel *)

Section PanelHandlers.
Import VersionManagerUi.
Context (W : Platform).
Context (fetch_local : Result LocalResponse).
Context (JSON_parse_cache : jsstring -> option (gmap jsstring VersionRecord)).
Context (native_message : Exn -> jsstring).

(** X18. The handler of the save button of the panel never throws. For
    a name that is empty once trimmed it only shows an error. Otherwise it
    runs [saveVersion] on the trimmed name and leaves the button enabled
    with its label; on success the input is emptied and the name and id
    are shown, on failure the input is kept and the message of the error
    is shown. *)
Theorem saveNewVersionBtn_click_safe (p : Panel) :
  exists p',
    saveNewVersionBtn_click W native_message p = (inr tt, p') /\
    match trim (nameInput_value p) with
    | [] => p' = set_versionStatus (status_line MSG_ENTER_NAME TYPE_ERROR) p
    | name =>
        vm p' = snd (saveVersion W name (vm p)) /\
        saveBtn_disabled p' = false /\
        saveBtn_textContent p' = LABEL_SAVE /\
        match fst (saveVersion W name (vm p)) with
        | inr slug =>
            nameInput_value p' = [] /\
            versionStatus p' = status_line (saved_message name slug) TYPE_SUCCESS
        | inl e =>
            nameInput_value p' = nameInput_value p /\
            versionStatus p'
            = status_line (MSG_FAILED ++ Exn_message native_message e) TYPE_ERROR
        end
    end.
Proof.
  unfold saveNewVersionBtn_click, status_line.
  unfold bind at 1. unfold gets at 1. cbv beta iota.
  destruct (trim (nameInput_value p)) as [|c name].
  - cbn [truthy negb]. unfold _showStatus, modify. by eexists.
  - cbn [truthy negb]. unfold bind at 1. unfold modify at 1. cbv beta iota.
    unfold try_finally, try_catch, bind, in_vm, zoom, _showStatus, modify. cbv beta.
    cbn [vm set_saveBtn].
    destruct (saveVersion W (c :: name) (vm p)) as [[e|slug] s']; by eexists.
Qed.

(** What a button of the list finds under its id, a key of the mapping
    held: the record, which is truthy, and its name. *)
Lemma Object_get_own (proto : option (Json * jsstring))
    (m : gmap jsstring VersionRecord) (id : jsstring) (v : VersionRecord) :
  m !! id = Some v ->
  Object_get proto m id = Some (Own v) /\
  found (Object_get proto m id) = true /\
  template (Object_get proto m id ≫= Property_name) = Version.name v.
Proof. intros H. unfold Object_get. by rewrite H. Qed.

(** X19. The handler of an update button never throws. [version] being
    what [_versions[id]] finds in the mapping held or on
    [Object.prototype], and [name] the text of its [name]: when
    [version] is missing or falsy, or when the user declines, nothing
    changes. Otherwise the handler runs [updateVersion], shows the
    outcome, and leaves the button enabled with its label. For a key of
    the mapping held [version] is the record under it and [name] its
    name. *)
Theorem updateBtn_click_safe (id : jsstring) (confirm : jsstring -> bool) (p : Panel) :
  let version := Object_get (Object_prototype (vm p)) (_versions (vm p)) id in
  let name := template (version ≫= Property_name) in
  (exists p',
     updateBtn_click W native_message id confirm p = (inr tt, p') /\
     if found version && confirm (update_question name) then
       vm p' = snd (updateVersion W id (vm p)) /\
       nameInput_value p' = nameInput_value p /\
       btn_disabled p' = false /\
       btn_textContent p' = LABEL_UPDATE /\
       versionStatus p'
       = match fst (updateVersion W id (vm p)) with
         | inr _ => status_line (updated_message name) TYPE_SUCCESS
         | inl e => status_line (MSG_FAILED ++ Exn_message native_message e) TYPE_ERROR
         end
     else p' = p) /\
  (forall v, _versions (vm p) !! id = Some v ->
     version = Some (Own v) /\ found version = true /\ name = Version.name v).
Proof.
  intros version name. split; [|apply Object_get_own].
  unfold updateBtn_click, status_line.
  unfold bind at 1. unfold gets at 1. cbv beta iota.
  unfold bind at 1. unfold gets at 1. cbv beta iota zeta.
  fold version. fold name.
  destruct (found version); cbn [negb andb]; [|by eexists].
  destruct (confirm _); cbn [negb]; [|by eexists].
  unfold bind at 1. unfold modify at 1. cbv beta iota.
  unfold try_finally, try_catch, bind, in_vm, zoom, _showStatus, modify. cbv beta.
  cbn [vm set_btn].
  destruct (updateVersion W id (vm p)) as [[e|[]] s']; by eexists.
Qed.

(** X20. The handler of a delete button never throws. [version] being
    what [_versions[id]] finds in the mapping held or on
    [Object.prototype], and [name] the text of its [name]: when
    [version] is missing or falsy, or when the user declines, nothing
    changes. Otherwise the handler runs [deleteVersion] and shows the
    outcome; the button it disabled stays disabled, also when the
    deletion failed. For a key of the mapping held [version] is the
    record under it and [name] its name. *)
Theorem deleteBtn_click_stays_disabled (id : jsstring) (confirm : jsstring -> bool)
    (p : Panel) :
  let version := Object_get (Object_prototype (vm p)) (_versions (vm p)) id in
  let name := template (version ≫= Property_name) in
  (exists p',
     deleteBtn_click W native_message id confirm p = (inr tt, p') /\
     if found version && confirm (delete_question name) then
       vm p' = snd (deleteVersion W id (vm p)) /\
       nameInput_value p' = nameInput_value p /\
       btn_disabled p' = true /\
       btn_textContent p' = LABEL_DELETING /\
       versionStatus p'
       = match fst (deleteVersion W id (vm p)) with
         | inr _ => status_line (deleted_message name) TYPE_SUCCESS
         | inl e => status_line (MSG_FAILED ++ Exn_message native_message e) TYPE_ERROR
         end
     else p' = p) /\
  (forall v, _versions (vm p) !! id = Some v ->
     version = Some (Own v) /\ found version = true /\ name = Version.name v).
Proof.
  intros version name. split; [|apply Object_get_own].
  unfold deleteBtn_click, status_line.
  unfold bind at 1. unfold gets at 1. cbv beta iota.
  unfold bind at 1. unfold gets at 1. cbv beta iota zeta.
  fold version. fold name.
  destruct (found version); cbn [negb andb]; [|by eexists].
  destruct (confirm _); cbn [negb]; [|by eexists].
  unfold bind at 1. unfold modify at 1. cbv beta iota.
  unfold try_catch, bind, in_vm, zoom, _showStatus, modify. cbv beta.
  cbn [vm set_btn].
  destruct (deleteVersion W id (vm p)) as [[e|[]] s']; by eexists.
Qed.

Lemma loadVersions_fetch_run (p : Panel) :
  loadVersions_fetch fetch_local p
  = (inr tt,
     match served fetch_local with
     | Some data =>
         set_loaded true (set_vm (set_versions (default ∅ (versions data)) (vm p)) p)
     | None => p
     end).
Proof.
  unfold loadVersions_fetch, served, try_catch, bind, lift, in_vm, zoom, modify, ret.
  destruct fetch_local as [e|resp]; [done|].
  destruct (local_ok resp); [|done].
  by destruct (local_json resp).
Qed.

Lemma loadVersions_cache_loaded (q : Panel) :
  _loaded q = true ->
  loadVersions_cache W JSON_parse_cache q
  = (inr tt,
     set_vm (set_events
               (events (vm q) ++ [EvSetItem (cache_key q) (JSON_stringify W (_versions (vm q)))])
               (set_localStorage
                  (<[cache_key q := JSON_stringify W (_versions (vm q))]>
                     (localStorage (vm q))) (vm q))) q).
Proof.
  intros Hq. unfold loadVersions_cache, cache_key.
  unfold bind, gets, in_vm, zoom, localStorage_setItem, net, emit, modify.
  cbv beta. rewrite Hq. unfold bind, zoom, modify. cbv beta. done.
Qed.

Lemma loadVersions_cache_cold (q : Panel) :
  _loaded q = false ->
  loadVersions_cache W JSON_parse_cache q
  = (inr tt,
     match JSON_parse_cache (or_string (localStorage (vm q) !! cache_key q) []) with
     | Some parsed =>
         if truthy (localStorage (vm q) !! cache_key q)
         then set_loaded true (set_vm (set_versions parsed (vm q)) q)
         else q
     | None => q
     end).
Proof.
  intros Hq. unfold loadVersions_cache, cache_key.
  unfold bind, gets, try_catch, in_vm, zoom, lift, modify, ret.
  cbv beta. rewrite Hq.
  destruct (localStorage (vm q) !! _) as [[|c cached]|]; cbn [truthy or_string].
  - by destruct (JSON_parse_cache []).
  - cbn [default from_option id].
    by destruct (JSON_parse_cache (c :: cached)).
  - by destruct (JSON_parse_cache []).
Qed.

(** X21. [loadVersions] never throws, sends no request to the content
    API, and leaves the configuration, the version tag and the token as
    they are. When [versions.json] is served, its mapping (the empty one
    when it has none) replaces the one held and is written to the cache.
    When it is not, a mapping loaded earlier is kept and written to the
    cache; else a cache that parses replaces the mapping held; else
    nothing changes. *)
Theorem loadVersions_outcome (p : Panel) :
  exists p',
    loadVersions W fetch_local JSON_parse_cache p = (inr tt, p') /\
    _config (vm p') = _config (vm p) /\
    _sha (vm p') = _sha (vm p) /\
    stored_token (vm p') = stored_token (vm p) /\
    existsb is_network_event (events (vm p'))
    = existsb is_network_event (events (vm p)) /\
    match served fetch_local with
    | Some data =>
        _loaded p' = true /\
        _versions (vm p') = default ∅ (versions data) /\
        localStorage (vm p')
        = <[cache_key p := JSON_stringify W (default ∅ (versions data))]>
            (localStorage (vm p))
    | None =>
        if _loaded p then
          _versions (vm p') = _versions (vm p) /\
          localStorage (vm p')
          = <[cache_key p := JSON_stringify W (_versions (vm p))]>
              (localStorage (vm p))
        else
          match JSON_parse_cache (or_string (localStorage (vm p) !! cache_key p) []) with
          | Some parsed =>
              if truthy (localStorage (vm p) !! cache_key p) then
                p' = set_loaded true (set_vm (set_versions parsed (vm p)) p)
              else p' = p
          | None => p' = p
          end
    end.
Proof.
  assert (Hkey : forall (v : list Z) (ls : gmap (list Z) (list Z)) chart,
             or_string (<[CACHE_PREFIX ++ chart := v]> ls !! GITHUB_TOKEN_KEY) []
             = or_string (ls !! GITHUB_TOKEN_KEY) []).
  { intros v ls chart. rewrite lookup_insert_ne; [done|]. vm_compute. discriminate. }
  assert (Hnet : forall l k v,
             existsb is_network_event (l ++ [EvSetItem k v])
             = existsb is_network_event l).
  { intros l k v. rewrite existsb_app. cbn. by rewrite !orb_false_r. }
  unfold loadVersions. unfold bind at 1. rewrite loadVersions_fetch_run.
  destruct (served fetch_local) as [data|].
  - rewrite loadVersions_cache_loaded by done. eexists. split; [done|].
    unfold stored_token, cache_key.
    cbn [vm set_vm set_loaded _config _sha localStorage events _versions
           set_localStorage set_events set_versions _loaded].
    by rewrite Hkey, Hnet.
  - destruct (_loaded p) eqn:Hl.
    + rewrite loadVersions_cache_loaded by done. eexists. split; [done|].
      unfold stored_token, cache_key.
      cbn [vm set_vm _config _sha localStorage events _versions
             set_localStorage set_events].
      by rewrite Hkey, Hnet.
    + rewrite loadVersions_cache_cold by done. eexists. split; [done|].
      destruct (JSON_parse_cache _) as [parsed|]; [|done].
      by destruct (truthy _).
Qed.

End PanelHandlers.

(** The save button at work: on a store that holds the id [test], with
    writes accepted and with writes refused as a conflict; and the id a
    name without letters or digits gets when the empty id is taken. *)
Example save_click :
  let p := VersionManagerUi.mkPanel World.with_token true (js "  Test ") false
             VersionManagerUi.LABEL_SAVE ([], VersionManagerUi.STATUS_CLASS) false [] in
  let p' := snd (VersionManagerUi.saveNewVersionBtn_click Scene.existing
                   (fun _ => js "Failed to fetch") p) in
  VersionManagerUi.versionStatus p'
  = (VersionManagerUi.saved_message (js "Test") (js "test-2"), js "version-status success")
  /\ VersionManagerUi.nameInput_value p' = []
  /\ VersionManagerUi.saveBtn_disabled p' = false.
Proof. vm_compute. done. Qed.

Example save_click_conflict :
  let p := VersionManagerUi.mkPanel World.with_token true (js "  Test ") false
             VersionManagerUi.LABEL_SAVE ([], VersionManagerUi.STATUS_CLASS) false [] in
  let p' := snd (VersionManagerUi.saveNewVersionBtn_click Scene.conflicting
                   (fun _ => js "Failed to fetch") p) in
  VersionManagerUi.versionStatus p'
  = (js "Feil: Konflikt – filen ble endret av andre. Prøv igjen.",
     js "version-status error")
  /\ VersionManagerUi.nameInput_value p' = js "  Test "
  /\ VersionManagerUi.saveBtn_disabled p' = false
  /\ is_Some (_versions (VersionManagerUi.vm p') !! js "test-2").
Proof. vm_compute. split; [done|]. split; [done|]. split; [done|]. by eexists. Qed.

Example unique_slug_of_empty :
  slugify (js "?!") = [] /\ uniqueSlug [] [[]] = js "-2".
Proof. vm_compute. done. Qed.

Section Urls.
Import VersionManagerUi.


End Urls.

(** ** The embed resizer: what a message leaves alone *)

Lemma set_height_where_skeleton test h p :
  skeleton (set_height_where test h p) = skeleton p.
Proof.
  unfold skeleton, set_height_where. cbn [containers next_window]. f_equal.
  rewrite map_map. apply map_ext. intros c. cbn [dataset_src container_iframes].
  f_equal. rewrite map_map. apply map_ext. intros f. by destruct (test f).
Qed.

Lemma set_height_where_twice (w : option Z) h1 h2 p :
  let test := fun f => bool_decide (Some (contentWindow f) = w) in
  set_height_where test h2 (set_height_where test h1 p)
  = set_height_where test h2 p.
Proof.
  cbv zeta. unfold set_height_where. cbn [containers next_window]. f_equal.
  rewrite map_map. apply map_ext. intros c. cbn [dataset_src container_iframes].
  f_equal. rewrite map_map. apply map_ext. intros f.
  destruct (bool_decide (Some (contentWindow f) = w)) eqn:E; cbn [contentWindow];
    by rewrite E.
Qed.
(** X23. Whatever the message, the listener changes nothing but
    heights: the containers, their [data-src], and the source and the
    window of every iframe stay as they are, in both copies of the
    script. *)
Theorem on_message_heights_only (p : Page) (e : MessageEvent) :
  skeleton (Embed.on_message e p) = skeleton p /\
  skeleton (EmbedCopy.on_message e p) = skeleton p.
Proof.
  unfold Embed.on_message, EmbedCopy.on_message.
  destruct (data e) as [d|]; [|done].
  destruct (bool_decide _); [|done].
  by rewrite !set_height_where_skeleton.
Qed.
(** X24. Of two resize messages from the same window the later one
    decides: handling it after the earlier one gives the page that
    handling it alone gives, in both copies of the script. *)
Theorem on_message_last_wins (p : Page) (e1 e2 : MessageEvent) (d : MessageData) :
  source e1 = source e2 ->
  data e2 = Some d ->
  data_type d = GRAFER_RESIZE ->
  Embed.on_message e2 (Embed.on_message e1 p) = Embed.on_message e2 p /\
  EmbedCopy.on_message e2 (EmbedCopy.on_message e1 p) = EmbedCopy.on_message e2 p.
Proof.
  intros Hsrc Hd Ht. unfold Embed.on_message, EmbedCopy.on_message.
  rewrite Hd, Hsrc, bool_decide_eq_true_2 by done.
  destruct (data e1) as [d1|]; [|done].
  destruct (bool_decide _); [|done].
  by rewrite !set_height_where_twice.
Qed.

Lemma on_message_last_wins_witness :
  let p := Embed.load (mkPage [mkContainer (Some (js "https://tskjelde-bit.github.io/grafer/linje/?v=a")) []] 0) in
  let e1 :=
    mkMessageEvent (Some (mkMessageData GRAFER_RESIZE (Number.of_Z 350))) (Some 0) in
  let e2 :=
    mkMessageEvent (Some (mkMessageData GRAFER_RESIZE (Number.of_Z 420))) (Some 0) in
  Embed.on_message e2 (Embed.on_message e1 p) = Embed.on_message e2 p /\
  EmbedCopy.on_message e2 (EmbedCopy.on_message e1 p) = EmbedCopy.on_message e2 p.
Proof.
  apply (on_message_last_wins
           (Embed.load (mkPage [mkContainer (Some (js "https://tskjelde-bit.github.io/grafer/linje/?v=a")) []] 0))
           (mkMessageEvent (Some (mkMessageData GRAFER_RESIZE (Number.of_Z 350)))
              (Some 0))
           (mkMessageEvent (Some (mkMessageData GRAFER_RESIZE (Number.of_Z 420)))
              (Some 0))
           (mkMessageData GRAFER_RESIZE (Number.of_Z 420))); reflexivity.
Defined.
